(** * maps4fs web UI: the generation orchestrator of [webui/generator.py]

    A shallow embedding of the parts of [GeneratorUI] that decide how a
    generation request is validated, queued, run, reported and released:
    the properties [lat_lon] and [map_size], [limit_on_public],
    [get_sesion_name], [generate_map] and the button section of
    [add_left_widgets].

    Python statements become computations in a small monad [M] that threads
    the mutable fields of the object ([download_path], the session flag
    [generated]), records every call to a collaborator as an [event], and
    ends a block in one of three ways: normally, by [return], or by a raised
    exception.  The collaborators that are not part of this file (the
    engine [mfs], the [queuing] and [config] modules, the file system) are
    the fields of a [World]: every theorem quantifies over all of them.
    Calls into the UI toolkit and the logger ([st.error], the status
    container, [logger.error], ...) are recorded and taken to return;
    [progress_bar.progress] keeps its range check.  Strings are byte
    strings; [int] and [float] are modelled on ASCII text, and the
    properties about parsing are stated for it.

    The rest of the page ([_show_version], [is_disabled_on_public],
    [get_settings], [_create_widget], [snake_to_human], [map_preview],
    [show_preview] and the form of [add_left_widgets]) is embedded in the
    module [Page]: these functions leave the session state alone, so a
    statement there is the list of its calls and the way it ends. *)

From Stdlib Require Import ZArith List String Ascii Lia Bool Sorted.
From stdpp Require Import base gmap strings pretty sorting.
Import ListNotations.

Open Scope string_scope.
Open Scope Z_scope.
Open Scope list_scope.

(** ** Python values and exceptions *)

(** The exception classes that the code names or that its built-ins raise.
    [BaseExceptionOnly] stands for the classes outside [Exception]
    (KeyboardInterrupt, SystemExit, the script-control exceptions of the UI
    toolkit); [ValueErrorSub] for subclasses of [ValueError] other than
    [JSONDecodeError]; [ExceptionOther] for every other subclass of
    [Exception]. *)
Inductive exn_class : Type :=
  | BaseExceptionOnly
  | ExceptionOther
  | ValueError
  | ValueErrorSub
  | JSONDecodeError
  | KeyError
  | TypeError
  | AttributeError
  | StreamlitAPIException.

Record exn : Type := mk_exn { exn_cls : exn_class; exn_repr : string }.

(** [isinstance(e, Exception)], [isinstance(e, ValueError)] and
    [isinstance(e, json.JSONDecodeError)]: what the three kinds of [except]
    clause of the file catch. *)
Definition isinstance_Exception (e : exn) : bool :=
  match exn_cls e with BaseExceptionOnly => false | _ => true end.

Definition isinstance_ValueError (e : exn) : bool :=
  match exn_cls e with
  | ValueError | ValueErrorSub | JSONDecodeError => true
  | _ => false
  end.

Definition isinstance_JSONDecodeError (e : exn) : bool :=
  match exn_cls e with JSONDecodeError => true | _ => false end.

(** The result of a call that either returns or raises. *)
Inductive outcome (A : Type) : Type :=
  | Ok (a : A)
  | Err (e : exn).
Arguments Ok {A} a.
Arguments Err {A} e.

(** A Python [float], kept as the decimal literal it was read from (the
    rounding to binary64 is not modelled: the code only stores, formats and
    forwards these values). *)
Inductive pyfloat : Type :=
  | FFinite (neg : bool) (mantissa : N) (exp10 : Z)
  | FInf (neg : bool)
  | FNan.

(** JSON-like Python values: what [json.loads] returns and what the
    settings dictionaries hold. *)
#[warnings="-register-all"]
Inductive pyval : Type :=
  | PNone
  | PBool (b : bool)
  | PInt (z : Z)
  | PFloat (f : pyfloat)
  | PStr (s : string)
  | PList (l : list pyval)
  | PDict (d : gmap string pyval).

(** A generator: the items it yields, then how it stops (exhausted, or by
    raising). The generators of the collaborators are finite. *)
Record generator (A : Type) : Type :=
  mk_generator { yields : list A; finish : option exn }.
Arguments mk_generator {A} yields finish.
Arguments yields {A} g.
Arguments finish {A} g.

(** ** Built-ins: [str.split], [int], [float], tuple unpacking *)

Module Py.

(** [s.split(sep)] for a one-character separator: never empty. *)
Fixpoint split (sep : ascii) (s : string) : list string :=
  match s with
  | EmptyString => [EmptyString]
  | String c rest =>
      match split sep rest with
      | [] => [EmptyString]
      | cur :: more =>
          if Ascii.eqb c sep then EmptyString :: cur :: more
          else String c cur :: more
      end
  end.

(** The white space that [int] and [float] strip from ASCII text: the
    characters 9 to 13 and the space ([str.isspace] also holds of the
    separators 28 to 31, which the two conversions do not strip). Strings
    are byte strings here. On text outside ASCII the two conversions also
    accept Unicode spaces and decimal digits, which are not modelled: [int]
    and [float] below are Python's on ASCII text, and the properties about
    parsing are stated for it. *)
Definition is_space (c : ascii) : bool :=
  let n := N_of_ascii c in
  ((9 <=? n) && (n <=? 13) || (n =? 32))%N.

Definition is_digit (c : ascii) : bool :=
  let n := N_of_ascii c in ((48 <=? n) && (n <=? 57))%N.

Definition digit_value (c : ascii) : N := (N_of_ascii c - 48)%N.

Fixpoint lstrip (l : list ascii) : list ascii :=
  match l with
  | c :: l' => if is_space c then lstrip l' else l
  | [] => []
  end.

Definition strip (l : list ascii) : list ascii :=
  rev (lstrip (rev (lstrip l))).

(** [digit (["_"] digit)*]: the digits read after a first digit, and the
    unread rest. *)
Fixpoint more_digits (l : list ascii) : list N * list ascii :=
  match l with
  | c :: l' =>
      if is_digit c then
        let '(ds, r) := more_digits l' in (digit_value c :: ds, r)
      else if Ascii.eqb c "_" then
        match l' with
        | d :: l'' =>
            if is_digit d then
              let '(ds, r) := more_digits l'' in (digit_value d :: ds, r)
            else ([], l)
        | [] => ([], l)
        end
      else ([], l)
  | [] => ([], [])
  end.

Definition digitpart (l : list ascii) : option (list N * list ascii) :=
  match l with
  | c :: l' =>
      if is_digit c then
        let '(ds, r) := more_digits l' in Some (digit_value c :: ds, r)
      else None
  | [] => None
  end.

Definition number_of_digits (ds : list N) : N :=
  fold_left (fun acc d => (10 * acc + d)%N) ds 0%N.

(** An optional sign: [true] for "-". *)
Definition sign (l : list ascii) : bool * list ascii :=
  match l with
  | c :: l' =>
      if Ascii.eqb c "-" then (true, l')
      else if Ascii.eqb c "+" then (false, l')
      else (false, l)
  | [] => (false, [])
  end.

(** The default of [sys.int_max_str_digits]. *)
Definition int_max_str_digits : nat := 4300.

Definition value_error (what : string) : exn :=
  mk_exn ValueError ("ValueError('" +:+ what +:+ "')").

(** [int(s)] in base 10, on ASCII text. *)
Definition int (s : string) : outcome Z :=
  let '(neg, l) := sign (strip (list_ascii_of_string s)) in
  match digitpart l with
  | Some (ds, []) =>
      if (int_max_str_digits <? length ds)%nat then
        Err (value_error "Exceeds the limit for integer string conversion")
      else
        let n := Z.of_N (number_of_digits ds) in
        Ok (if neg then - n else n)
  | _ => Err (value_error "invalid literal for int() with base 10")
  end.

Definition lower (c : ascii) : ascii :=
  let n := N_of_ascii c in
  if ((65 <=? n) && (n <=? 90))%N then ascii_of_N (n + 32) else c.

Definition is_e (c : ascii) : bool := Ascii.eqb (lower c) "e".

(** [exponent ::= ("e" | "E") [sign] digitpart], when present. *)
Definition exponent (l : list ascii) : option (Z * list ascii) :=
  match l with
  | c :: l' =>
      if is_e c then
        let '(neg, l'') := sign l' in
        match digitpart l'' with
        | Some (ds, r) =>
            let n := Z.of_N (number_of_digits ds) in
            Some (if neg then - n else n, r)
        | None => None
        end
      else Some (0, l)
  | [] => Some (0, [])
  end.

(** [number ::= [digitpart] "." digitpart | digitpart ["."]]: the digits
    before and after the point. *)
Definition number (l : list ascii) : option (list N * list N * list ascii) :=
  match digitpart l with
  | Some (ip, r) =>
      match r with
      | c :: r' =>
          if Ascii.eqb c "." then
            match digitpart r' with
            | Some (fp, r'') => Some (ip, fp, r'')
            | None => Some (ip, [], r')
            end
          else Some (ip, [], r)
      | [] => Some (ip, [], [])
      end
  | None =>
      match l with
      | c :: r' =>
          if Ascii.eqb c "." then
            match digitpart r' with
            | Some (fp, r'') => Some ([], fp, r'')
            | None => None
            end
          else None
      | [] => None
      end
  end.

Definition float_error : exn := value_error "could not convert string to float".

(** [float(s)], on ASCII text. *)
Definition float (s : string) : outcome pyfloat :=
  let '(neg, l) := sign (strip (list_ascii_of_string s)) in
  let word := string_of_list_ascii (map lower l) in
  if String.eqb word "inf" || String.eqb word "infinity" then Ok (FInf neg)
  else if String.eqb word "nan" then Ok FNan
  else
    match number l with
    | Some (ip, fp, r) =>
        match exponent r with
        | Some (e, []) =>
            Ok (FFinite neg (number_of_digits (ip ++ fp))
                  (e - Z.of_nat (length fp)))
        | _ => Err float_error
        end
    | None => Err float_error
    end.

(** [tuple(map(f, items))]: the first failing conversion raises. *)
Fixpoint map_tuple {A B : Type} (f : A -> outcome B) (items : list A)
  : outcome (list B) :=
  match items with
  | [] => Ok []
  | x :: xs =>
      match f x with
      | Ok y =>
          match map_tuple f xs with
          | Ok ys => Ok (y :: ys)
          | Err e => Err e
          end
      | Err e => Err e
      end
  end.

(** [a, b = t]: [ValueError] unless the tuple has exactly two items. *)
Definition unpack2 {A : Type} (t : list A) : outcome (A * A) :=
  match t with
  | [a; b] => Ok (a, b)
  | [] | [_] => Err (value_error "not enough values to unpack (expected 2)")
  | _ => Err (value_error "too many values to unpack (expected 2)")
  end.

(** [str.replace(old, new)] for one-character arguments. *)
Fixpoint replace (old new : ascii) (s : string) : string :=
  match s with
  | EmptyString => EmptyString
  | String c rest =>
      String (if Ascii.eqb c old then new else c) (replace old new rest)
  end.

(** [sep.join(items)]. *)
Fixpoint join (sep : string) (items : list string) : string :=
  match items with
  | [] => ""
  | [x] => x
  | x :: xs => x +:+ sep +:+ join sep xs
  end.

(** [str(n)] for an integer. *)
Definition str_of_int (n : Z) : string := pretty n.

(** [d[k]] for reading: [KeyError] on a dictionary without the key,
    [TypeError] on a value that a string cannot index. *)
Definition getitem (v : pyval) (k : string) : outcome pyval :=
  match v with
  | PDict d =>
      match d !! k with
      | Some x => Ok x
      | None => Err (mk_exn KeyError ("KeyError('" +:+ k +:+ "')"))
      end
  | _ => Err (mk_exn TypeError "TypeError('object is not subscriptable by str')")
  end.

(** [d[k] = x]: only a dictionary accepts a string key. *)
Definition setitem (v : pyval) (k : string) (x : pyval) : outcome pyval :=
  match v with
  | PDict d => Ok (PDict (<[k := x]> d))
  | _ =>
      Err (mk_exn TypeError "TypeError('object does not support item assignment by str')")
  end.

(** [v.copy()]: dictionaries and lists have the method. *)
Definition copy (v : pyval) : outcome pyval :=
  match v with
  | PDict _ | PList _ => Ok v
  | _ => Err (mk_exn AttributeError "AttributeError('object has no attribute copy')")
  end.

(** [os.path.join(a, b)] on POSIX for a relative [b]. *)
Definition path_join (a b : string) : string :=
  match rev (list_ascii_of_string a) with
  | [] => b
  | c :: _ => if Ascii.eqb c "/" then a +:+ b else a +:+ "/" +:+ b
  end.

End Py.

(** ** Events, state and the monad of statements *)

Inductive game_code_t : Type := FS25 | FS22.

Definition game_code_str (g : game_code_t) : string :=
  match g with FS25 => "FS25" | FS22 => "FS22" end.

(** The arguments of [mfs.Map(...)] as [generate_map] passes them. *)
Record MapArgs : Type := mk_MapArgs {
  m_game : game_code_t;
  m_coordinates : pyfloat * pyfloat;
  m_size : Z;
  m_rotation : Z;
  m_map_directory : string;
  m_custom_osm : option string;
  m_dem_settings : pyval;
  m_background_settings : pyval;
  m_grle_settings : pyval;
  m_i3d_settings : pyval;
  m_texture_settings : pyval;
  m_spline_settings : pyval;
  m_texture_custom_schema : option pyval;
  m_tree_custom_schema : option pyval
}.

(** One event per call to a collaborator, in program order. A call that
    raises is still recorded: it was made. *)
Inductive event : Type :=
  | StError (msg : string)
  | StWarning (msg : string)
  | Makedirs (path : string)
  | AllSettingsFromJson (json_settings : pyval)
  | MapInit (args : MapArgs)
  | AddToQueue (session_name : string)
  | WaitInQueue (session_name : string)
  | StatusInfo (msg : string)
  | StProgress (value : Z)
  | Generate
  | Progress (value : Z) (text : string)
  | ShowPreview
  | MapPreview
  | Pack (prefix : string)
  | LoggerInfo (msg : string)
  | LoggerError (msg : string)
  | LoggerDebug (msg : string)
  | StatusSuccess (msg : string)
  | StatusError (msg : string)
  | RemoveFromQueue (session_name : string)
  | GetQueueLength
  | Button (label : string) (disabled : bool)
  | OpenFile (path : string)
  | DownloadButton (file_name : string) (path : string)
  | RemoveWithDelay (path : string).

(** The mutable state a run reads and writes: [self.download_path],
    [st.session_state.generated], and the deletions handed to the timer.
    [self.settings] is not part of it: a run reads it through [self]. On a
    public deployment line 495 also writes into it, through the shallow copy
    of [limit_on_public]; [limit_on_public_argument] below gives its content
    after that line. *)
Record state : Type := mk_state {
  download_path : option string;
  generated : bool;
  scheduled_deletions : list string
}.

(** How a block of statements ends. *)
Inductive ctl (A : Type) : Type :=
  | Next (a : A)
  | Return
  | Raise (e : exn).
Arguments Next {A} a.
Arguments Return {A}.
Arguments Raise {A} e.

Record result (A : Type) : Type := mk_result {
  r_trace : list event;
  r_state : state;
  r_ctl : ctl A
}.
Arguments mk_result {A} r_trace r_state r_ctl.
Arguments r_trace {A} r.
Arguments r_state {A} r.
Arguments r_ctl {A} r.

Definition M (A : Type) : Type := state -> result A.

Definition ret {A : Type} (a : A) : M A := fun s => mk_result [] s (Next a).

Definition bind {A B : Type} (m : M A) (f : A -> M B) : M B := fun s =>
  let r := m s in
  match r_ctl r with
  | Next a =>
      let r' := f a (r_state r) in
      mk_result (r_trace r ++ r_trace r') (r_state r') (r_ctl r')
  | Return => mk_result (r_trace r) (r_state r) Return
  | Raise e => mk_result (r_trace r) (r_state r) (Raise e)
  end.

Declare Scope py_scope.
Delimit Scope py_scope with py.
Notation "x <- m ;; k" := (bind m (fun x => k))
  (at level 100, m at next level, right associativity) : py_scope.
Notation "m ;; k" := (bind m (fun _ => k))
  (at level 100, right associativity) : py_scope.
Open Scope py_scope.

(** [return] and [raise]. *)
Definition return_ {A : Type} : M A := fun s => mk_result [] s Return.
Definition raise {A : Type} (e : exn) : M A := fun s => mk_result [] s (Raise e).

(** A pure computation that may raise. *)
Definition lift {A : Type} (o : outcome A) : M A :=
  match o with Ok a => ret a | Err e => raise e end.

(** A call that cannot fail, and a call whose outcome the world decides. *)
Definition emit (ev : event) : M unit := fun s => mk_result [ev] s (Next tt).
Definition call {A : Type} (ev : event) (o : outcome A) : M A :=
  emit ev ;; lift o.

Definition get {A : Type} (field : state -> A) : M A :=
  fun s => mk_result [] s (Next (field s)).
Definition modify (f : state -> state) : M unit :=
  fun s => mk_result [] (f s) (Next tt).

(** [try: body  except C as e: handler e]. *)
Definition try_except {A : Type} (body : M A) (catches : exn -> bool)
    (handler : exn -> M A) : M A := fun s =>
  let r := body s in
  match r_ctl r with
  | Raise e =>
      if catches e then
        let r' := handler e (r_state r) in
        mk_result (r_trace r ++ r_trace r') (r_state r') (r_ctl r')
      else r
  | _ => r
  end.

(** [try: body  finally: final]: [final] runs however [body] ended, and
    the way [body] ended stands unless [final] itself returns or raises. *)
Definition try_finally {A : Type} (body : M A) (final : M unit) : M A := fun s =>
  let r := body s in
  let r' := final (r_state r) in
  mk_result (r_trace r ++ r_trace r') (r_state r')
    match r_ctl r' with
    | Next _ => r_ctl r
    | Return => Return
    | Raise e => Raise e
    end.

(** [try: body  except C as e: handler e  finally: final]. *)
Definition try_except_finally {A : Type} (body : M A) (catches : exn -> bool)
    (handler : exn -> M A) (final : M unit) : M A :=
  try_finally (try_except body catches handler) final.

(** The boundary of a [def]: a [return] ends the call normally. *)
Definition def_ (body : M unit) : M unit := fun s =>
  let r := body s in
  match r_ctl r with
  | Return => mk_result (r_trace r) (r_state r) (Next tt)
  | _ => r
  end.

Definition when (c : bool) (block : M unit) : M unit :=
  if c then block else ret tt.

(** [for x in items: acc = body x acc], for the items already at hand. *)
Fixpoint for_items {A S : Type} (items : list A) (acc : S)
    (body : A -> S -> M S) : M S :=
  match items with
  | [] => ret acc
  | x :: xs => acc' <- body x acc ;; for_items xs acc' body
  end.

(** [for x in g: ...] over a generator: the loop ends when the generator is
    exhausted, or with the exception the generator raises. *)
Definition for_in {A S : Type} (g : generator A) (acc : S)
    (body : A -> S -> M S) : M S :=
  acc' <- for_items (yields g) acc body ;;
  match finish g with
  | None => ret acc'
  | Some e => raise e
  end.

(** ** The object and its collaborators *)

(** The fields of [self] that [generate_map] reads; [__init__] and the
    widget part of [add_left_widgets] set them from the form. *)
Record GeneratorUI : Type := mk_GeneratorUI {
  public : bool;
  game_code : game_code_t;
  lat_lon_input : string;
  map_size_input : string;
  rotation : Z;
  expert_mode : bool;
  raw_config : option string;
  settings : pyval;
  custom_schemas : bool;
  texture_schema_input : option string;
  tree_schema_input : option string;
  custom_osm_enabled : bool;
  custom_osm_path : option string
}.

(** Everything outside this file that a run observes. *)
Record World : Type := mk_World {
  (* config, templates *)
  is_on_community_server : bool;
  MAPS_DIRECTORY : string;
  ARCHIVES_DIRECTORY : string;
  OVERLOADED : string;
  (* built-ins whose results are taken as given *)
  now_strftime : string;                 (* datetime.now().strftime(...) *)
  format_5f : pyfloat -> string;         (* f"{x:.5f}" *)
  elapsed_rounded : string;              (* str(round(t1 - t0, 3)) *)
  makedirs : string -> outcome unit;     (* os.makedirs(path, exist_ok=True) *)
  json_loads : string -> outcome pyval;  (* json.loads *)
  open_rb : string -> outcome unit;      (* open(path, "rb") *)
  launch_clicked : bool;                 (* the user pressed "Generate" *)
  (* queuing *)
  get_queue_length : outcome Z;
  add_to_queue : string -> outcome unit;
  wait_in_queue : string -> generator Z;
  remove_from_queue : string -> outcome unit;
  (* the engine *)
  components : game_code_t -> nat;       (* len(game.components) *)
  all_settings_from_json : pyval -> outcome pyval;
  Map_init : MapArgs -> outcome unit;
  generate : MapArgs -> generator string;
  pack : MapArgs -> string -> outcome string;
  (* the preview renderers, as far as control flow goes *)
  show_preview : MapArgs -> outcome unit;
  map_preview : outcome unit
}.

Definition QUEUE_LIMIT : Z := 2.

(** Python's truth value of an optional string ([None] and [""] are false). *)
Definition truthy (o : option string) : bool :=
  match o with
  | Some s => negb (String.eqb s "")
  | None => false
  end.

Definition obind {A B : Type} (o : outcome A) (f : A -> outcome B) : outcome B :=
  match o with Ok a => f a | Err e => Err e end.

(** [lat_lon]: [tuple(map(float, self.lat_lon_input.split(",")))]. *)
Definition lat_lon (self : GeneratorUI) : outcome (list pyfloat) :=
  Py.map_tuple Py.float (Py.split "," (lat_lon_input self)).

(** [map_size]: [tuple(map(int, self.map_size_input.split("x")))]. *)
Definition map_size (self : GeneratorUI) : outcome (list Z) :=
  Py.map_tuple Py.int (Py.split "x" (map_size_input self)).

(** [limit_on_public]. The copy is shallow: the two assignments go through
    the category dictionaries of the argument; the value below is the
    content of the dictionary the method returns. *)
Definition limit_on_public (self : GeneratorUI) (settings_json : pyval)
  : outcome pyval :=
  if negb (public self) then Ok settings_json
  else
    obind (Py.copy settings_json) (fun limited_settings =>
    obind (Py.getitem limited_settings "BackgroundSettings") (fun background =>
    obind (Py.setitem background "resize_factor" (PInt 8)) (fun background' =>
    obind (Py.setitem limited_settings "BackgroundSettings" background')
      (fun limited_settings =>
    obind (Py.getitem limited_settings "TextureSettings") (fun texture =>
    obind (Py.setitem texture "dissolve" (PBool false)) (fun texture' =>
    Py.setitem limited_settings "TextureSettings" texture')))))).

(** The admission test as the spec words it (4.2): [admit(length, ceiling) =
    length < ceiling]. *)
Definition admission (length ceiling : Z) : bool := length <? ceiling.

Section Orchestrator.

Variable w : World.

(** [shorten_coordinate]: [f"{coordinate:.5f}".replace(".", "_")]. *)
Definition shorten_coordinate (coordinate : pyfloat) : string :=
  Py.replace "." "_" (format_5f w coordinate).

(** [get_sesion_name]. *)
Definition get_sesion_name (self : GeneratorUI)
    (coordinates : pyfloat * pyfloat) : string :=
  let coordinates_str :=
    Py.join "_" (map shorten_coordinate [fst coordinates; snd coordinates]) in
  game_code_str (game_code self) +:+ "_" +:+ coordinates_str +:+ "_"
    +:+ now_strftime w.

(** [json.loads(text)]; [None] is no text at all. *)
Definition loads (text : option string) : outcome pyval :=
  match text with
  | Some t => json_loads w t
  | None => Err (mk_exn TypeError "TypeError('the JSON object must be str, bytes or bytearray, not NoneType')")
  end.

(** [progress_bar.progress(value, text)]: Streamlit accepts an integer
    between 0 and 100 and raises [StreamlitAPIException] otherwise. *)
Definition progress (value : Z) (text : string) : M unit :=
  if (0 <=? value) && (value <=? 100) then emit (Progress value text)
  else raise (mk_exn StreamlitAPIException
                "StreamlitAPIException('Progress Value has invalid value [0, 100]')").

(** One optional schema of lines 503-514: parsed when the text is not
    empty; malformed JSON is reported and ends [generate_map]. *)
Definition load_schema (what : string) (input : option string)
  : M (option pyval) :=
  if truthy input then
    try_except
      (schema <- lift (loads input) ;; ret (Some schema))
      isinstance_JSONDecodeError
      (fun e =>
         emit (StError ("Invalid " +:+ what +:+ " schema was provided: "
                          +:+ exn_repr e)) ;;
         return_)
  else ret None.

(** Lines 452-537 of [generate_map]: validation of the form, the session
    directory, the settings and the construction of the [Map]. The game
    comes from a select box with the two codes [FS25] and [FS22], on which
    [mfs.Game.from_code] returns. *)
Definition generate_map_prepare (self : GeneratorUI) : M (string * MapArgs) :=
  let game := game_code self in
  coordinates <-
    try_except (lift (obind (lat_lon self) Py.unpack2))
      isinstance_ValueError
      (fun _ => emit (StError "Invalid latitude and longitude!") ;; return_) ;;
  size <-
    try_except (lift (obind (map_size self) Py.unpack2))
      isinstance_ValueError
      (fun _ => emit (StError "Invalid map size!") ;; return_) ;;
  let height := fst size in
  let width := snd size in
  when (negb (height mod 2 =? 0) || negb (width mod 2 =? 0))
    (emit (StError "Map size must be a power of 2. For example: 2, 4, ... 2048, 4096, ...") ;;
     return_) ;;
  when (negb (height =? width))
    (emit (StError "Map size must be square (height == width).") ;; return_) ;;
  let session_name := get_sesion_name self coordinates in
  let map_directory := Py.path_join (MAPS_DIRECTORY w) session_name in
  call (Makedirs map_directory) (makedirs w map_directory) ;;
  json_settings <-
    (if negb (expert_mode self) then ret (settings self)
     else
       try_except (lift (loads (raw_config self)))
         isinstance_JSONDecodeError
         (fun e =>
            emit (StError ("Invalid raw configuration was provided: "
                             +:+ exn_repr e)) ;;
            return_)) ;;
  json_settings <- lift (limit_on_public self json_settings) ;;
  all_settings <-
    call (AllSettingsFromJson json_settings)
      (all_settings_from_json w json_settings) ;;
  texture_schema <-
    (if custom_schemas self then load_schema "texture" (texture_schema_input self)
     else ret None) ;;
  tree_schema <-
    (if custom_schemas self then load_schema "tree" (tree_schema_input self)
     else ret None) ;;
  let osm_path := if custom_osm_enabled self then custom_osm_path self else None in
  dem <- lift (Py.getitem all_settings "DEMSettings") ;;
  background <- lift (Py.getitem all_settings "BackgroundSettings") ;;
  grle <- lift (Py.getitem all_settings "GRLESettings") ;;
  i3d <- lift (Py.getitem all_settings "I3DSettings") ;;
  texture <- lift (Py.getitem all_settings "TextureSettings") ;;
  spline <- lift (Py.getitem all_settings "SplineSettings") ;;
  let mp :=
    mk_MapArgs game coordinates height (rotation self) map_directory osm_path
      dem background grle i3d texture spline texture_schema tree_schema in
  call (MapInit mp) (Map_init w mp) ;;
  ret (session_name, mp).

(** Lines 539-544: queue entry and the wait for the turn. *)
Definition generate_map_enqueue (self : GeneratorUI) (session_name : string)
  : M unit :=
  when (public self)
    (call (AddToQueue session_name) (add_to_queue w session_name) ;;
     emit (WaitInQueue session_name) ;;
     for_in (wait_in_queue w session_name) tt
       (fun position _ =>
          emit (StatusInfo ("Your position in the queue: "
                              +:+ Py.str_of_int position +:+ ". Please wait...")))).

(** The step of the progress bar, [int(100 / (len(game.components) + 2))]:
    the quotient is positive, so truncating it is rounding it down (the
    float division is exact enough for every list a machine can hold). *)
Definition progress_step (self : GeneratorUI) : Z :=
  100 / (Z.of_nat (components w (game_code self)) + 2).

(** Lines 547-576: the body of the [try]. The calls to the toolkit and to
    the logger are taken to return, here as everywhere: what they may raise
    (the script-control exceptions of the toolkit among them) is not
    modelled, so an exception of this block comes from the engine, from the
    previews, from the packing or from the range check of the progress
    bar. *)
Definition generate_map_try (self : GeneratorUI) (session_name : string)
    (mp : MapArgs) : M unit :=
  let step := progress_step self in
  let completed := 0 in
  emit (StProgress 0) ;;
  emit Generate ;;
  completed <-
    for_in (generate w mp) completed
      (fun component_name completed =>
         progress completed ("⏳ Generating " +:+ component_name +:+ "...") ;;
         ret (completed + step)) ;;
  let completed := completed + step in
  progress completed "🖼️ Creating previews..." ;;
  call ShowPreview (show_preview w mp) ;;
  call MapPreview (map_preview w) ;;
  let completed := completed + step in
  progress completed "🗃️ Packing the map..." ;;
  let prefix := Py.path_join (ARCHIVES_DIRECTORY w) session_name in
  archive_path <- call (Pack prefix) (pack w mp prefix) ;;
  modify (fun s => mk_state (Some archive_path) (generated s) (scheduled_deletions s)) ;;
  modify (fun s => mk_state (download_path s) true (scheduled_deletions s)) ;;
  emit (LoggerInfo ("Map generated in " +:+ elapsed_rounded w +:+ " seconds.")) ;;
  emit (StatusSuccess ("Map generated in " +:+ elapsed_rounded w +:+ " seconds.")).

(** Lines 577-581: the [except Exception as e] clause. *)
Definition generate_map_except (e : exn) : M unit :=
  emit (LoggerError ("An error occurred while generating the map: " +:+ exn_repr e)) ;;
  emit (StatusError ("An error occurred while generating the map: "
                       +:+ exn_repr e +:+ ".")).

(** Lines 582-584: the [finally] clause. *)
Definition generate_map_finally (self : GeneratorUI) (session_name : string)
  : M unit :=
  when (public self)
    (call (RemoveFromQueue session_name) (remove_from_queue w session_name)).

(** [generate_map]. *)
Definition generate_map (self : GeneratorUI) : M unit :=
  def_
    (job <- generate_map_prepare self ;;
     let session_name := fst job in
     let mp := snd job in
     generate_map_enqueue self session_name ;;
     try_except_finally
       (generate_map_try self session_name mp)
       isinstance_Exception
       generate_map_except
       (generate_map_finally self session_name)).

(** Modelled from the spec: [config.remove_with_delay_without_blocking] is
    not in this file. Spec 4.5: "arranges deletion to occur after [delay]
    without blocking the caller; deletion failures are swallowed/logged,
    never surfaced to the user". The call hands the path to the timer and
    returns at once; the file is removed by the timer, later. *)
Definition remove_with_delay_without_blocking (path : string) : M unit :=
  emit (RemoveWithDelay path) ;;
  modify (fun s =>
    mk_state (download_path s) (generated s) (scheduled_deletions s ++ [path])).

(** [open(path, "rb")]; [None] is not a path. *)
Definition open_ (path : option string) : M string :=
  match path with
  | Some p => call (OpenFile p) (open_rb w p) ;; ret p
  | None =>
      raise (mk_exn TypeError "TypeError('expected str, bytes or os.PathLike object, not NoneType')")
  end.

(** [st.button(label, disabled=...)]: true when the user pressed it, which
    a disabled button does not allow. *)
Definition st_button (label : string) (disabled : bool) : M bool :=
  emit (Button label disabled) ;;
  ret (launch_clicked w && negb disabled).

(** [path.split('/')[-1]]. *)
Definition file_name_of (path : string) : string :=
  List.last (Py.split "/" path) "".

(** Lines 396-405 of [add_left_widgets]: the "Generate" button behind the
    admission test. The part before (lines 231-394) builds the form whose
    values are the fields of [self]. *)
Definition add_left_widgets_generate (self : GeneratorUI) : M unit :=
  generate_button_disabled <-
    (if public self then
       queue_length <- call GetQueueLength (get_queue_length w) ;;
       if QUEUE_LIMIT <=? queue_length then
         emit (StWarning (OVERLOADED w)) ;; ret true
       else ret false
     else ret false) ;;
  when (negb (is_on_community_server w))
    (clicked <- st_button "Generate" generate_button_disabled ;;
     when clicked (generate_map self)).

(** Lines 407-423 of [add_left_widgets]: the download button, then the
    deferred deletion of the archive. *)
Definition add_left_widgets_download : M unit :=
  is_generated <- get generated ;;
  when is_generated
    (emit (LoggerDebug "Generated was set to True in the session state.") ;;
     path <- get download_path ;;
     p <- open_ path ;;
     emit (DownloadButton (file_name_of p) p) ;;
     remove_with_delay_without_blocking p ;;
     modify (fun s => mk_state (download_path s) false (scheduled_deletions s)) ;;
     emit (LoggerDebug "Generated was set to False in the session state.")).

(** [add_left_widgets], from the "Generate" button on (lines 396-423), on
    the object [self] the form has filled in. [add_left_widgets_whole]
    below runs the form of lines 231-394 first; on a public deployment the
    form raises at line 321 and these two sections are not reached. *)
Definition add_left_widgets (self : GeneratorUI) : M unit :=
  def_ (add_left_widgets_generate self ;; add_left_widgets_download).

End Orchestrator.

(** ** Concrete runs

    A form as the page submits it and a world in which every collaborator
    answers; the scenarios below vary one answer at a time. *)

Module Sample.

Definition category (fields : list (string * pyval)) : pyval :=
  PDict (list_to_map fields).

(** A settings dictionary as [get_settings] collects it (abridged to a few
    fields per category). *)
Definition background_fields : gmap string pyval :=
  list_to_map [("generate_background", PBool true); ("resize_factor", PInt 2)].

Definition texture_fields : gmap string pyval :=
  list_to_map [("dissolve", PBool true); ("fields_padding", PInt 0)].

Definition settings_map : gmap string pyval :=
  list_to_map
    [ ("DEMSettings", category [("multiplier", PInt 1); ("blur_radius", PInt 35)]);
      ("BackgroundSettings", PDict background_fields);
      ("GRLESettings", category [("farmland_margin", PInt 8)]);
      ("I3DSettings", category [("forest_density", PInt 10)]);
      ("TextureSettings", PDict texture_fields);
      ("SplineSettings", category [("spline_density", PInt 2)]) ].

Definition form_settings : pyval := PDict settings_map.

Definition form (is_public : bool) (coordinates size : string) : GeneratorUI :=
  {| public := is_public;
     game_code := FS25;
     lat_lon_input := coordinates;
     map_size_input := size;
     rotation := 0;
     expert_mode := false;
     raw_config := None;
     settings := form_settings;
     custom_schemas := false;
     texture_schema_input := None;
     tree_schema_input := None;
     custom_osm_enabled := false;
     custom_osm_path := None |}.

(** The same form with the raw configuration edited by hand. *)
Definition expert_form (is_public : bool) (coordinates size text : string)
  : GeneratorUI :=
  {| public := is_public;
     game_code := FS25;
     lat_lon_input := coordinates;
     map_size_input := size;
     rotation := 0;
     expert_mode := true;
     raw_config := Some text;
     settings := form_settings;
     custom_schemas := false;
     texture_schema_input := None;
     tree_schema_input := None;
     custom_osm_enabled := false;
     custom_osm_path := None |}.

Definition stages : list string :=
  ["Texture"; "GRLE"; "Background"; "I3d"; "Config"].

(** [f"{x:.5f}"] on the literals with at most five decimals that the
    scenarios use. *)
Definition format_5f_sample (x : pyfloat) : string :=
  match x with
  | FFinite neg m e =>
      let k := Z.to_nat (- e) in
      let scale := (10 ^ N.of_nat k)%N in
      let frac := pretty (m mod scale)%N in
      (if neg then "-" else "") +:+ pretty (m / scale)%N +:+ "."
        +:+ string_of_list_ascii (repeat "0"%char (k - String.length frac))
        +:+ (if (0 <? k)%nat then frac else "")
        +:+ string_of_list_ascii (repeat "0"%char (5 - k))
  | FInf neg => if neg then "-inf" else "inf"
  | FNan => "nan"
  end.

(** [json.loads] on the two texts the scenarios use. *)
Definition loads_sample (text : string) : outcome pyval :=
  if String.eqb text "{}" then Ok (PDict ∅)
  else Err (mk_exn JSONDecodeError
              "JSONDecodeError('Expecting value: line 1 column 1 (char 0)')").

(** A world given the answers the scenarios vary: the community-server
    flag, the queue length at render time, the wait, the engine's stages
    and whether the user pressed the button. *)
Definition world (community : bool) (queue_length : Z) (wait : generator Z)
    (engine : generator string) (clicked : bool) : World :=
  {| is_on_community_server := community;
     MAPS_DIRECTORY := "maps";
     ARCHIVES_DIRECTORY := "archives";
     OVERLOADED := "The server is overloaded.";
     now_strftime := "2025-01-01_12-00-00";
     format_5f := format_5f_sample;
     elapsed_rounded := "12.345";
     makedirs := fun _ => Ok tt;
     json_loads := loads_sample;
     open_rb := fun _ => Ok tt;
     launch_clicked := clicked;
     get_queue_length := Ok queue_length;
     add_to_queue := fun _ => Ok tt;
     wait_in_queue := fun _ => wait;
     remove_from_queue := fun _ => Ok tt;
     components := fun _ => 5%nat;
     all_settings_from_json := fun json_settings => Ok json_settings;
     Map_init := fun _ => Ok tt;
     generate := fun _ => engine;
     pack := fun _ prefix => Ok (prefix +:+ ".zip");
     show_preview := fun _ => Ok tt;
     map_preview := Ok tt |}.

Definition fresh : state := mk_state None false [].

(** Everything goes well: one session ahead in the queue, five stages. *)
Definition calm : World :=
  world false 1 (mk_generator [1] None) (mk_generator stages None) true.

(** The queue store cannot be read while the session waits. *)
Definition queue_read_error : exn :=
  mk_exn ExceptionOther "JSONDecodeError('Expecting value: line 1 column 1 (char 0)')".

Definition wait_fails : World :=
  world false 1 (mk_generator [1] (Some queue_read_error))
    (mk_generator stages None) true.

(** The engine raises after two of its five stages (spec 8, scenario D). *)
Definition engine_error : exn :=
  mk_exn ExceptionOther "RuntimeError('DEM tile download failed')".

Definition engine_fails : World :=
  world false 0 (mk_generator [] None)
    (mk_generator ["Texture"; "GRLE"] (Some engine_error)) true.

End Sample.

(** ** Observations on traces *)

(** Every event of every run of [m] satisfies [P]. *)
Definition emits {A : Type} (P : event -> Prop) (m : M A) : Prop :=
  forall s, Forall P (r_trace (m s)).

(** [m] can end normally with the value [a]. *)
Definition may_return {A : Type} (m : M A) (a : A) : Prop :=
  exists s, r_ctl (m s) = Next a.

(** [m] leaves the state as it found it. *)
Definition keeps_state {A : Type} (m : M A) : Prop :=
  forall s, r_state (m s) = s.

(** [m] never executes a [return]. *)
Definition no_return {A : Type} (m : M A) : Prop :=
  forall s, r_ctl (m s) <> Return.

(** The values and labels handed to [progress_bar.progress], in order. *)
Definition progress_reports (t : list event) : list (Z * string) :=
  omap (fun e => match e with Progress v text => Some (v, text) | _ => None end) t.

Definition progress_values (t : list event) : list Z :=
  map fst (progress_reports t).

(** The reports of the stage loop started with the counter at [completed]. *)
Fixpoint stage_reports (step completed : Z) (names : list string)
  : list (Z * string) :=
  match names with
  | [] => []
  | name :: rest =>
      (completed, "⏳ Generating " +:+ name +:+ "...")
        :: stage_reports step (completed + step) rest
  end.

(** All the reports of a run whose engine yields [names]. *)
Definition all_reports (step : Z) (names : list string) : list (Z * string) :=
  let m := Z.of_nat (length names) in
  stage_reports step 0 names
    ++ [((m + 1) * step, "🖼️ Creating previews...");
        ((m + 2) * step, "🗃️ Packing the map...")].

(** Calls that change the queue store. *)
Definition is_enqueue (e : event) : bool :=
  match e with AddToQueue _ => true | _ => false end.

Definition is_dequeue (e : event) : bool :=
  match e with RemoveFromQueue _ => true | _ => false end.

Definition is_dequeue_of (session_name : string) (e : event) : bool :=
  match e with
  | RemoveFromQueue n => String.eqb n session_name
  | _ => false
  end.

Definition queue_mutation (e : event) : bool := is_enqueue e || is_dequeue e.

Definition is_inline_error (e : event) : bool :=
  match e with StError _ => true | _ => false end.

Definition is_status_error (e : event) : bool :=
  match e with StatusError _ => true | _ => false end.

Definition is_logger_error (e : event) : bool :=
  match e with LoggerError _ => true | _ => false end.

Definition count (f : event -> bool) (t : list event) : nat :=
  length (filter (fun e => f e = true) t).

(** The classes of events each phase of [generate_map] can produce. *)
Definition prepare_event (e : event) : Prop :=
  match e with
  | StError _ | Makedirs _ | AllSettingsFromJson _ | MapInit _ => True
  | _ => False
  end.

Definition enqueue_event (session_name : string) (e : event) : Prop :=
  match e with
  | AddToQueue n | WaitInQueue n => n = session_name
  | StatusInfo _ => True
  | _ => False
  end.

Definition try_event (e : event) : Prop :=
  match e with
  | StProgress _ | Generate | Progress _ _ | ShowPreview | MapPreview
  | Pack _ | LoggerInfo _ | StatusSuccess _ => True
  | _ => False
  end.

Definition generate_map_event (e : event) : Prop :=
  match e with
  | GetQueueLength | Button _ _ | OpenFile _ | DownloadButton _ _
  | RemoveWithDelay _ | StWarning _ | LoggerDebug _ => False
  | _ => True
  end.



Definition progress_event (e : event) : Prop :=
  match e with Progress _ _ => True | _ => False end.

Definition not_progress (e : event) : Prop :=
  match e with Progress _ _ => False | _ => True end.

(** The stage names the engine yields for the job a form describes (none
    when the form is rejected before a [Map] is built). *)
Definition engine_stages (w : World) (self : GeneratorUI) (s : state)
  : list string :=
  match r_ctl (generate_map_prepare w self s) with
  | Next job => yields (generate w (snd job))
  | _ => []
  end.

(** What the [except] clause of [generate_map] adds to the trace, and how
    the guarded block ends, given how the body of the [try] ended. *)
Definition failure_report (c : ctl unit) : list event :=
  match c with
  | Raise e =>
      if isinstance_Exception e then
        [LoggerError ("An error occurred while generating the map: " +:+ exn_repr e);
         StatusError ("An error occurred while generating the map: "
                        +:+ exn_repr e +:+ ".")]
      else []
  | _ => []
  end.

Definition after_except (c : ctl unit) : ctl unit :=
  match c with
  | Raise e => if isinstance_Exception e then Next tt else Raise e
  | c => c
  end.


(** A valid form, the form of spec 8 scenario B, a raw configuration without
    categories, and a world on the community server with an empty queue. *)
Definition valid_form : GeneratorUI := Sample.form true "45.0, 20.0" "2048x2048".
Definition form_91 : GeneratorUI := Sample.form true "91,0" "2048x2048".
Definition form_empty_config : GeneratorUI :=
  Sample.expert_form true "45.0, 20.0" "2048x2048" "{}".
Definition community_server : World :=
  Sample.world true 0 (mk_generator [] None) (mk_generator Sample.stages None) true.

(** Forms that validation rejects. *)
Definition form_2047 : GeneratorUI := Sample.form true "45.0, 20.0" "2047x2047".

Definition form_three_coordinates : GeneratorUI :=
  Sample.form true "45.0, 20.0, 7" "2048x2048".





Definition not_inline_error (e : event) : Prop :=
  match e with StError _ => False | _ => True end.

(** A block whose inline errors are each followed by [return]. *)
Definition errors_return {A : Type} (m : M A) : Prop :=
  forall s, r_ctl (m s) <> Return -> Forall not_inline_error (r_trace (m s)).

(** The settings a form submits: the widgets' values, or the raw
    configuration of the expert mode once parsed. *)
Definition submitted_settings (w : World) (self : GeneratorUI) : outcome pyval :=
  if negb (expert_mode self) then Ok (settings self)
  else loads w (raw_config self).

(** What [generate_map] must have done with the settings before it builds
    the [Map] with the arguments [mp]. *)
Definition settings_routed (w : World) (self : GeneratorUI) (mp : MapArgs) : Prop :=
  exists submitted limited all_settings,
    submitted_settings w self = Ok submitted
    /\ limit_on_public self submitted = Ok limited
    /\ all_settings_from_json w limited = Ok all_settings
    /\ Py.getitem all_settings "BackgroundSettings" = Ok (m_background_settings mp)
    /\ Py.getitem all_settings "TextureSettings" = Ok (m_texture_settings mp).

(** The two debug lines of the download section. *)
Definition debug_true := LoggerDebug "Generated was set to True in the session state.".
Definition debug_false := LoggerDebug "Generated was set to False in the session state.".

(** The events of the two sections of [add_left_widgets]. *)
Definition generate_section_event (e : event) : Prop :=
  match e with
  | OpenFile _ | DownloadButton _ _ | RemoveWithDelay _ | LoggerDebug _ => False
  | _ => True
  end.

Definition download_section_event (e : event) : Prop :=
  match e with
  | OpenFile _ | DownloadButton _ _ | RemoveWithDelay _ | LoggerDebug _ => True
  | _ => False
  end.

(** What the "Generate" section emits once the queue length [len] is read. *)
Definition after_admission_event (w : World) (len : Z) (e : event) : Prop :=
  match e with
  | GetQueueLength => False
  | Button label disabled =>
      label = "Generate" /\ disabled = (QUEUE_LIMIT <=? len)
      /\ is_on_community_server w = false
  | _ => True
  end.

(** * The rest of the page *)

(** ** The settings a public deployment disables *)

(** [is_disabled_on_public]. *)
Definition is_disabled_on_public (self : GeneratorUI) (raw_field_name : string)
  : bool :=
  if negb (public self) then false
  else
    let disabled_fields := ["resize_factor"; "dissolve"] in
    existsb (String.eqb raw_field_name) disabled_fields.

(** The value of field [field] of category [category] in a settings
    dictionary, when both exist. *)
Definition setting (v : pyval) (category field : string) : option pyval :=
  match v with
  | PDict d =>
      match d !! category with
      | Some (PDict fields) => fields !! field
      | _ => None
      end
  | _ => None
  end.

Definition limited_form_settings : pyval :=
  PDict (<["TextureSettings" := PDict (<["dissolve" := PBool false]> Sample.texture_fields)]>
           (<["BackgroundSettings" :=
                PDict (<["resize_factor" := PInt 8]> Sample.background_fields)]>
              Sample.settings_map)).

(** [limit_on_public] raises an exception of class [c]. *)
Definition limit_raises (self : GeneratorUI) (v : pyval) (c : exn_class) : Prop :=
  exists e, limit_on_public self v = Err e /\ exn_cls e = c.

(** Lines 169-171 of [limit_on_public] as the caller's object sees them.
    [settings_json.copy()] is shallow: the copy is a new dictionary with the
    category dictionaries of the argument, so the two item assignments write
    into the categories of the argument. The content of the argument once
    the method has returned or raised; an assignment that raises writes
    nothing. In [generate_map] the argument is [self.settings] itself when
    the expert mode is off (line 486). *)
Definition limit_on_public_argument (self : GeneratorUI) (settings_json : pyval)
  : pyval :=
  if negb (public self) then settings_json
  else
    match settings_json with
    | PDict d =>
        match d !! "BackgroundSettings" with
        | Some (PDict background) =>
            let d :=
              <["BackgroundSettings" :=
                  PDict (<["resize_factor" := PInt 8]> background)]> d in
            match d !! "TextureSettings" with
            | Some (PDict texture) =>
                PDict (<["TextureSettings" :=
                           PDict (<["dissolve" := PBool false]> texture)]> d)
            | _ => PDict d
            end
        | _ => settings_json
        end
    | _ => settings_json
    end.

(** The dictionary handed to the settings parser is the one line 495
    returned. *)
Definition limited_event (w : World) (self : GeneratorUI) (e : event) : Prop :=
  match e with
  | AllSettingsFromJson v =>
      exists submitted,
        submitted_settings w self = Ok submitted
        /\ limit_on_public self submitted = Ok v
  | _ => True
  end.

(** ** Observations on whole runs and renders *)

(** How an optional schema of the [Map] relates to its text area. *)
Definition schema_from_input (w : World) (self : GeneratorUI)
    (input : option string) (schema : option pyval) : Prop :=
  match schema with
  | Some v =>
      custom_schemas self = true /\ truthy input = true /\ loads w input = Ok v
  | None => custom_schemas self = false \/ truthy input = false
  end.

(** The arguments of the [Map] as the form determines them. *)
Definition built_from_form (w : World) (self : GeneratorUI) (mp : MapArgs) : Prop :=
  obind (lat_lon self) Py.unpack2 = Ok (m_coordinates mp)
  /\ obind (map_size self) Py.unpack2 = Ok (m_size mp, m_size mp)
  /\ m_size mp mod 2 = 0
  /\ m_game mp = game_code self
  /\ m_rotation mp = rotation self
  /\ m_map_directory mp
     = Py.path_join (MAPS_DIRECTORY w) (get_sesion_name w self (m_coordinates mp))
  /\ makedirs w (m_map_directory mp) = Ok tt
  /\ m_custom_osm mp
     = (if custom_osm_enabled self then custom_osm_path self else None)
  /\ schema_from_input w self (texture_schema_input self) (m_texture_custom_schema mp)
  /\ schema_from_input w self (tree_schema_input self) (m_tree_custom_schema mp).

(** The events of [generate_map] before the [Map] is built, inline errors
    apart. *)
Definition setup_event (e : event) : Prop :=
  match e with
  | Makedirs _ | AllSettingsFromJson _ => True
  | _ => False
  end.

(** A statement of the validation part: when it executes [return], it has
    reported one inline error and nothing else. *)
Definition reports_then_returns {A : Type} (m : M A) : Prop :=
  forall s,
    match r_ctl (m s) with
    | Return => exists msg, r_trace (m s) = [StError msg]
    | _ => Forall setup_event (r_trace (m s))
    end.

(** A block that, when it executes [return], has just reported an inline
    error. *)
Definition error_is_last {A : Type} (m : M A) : Prop :=
  forall s, r_ctl (m s) = Return ->
    exists pre msg, r_trace (m s) = pre ++ [StError msg] /\ Forall setup_event pre.

(** The information lines of the status container, and the download
    buttons. *)
Definition is_status_info (e : event) : bool :=
  match e with StatusInfo _ => true | _ => false end.

Definition is_download_button (e : event) : bool :=
  match e with DownloadButton _ _ => true | _ => false end.

(** The events of a run that never consults the queue. *)
Definition off_queue_event (e : event) : Prop :=
  match e with
  | GetQueueLength | StWarning _ | AddToQueue _ | WaitInQueue _ | StatusInfo _
  | RemoveFromQueue _ => False
  | _ => True
  end.

(** The line the status container shows for a position in the queue. *)
Definition position_line (position : Z) : event :=
  StatusInfo ("Your position in the queue: " +:+ Py.str_of_int position
                +:+ ". Please wait...").

(** A form with the schema editor open and a texture schema that is not
    JSON. *)
Definition form_bad_schema : GeneratorUI :=
  {| public := true;
     game_code := FS25;
     lat_lon_input := "45.0, 20.0";
     map_size_input := "2048x2048";
     rotation := 90;
     expert_mode := false;
     raw_config := None;
     settings := Sample.form_settings;
     custom_schemas := true;
     texture_schema_input := Some "[{";
     tree_schema_input := Some "{}";
     custom_osm_enabled := false;
     custom_osm_path := None |}.

(** The script is stopped by the toolkit while the engine runs: the
    exception is outside [Exception]. *)
Definition script_stopped : exn := mk_exn BaseExceptionOnly "StopException()".

(** The engine is stopped in its first component. *)
Definition engine_stopped : World :=
  Sample.world false 0 (mk_generator [3; 2; 1] None)
    (mk_generator ["Texture"] (Some script_stopped)) true.

(** The queue store cannot be written when the slot is released. *)
Definition release_error : exn :=
  mk_exn ExceptionOther "PermissionError(13, 'Permission denied')".

(** The queue is empty, the generation succeeds and the release of the
    slot fails. *)
Definition release_fails : World :=
  {| is_on_community_server := false;
     MAPS_DIRECTORY := "maps";
     ARCHIVES_DIRECTORY := "archives";
     OVERLOADED := "The server is overloaded.";
     now_strftime := "2025-01-01_12-00-00";
     format_5f := Sample.format_5f_sample;
     elapsed_rounded := "12.345";
     makedirs := fun _ => Ok tt;
     json_loads := Sample.loads_sample;
     open_rb := fun _ => Ok tt;
     launch_clicked := true;
     get_queue_length := Ok 0;
     add_to_queue := fun _ => Ok tt;
     wait_in_queue := fun _ => mk_generator [] None;
     remove_from_queue := fun _ => Err release_error;
     components := fun _ => 5%nat;
     all_settings_from_json := fun json_settings => Ok json_settings;
     Map_init := fun _ => Ok tt;
     generate := fun _ => mk_generator Sample.stages None;
     pack := fun _ prefix => Ok (prefix +:+ ".zip");
     show_preview := fun _ => Ok tt;
     map_preview := Ok tt |}.

(** A render in which the user does not press the button. *)
Definition idle : World :=
  Sample.world false 0 (mk_generator [] None) (mk_generator Sample.stages None) false.

(** Lines 45 and 53-54 of [__init__]: the state a render starts from.
    [self.download_path] is [None]; the session flag is the one the previous
    render of the session left ([None] in a new session, where it is set to
    [False]); the timer keeps its deletions. *)
Definition initial_state (session_generated : option bool)
    (deletions : list string) : state :=
  mk_state None (default false session_generated) deletions.

(** The events of the button section before the button is pressed. *)
Definition admission_event (e : event) : Prop :=
  match e with
  | GetQueueLength | StWarning _ | Button _ _ => True
  | _ => False
  end.

(** ** Sizes, labels and names *)

(** Lines 263-265 of [add_left_widgets]: the sizes the select box offers. *)
Definition size_options (self : GeneratorUI) : list string :=
  let size_options :=
    ["2048x2048"; "4096x4096"; "8192x8192"; "16384x16384"; "Custom"] in
  if public self then firstn 3 size_options else size_options.

(** Lines 269-291: the value of [self.map_size_input] after the select box
    returned [choice] and, for "Custom", the number input returned
    [custom_map_size_input] (an [int], as its bounds are). Formatting an
    integer of more than [sys.int_max_str_digits] digits raises; the
    properties below stay within that range. *)
Definition selected_map_size (choice : string) (custom_map_size_input : Z)
  : string :=
  if String.eqb choice "Custom" then
    Py.str_of_int custom_map_size_input +:+ "x"
      +:+ Py.str_of_int custom_map_size_input
  else choice.

(** A string without the character [c]. *)
Definition without (c : ascii) (s : string) : Prop :=
  ~ In c (list_ascii_of_string s).

(** The three inline errors about the size. *)
Definition invalid_size_message : string := "Invalid map size!".
Definition odd_size_message : string :=
  "Map size must be a power of 2. For example: 2, 4, ... 2048, 4096, ...".
Definition not_square_message : string :=
  "Map size must be square (height == width).".

Module PyStr.

(** [str.upper] and [str.lower] on ASCII letters; the field names of the
    settings models are identifiers. *)
Definition upper (c : ascii) : ascii :=
  let n := N_of_ascii c in
  if ((97 <=? n) && (n <=? 122))%N then ascii_of_N (n - 32) else c.

Fixpoint map_str (f : ascii -> ascii) (s : string) : string :=
  match s with
  | EmptyString => EmptyString
  | String c rest => String (f c) (map_str f rest)
  end.

(** [str.capitalize]: the first character in upper case, the rest in lower
    case. *)
Definition capitalize (s : string) : string :=
  match s with
  | EmptyString => EmptyString
  | String c rest => String (upper c) (map_str Py.lower rest)
  end.

(** [s.startswith(prefix)] and [s.endswith(suffix)]. *)
Fixpoint startswith (prefix s : string) : bool :=
  match prefix, s with
  | EmptyString, _ => true
  | String a prefix', String b s' => Ascii.eqb a b && startswith prefix' s'
  | String _ _, EmptyString => false
  end.

Definition reverse (s : string) : string :=
  string_of_list_ascii (rev (list_ascii_of_string s)).

Definition endswith (suffix s : string) : bool :=
  startswith (reverse suffix) (reverse s).

(** [s.replace(old, new)] for strings: the occurrences of [old] are
    replaced from left to right without overlap; [skip] counts the
    characters of an occurrence still to pass. An empty [old] matches
    before every character and at the end. *)
Fixpoint replace_from (old new : string) (skip : nat) (s : string) : string :=
  match s with
  | EmptyString => EmptyString
  | String c rest =>
      match skip with
      | S k => replace_from old new k rest
      | O =>
          if startswith old s then
            new +:+ replace_from old new (String.length old - 1) rest
          else String c (replace_from old new 0 rest)
      end
  end.

Fixpoint intersperse (new : string) (s : string) : string :=
  match s with
  | EmptyString => new
  | String c rest => new +:+ String c (intersperse new rest)
  end.

Definition replace (old new s : string) : string :=
  match old with
  | EmptyString => intersperse new s
  | String _ _ => replace_from old new 0 s
  end.

End PyStr.

(** [snake_to_human]. *)
Definition snake_to_human (snake_str : string) : string :=
  Py.join " " (map PyStr.capitalize (Py.split "_" snake_str)).

(** The same label, one character at a time: [start] says that the next
    character begins a word. *)
Fixpoint human (start : bool) (s : string) : string :=
  match s with
  | EmptyString => EmptyString
  | String c rest =>
      if Ascii.eqb c "_" then String " " (human true rest)
      else String (if start then PyStr.upper c else Py.lower c) (human false rest)
  end.

(** A string of ASCII characters, where [str.upper] and [str.lower] change
    letters only and keep the length. *)
Definition ascii_only (s : string) : Prop :=
  Forall (fun c => (N_of_ascii c < 128)%N) (list_ascii_of_string s).

(** ** Version notice, settings widgets and previews

    [_show_version], [_create_widget], [get_settings], [map_preview],
    [show_preview] and the form of [add_left_widgets] do not touch the
    session state: a statement is the list of its calls and the way it
    ends.  The calls whose result the code uses are the fields of a
    [Toolkit]; each of them may raise. *)

Module Page.

(** The calls these functions make, with the arguments that matter. *)
Inductive call : Type :=
  | GetVersions
  | Text (body : string)                     (* st.write *)
  | Notice (body : string)                   (* st.warning *)
  | Markdown (body : string)
  | LogWarning (msg : string)
  | LogError (msg : string) (arg : exn)      (* logger.error(msg, e) *)
  | LogDebug (msg : string)
  | AllSettings
  | Expander (label : string)
  | NumberInput (label : string) (value : Z) (key : string) (disabled : bool)
  | Checkbox (label : string) (value : bool) (key : string) (disabled : bool)
  | Previews
  | Columns (n : nat)
  | ImageOpen (path : string)
  | ColumnImage (path : string)
  | StlFromFile (path : string)
  | RotatedPreview (lat lon : pyfloat) (map_size : Z) (angle : Z)
  | ReadFile (path : string)
  | Html (body : string) (height : Z)
  | Title (body : string)
  | Info (body : string)
  | Success (body : string)
  | Selectbox (label : string) (options : list string)
  | TextInput (label : string) (value : string)
  | Slider (label : string) (min_value max_value value : Z)
  | FileUploader (label : string)
  | TextArea (label : string) (value : string)
  | NewLogger (level : string)
  | WriteFile (path : string)
  | LoadJson (path : string)
  | Empty.

Definition P (A : Type) : Type := list call * ctl A.

Definition ret {A : Type} (a : A) : P A := ([], Next a).

Definition bind {A B : Type} (m : P A) (f : A -> P B) : P B :=
  match snd m with
  | Next a => let r := f a in (fst m ++ fst r, snd r)
  | Return => (fst m, Return)
  | Raise e => (fst m, Raise e)
  end.

Declare Scope page_scope.
Notation "x <- m ;; k" := (bind m (fun x => k))
  (at level 100, m at next level, right associativity) : page_scope.
Notation "m ;; k" := (bind m (fun _ => k))
  (at level 100, right associativity) : page_scope.
Local Open Scope page_scope.

Definition return_ {A : Type} : P A := ([], Return).
Definition raise {A : Type} (e : exn) : P A := ([], Raise e).

Definition lift {A : Type} (o : outcome A) : P A :=
  match o with Ok a => ret a | Err e => raise e end.

Definition emit (c : call) : P unit := ([c], Next tt).

Definition ask {A : Type} (c : call) (o : outcome A) : P A := emit c ;; lift o.

Definition try_except {A : Type} (body : P A) (catches : exn -> bool)
    (handler : exn -> P A) : P A :=
  match snd body with
  | Raise e =>
      if catches e then
        let r := handler e in (fst body ++ fst r, snd r)
      else body
  | _ => body
  end.

Definition def_ (body : P unit) : P unit :=
  match snd body with
  | Return => (fst body, Next tt)
  | _ => body
  end.

Definition when (c : bool) (block : P unit) : P unit :=
  if c then block else ret tt.

Fixpoint for_items {A S : Type} (items : list A) (acc : S)
    (body : A -> S -> P S) : P S :=
  match items with
  | [] => ret acc
  | x :: xs => acc' <- body x acc ;; for_items xs acc' body
  end.

(** What these functions read from outside the file. *)
Record Toolkit : Type := mk_Toolkit {
  (* config.get_versions(logger): None, or a tuple of strings or None *)
  get_versions : outcome (option (list (option string)));
  (* mfs.SettingsModel.all_settings(): per model, the class name and the
     items of its __dict__ *)
  all_settings : outcome (list (string * list (string * pyval)));
  (* getattr(Settings, NAME) *)
  settings_text : string -> outcome string;
  (* Messages.SETTING_DISABLED_ON_PUBLIC.format(setting=field_name) *)
  disabled_message : string -> string;
  (* the values the widgets return: key, default, disabled *)
  number_input : string -> Z -> bool -> outcome Z;
  checkbox : string -> bool -> bool -> outcome bool;
  (* mp.previews(), os.path.isfile, st.columns(n) (which returns n columns
     or raises), Image.open, column.image, stl_from_file *)
  previews : outcome (list string);
  isfile : string -> bool;
  st_columns : nat -> outcome unit;
  image_open : string -> outcome unit;
  column_image : string -> outcome unit;
  stl_from_file : string -> outcome unit;
  (* osmp.get_rotated_preview(lat, lon, map_size, angle), open(path).read() *)
  get_rotated_preview : pyfloat -> pyfloat -> Z -> Z -> outcome string;
  read_text : string -> outcome string;
  (* templates.Messages.<NAME>, config.INPUT_DIRECTORY and the schema paths *)
  messages : string -> string;
  INPUT_DIRECTORY : string;
  FS25_TEXTURE_SCHEMA_PATH : string;
  FS25_TREE_SCHEMA_PATH : string;
  (* what the user entered in the form *)
  chosen_game : game_code_t;
  typed_lat_lon : string;
  chosen_size : string;
  typed_custom_size : Z;
  chosen_rotation : Z;
  debug_checked : bool;
  osm_checked : bool;
  uploaded_file : option string;             (* the name of the upload *)
  expert_checked : bool;
  typed_raw_config : string -> string;       (* the text area, given its default *)
  schemas_checked : bool;
  typed_texture_schema : string -> string;
  typed_tree_schema : string -> string;
  (* datetime.now().strftime(...), writing the upload, json.dumps(_, indent=2)
     and json.load of a schema file *)
  upload_timestamp : string;
  write_upload : string -> outcome unit;
  json_dumps : pyval -> string;
  load_json : string -> outcome pyval
}.

Definition nl : string := String "010" "".

(** [str(v)] for a version that is a string or [None]. *)
Definition str_of_version (v : option string) : string :=
  match v with Some s => s | None => "None" end.

Definition version_eqb (a b : option string) : bool :=
  match a, b with
  | Some x, Some y => String.eqb x y
  | None, None => true
  | _, _ => false
  end.

(** The text of the upgrade notice (lines 128-137). *)
Definition upgrade_notice (current_version latest_version : option string)
  : string :=
  "🆕 New version is available!   " +:+ nl
  +:+ "Your current version: `" +:+ str_of_version current_version +:+ "`, "
  +:+ "latest version: `" +:+ str_of_version latest_version +:+ "`.   " +:+ nl
  +:+ "Use the following commands to upgrade:   " +:+ nl
  +:+ "```bash   " +:+ nl
  +:+ "docker stop maps4fs   " +:+ nl
  +:+ "docker rm maps4fs   " +:+ nl
  +:+ "docker run -d -p 8501:8501 --name maps4fs "
  +:+ "iwatkot/maps4fs:" +:+ str_of_version latest_version +:+ "   " +:+ nl
  +:+ "```".

(** The truth value of [versions]: [None] and the empty tuple are false. *)
Definition versions_truthy (versions : option (list (option string))) : bool :=
  match versions with
  | Some (_ :: _) => true
  | _ => false
  end.

(** [_show_version]. *)
Definition _show_version (tk : Toolkit) (self : GeneratorUI) : P unit :=
  def_
    (versions <- ask GetVersions (get_versions tk) ;;
     try_except
       (when (versions_truthy versions)
          (pair <- lift (Py.unpack2 (default [] versions)) ;;
           let latest_version := fst pair in
           let current_version := snd pair in
           when (negb (truthy current_version))
             (emit (LogWarning "Can't get the current version of the package.") ;;
              return_) ;;
           when (public self)
             (emit (Text ("`" +:+ str_of_version current_version +:+ "`")) ;;
              return_) ;;
           when (negb (version_eqb current_version latest_version))
             (emit (Notice (upgrade_notice current_version latest_version)))))
       isinstance_Exception
       (fun e =>
          emit (LogError "An error occurred while checking the package version: %s"
                  e))).

(** [repr(type(value))]. *)
Definition type_repr (value : pyval) : string :=
  match value with
  | PNone => "<class 'NoneType'>"
  | PBool _ => "<class 'bool'>"
  | PInt _ => "<class 'int'>"
  | PFloat _ => "<class 'float'>"
  | PStr _ => "<class 'str'>"
  | PList _ => "<class 'list'>"
  | PDict _ => "<class 'dict'>"
  end.

Definition double_quote : string := String "034" "".

Definition unsupported_type (value : pyval) : exn :=
  mk_exn ValueError
    ("ValueError(" +:+ double_quote +:+ "Unsupported type of the value: "
       +:+ type_repr value +:+ double_quote +:+ ")").

(** [_create_widget]. *)
Definition _create_widget (tk : Toolkit) (field_name raw_field_name : string)
    (value : pyval) (disabled : bool) : P pyval :=
  when disabled (emit (Notice (disabled_message tk field_name))) ;;
  match value with
  | PInt z =>
      v <- ask (NumberInput field_name z raw_field_name disabled)
             (number_input tk raw_field_name z disabled) ;;
      ret (PInt v)
  | PBool b =>
      v <- ask (Checkbox field_name b raw_field_name disabled)
             (checkbox tk raw_field_name b disabled) ;;
      ret (PBool v)
  | _ => raise (unsupported_type value)
  end.

(** One field of a settings model: lines 184-189 of [get_settings]. *)
Definition field_widget (tk : Toolkit) (self : GeneratorUI)
    (field : string * pyval) (category : gmap string pyval)
  : P (gmap string pyval) :=
  let raw_field_name := fst field in
  let field_value := snd field in
  let field_name := snake_to_human raw_field_name in
  let disabled := is_disabled_on_public self raw_field_name in
  text <- lift (settings_text tk (PyStr.map_str PyStr.upper raw_field_name)) ;;
  emit (Text text) ;;
  widget <- _create_widget tk field_name raw_field_name field_value disabled ;;
  ret (<[raw_field_name := widget]> category).

(** One settings model: lines 178-191. *)
Definition category_widgets (tk : Toolkit) (self : GeneratorUI)
    (model : string * list (string * pyval)) (settings : gmap string pyval)
  : P (gmap string pyval) :=
  let raw_category_name := fst model in
  let category_name := PyStr.replace "Settings" " Settings" raw_category_name in
  emit (Expander category_name) ;;
  category <- for_items (snd model) ∅ (field_widget tk self) ;;
  ret (<[raw_category_name := PDict category]> settings).

(** [get_settings]: the value assigned to [self.settings]. *)
Definition get_settings (tk : Toolkit) (self : GeneratorUI) : P pyval :=
  map_settings <- ask AllSettings (all_settings tk) ;;
  settings <- for_items map_settings ∅ (category_widgets tk self) ;;
  ret (PDict settings).

(** [map_preview]. *)
Definition map_preview (tk : Toolkit) (self : GeneratorUI) : P unit :=
  def_
    (coordinates <-
       try_except (lift (obind (lat_lon self) Py.unpack2))
         isinstance_ValueError (fun _ => return_) ;;
     size <-
       try_except (lift (obind (map_size self) Py.unpack2))
         isinstance_ValueError (fun _ => return_) ;;
     let lat := fst coordinates in
     let lon := snd coordinates in
     let map_size := fst size in
     emit (LogDebug "Generating map preview for lat=%s, lon=%s, map_size=%s") ;;
     html_file <-
       ask (RotatedPreview lat lon map_size (- rotation self))
         (get_rotated_preview tk lat lon map_size (- rotation self)) ;;
     body <- ask (ReadFile html_file) (read_text tk html_file) ;;
     emit (Html body 600)).

(** One image of [show_preview]: lines 608-614. *)
Definition show_image (tk : Toolkit) (image_preview_path : string) (_ : unit)
  : P unit :=
  if negb (isfile tk image_preview_path) then ret tt
  else
    try_except
      (ask (ImageOpen image_preview_path) (image_open tk image_preview_path) ;;
       ask (ColumnImage image_preview_path) (column_image tk image_preview_path))
      isinstance_Exception
      (fun _ => ret tt).

(** One 3D model of [show_preview]: lines 621-634. *)
Definition show_stl (tk : Toolkit) (stl_preview_path : string) (_ : unit)
  : P unit :=
  if negb (isfile tk stl_preview_path) then ret tt
  else
    try_except
      (ask (StlFromFile stl_preview_path) (stl_from_file tk stl_preview_path))
      isinstance_Exception
      (fun _ => ret tt).

(** [show_preview]. *)
Definition show_preview (tk : Toolkit) : P unit :=
  def_
    (full_preview_paths <- ask Previews (previews tk) ;;
     when (match full_preview_paths with [] => true | _ => false end) return_ ;;
     emit (Markdown "---") ;;
     emit (Text "Previews of the generated map:") ;;
     let image_preview_paths :=
       List.filter (PyStr.endswith ".png") full_preview_paths in
     ask (Columns (length image_preview_paths))
       (st_columns tk (length image_preview_paths)) ;;
     for_items image_preview_paths tt (show_image tk) ;;
     let stl_preview_paths :=
       List.filter (PyStr.endswith ".stl") full_preview_paths in
     for_items stl_preview_paths tt (show_stl tk)).

(** Reading a local variable that no executed statement has assigned. *)
Definition unbound_local (name : string) : exn :=
  mk_exn ExceptionOther
    ("UnboundLocalError(" +:+ double_quote +:+ "cannot access local variable '"
       +:+ name +:+ "' where it is not associated with a value" +:+ double_quote
       +:+ ")").

Definition read_local {A : Type} (name : string) (value : option A) : P A :=
  match value with
  | Some a => ret a
  | None => raise (unbound_local name)
  end.

(** [f"{DEFAULT_LAT}, {DEFAULT_LON}"]. *)
Definition default_lat_lon : string := "45.28571409289627, 20.237433441210115".

(** An optional schema editor: lines 364-375 and 377-388. *)
Definition schema_editor (tk : Toolkit) (expander label path : string)
    (typed : string -> string) : P string :=
  emit (Expander expander) ;;
  emit (Text (messages tk "TEXTURE_SCHEMA_INFO")) ;;
  schema <- ask (LoadJson path) (load_json tk path) ;;
  emit (TextArea label (json_dumps tk schema)) ;;
  ret (typed (json_dumps tk schema)).

(** Lines 231-394 of [add_left_widgets]: the form. The result is the
    object with the fields the form assigns; [self] on entry carries the
    deployment flag that [__init__] has set. *)
Definition add_left_widgets_form (tk : Toolkit) (self : GeneratorUI)
  : P GeneratorUI :=
  emit (LogDebug "Adding widgets to the left column...") ;;
  emit (Title (messages tk "TITLE")) ;;
  _show_version tk self ;;
  emit (Text (messages tk "MAIN_PAGE_DESCRIPTION")) ;;
  emit (Markdown "---") ;;
  emit (Text "Select the game for which you want to generate the map:") ;;
  emit (Selectbox "Game" ["FS25"; "FS22"]) ;;
  let game_code := chosen_game tk in
  emit (Text "Enter latitude and longitude of the center point of the map:") ;;
  emit (TextInput "Latitude and Longitude" default_lat_lon) ;;
  let lat_lon_input := typed_lat_lon tk in
  emit (Text "Select size of the map:") ;;
  emit (Selectbox "Map Size (meters)" (size_options self)) ;;
  let map_size_input := chosen_size tk in
  map_size_input <-
    (if String.eqb map_size_input "Custom" then
       emit (LogDebug "Custom map size selected.") ;;
       emit (Info "ℹ️ Map size can be only a power of 2. For example: 2, 4, ... 2048, 4096, ...") ;;
       emit (Notice "⚠️ Large map sizes can crash on generation or import in the game.") ;;
       emit (Text "Enter map size (meters):") ;;
       emit (NumberInput "Height (meters)" 2048 "map_height" false) ;;
       ret (selected_map_size map_size_input (typed_custom_size tk))
     else ret map_size_input) ;;
  emit (Text "Enter the rotation of the map:") ;;
  emit (Slider "Rotation" (-180) 180 0) ;;
  let rotation := chosen_rotation tk in
  settings <- get_settings tk self ;;
  emit (Title "Expert Settings") ;;
  emit (Text (messages tk "EXPERT_SETTINGS_INFO")) ;;
  enable_debug <-
    (if negb (public self) then
       emit (Checkbox "Enable debug logs" false "debug_logs" false) ;;
       ret (Some (debug_checked tk))
     else ret None) ;;
  enable_debug <- read_local "enable_debug" enable_debug ;;
  emit (NewLogger (if enable_debug then "DEBUG" else "INFO")) ;;
  emit (Checkbox "Upload custom OSM file" false "custom_osm_enabled" false) ;;
  let custom_osm_enabled := osm_checked tk in
  custom_osm_path <-
    (if custom_osm_enabled then
       emit (Info (messages tk "CUSTOM_OSM_INFO")) ;;
       emit (FileUploader "Choose a file") ;;
       match uploaded_file tk with
       | Some name =>
           let path :=
             Py.path_join (INPUT_DIRECTORY tk)
               ("custom_osm_" +:+ upload_timestamp tk +:+ ".osm") in
           ask (WriteFile path) (write_upload tk path) ;;
           emit (Success ("Custom OSM file uploaded: " +:+ name)) ;;
           ret (Some path)
       | None => ret None
       end
     else ret None) ;;
  emit (Checkbox "Show raw configuration" false "expert_mode" false) ;;
  let expert_mode := expert_checked tk in
  raw_config <-
    (if expert_mode then
       emit (Info (messages tk "EXPERT_MODE_INFO")) ;;
       emit (TextArea "Raw configuration" (json_dumps tk settings)) ;;
       ret (Some (typed_raw_config tk (json_dumps tk settings)))
     else ret None) ;;
  schemas <-
    (match game_code with
     | FS25 =>
         emit (Checkbox "Show schemas" false "custom_schemas" false) ;;
         if schemas_checked tk then
           emit (LogDebug "Custom schemas are enabled.") ;;
           texture <-
             schema_editor tk "Texture custom schema" "Texture Schema"
               (FS25_TEXTURE_SCHEMA_PATH tk) (typed_texture_schema tk) ;;
           tree <-
             schema_editor tk "Tree custom schema" "Tree Schema"
               (FS25_TREE_SCHEMA_PATH tk) (typed_tree_schema tk) ;;
           ret (true, Some texture, Some tree)
         else ret (false, None, None)
     | FS22 => ret (false, None, None)
     end) ;;
  emit Empty ;;
  emit Empty ;;
  ret {| public := public self;
         game_code := game_code;
         lat_lon_input := lat_lon_input;
         map_size_input := map_size_input;
         rotation := rotation;
         expert_mode := expert_mode;
         raw_config := raw_config;
         settings := settings;
         custom_schemas := fst (fst schemas);
         texture_schema_input := snd (fst schemas);
         tree_schema_input := snd schemas;
         custom_osm_enabled := custom_osm_enabled;
         custom_osm_path := custom_osm_path |}.

End Page.

(** The values [_create_widget] accepts, and the value a widget returns for
    a default of the same type. *)
Definition supported (value : pyval) : Prop :=
  match value with PInt _ | PBool _ => True | _ => False end.

(** A default and a widget value of the same type. *)
Definition same_type (value widget : pyval) : Prop :=
  match value, widget with
  | PInt _, PInt _ | PBool _, PBool _ => True
  | _, _ => False
  end.

(** The dictionary collected for one settings model: one field per item of
    the model, each of the type of its default. *)
Definition category_of (model : string * list (string * pyval)) (x : pyval) : Prop :=
  exists fields : gmap string pyval,
    x = PDict fields
    /\ (forall f, is_Some (fields !! f) <-> In f (map fst (snd model)))
    /\ (forall f y, fields !! f = Some y ->
          exists field, In field (snd model) /\ fst field = f
                        /\ same_type (snd field) y).

(** A settings dictionary that mirrors the models it was collected from:
    one category per model class, as [category_of] describes it. *)
Definition mirrors (models : list (string * list (string * pyval)))
    (v : pyval) : Prop :=
  exists d : gmap string pyval,
    v = PDict d
    /\ (forall k, is_Some (d !! k) <-> In k (map fst models))
    /\ (forall k x, d !! k = Some x ->
          exists model, In model models /\ fst model = k /\ category_of model x).

(** Every call to the toolkit returns. *)
Definition widgets_return (tk : Page.Toolkit) : Prop :=
  (forall name, exists text, Page.settings_text tk name = Ok text)
  /\ (forall key value disabled,
        exists v, Page.number_input tk key value disabled = Ok v)
  /\ (forall key value disabled,
        exists v, Page.checkbox tk key value disabled = Ok v).

(** Every call of a trace satisfies [Q]. *)
Definition calls {A : Type} (Q : Page.call -> Prop) (m : Page.P A) : Prop :=
  Forall Q (fst m).

(** The widget calls of [get_settings] follow [is_disabled_on_public]. *)
Definition widget_follows_deployment (self : GeneratorUI) (c : Page.call) : Prop :=
  match c with
  | Page.NumberInput label _ key disabled
  | Page.Checkbox label _ key disabled =>
      label = snake_to_human key /\ disabled = is_disabled_on_public self key
  | Page.Notice _ => public self = true
  | _ => True
  end.

(** The calls of [show_preview] that open an image or a 3D model. *)
Definition is_image_open (c : Page.call) : bool :=
  match c with Page.ImageOpen _ => true | _ => false end.

Definition is_stl (c : Page.call) : bool :=
  match c with Page.StlFromFile _ => true | _ => false end.

(** The renderers fail only with exceptions that [except Exception]
    catches. *)
Definition renderers_fail_softly (tk : Page.Toolkit) : Prop :=
  forall p e,
    Page.image_open tk p = Err e \/ Page.column_image tk p = Err e
    \/ Page.stl_from_file tk p = Err e ->
    isinstance_Exception e = true.

(** What [show_preview] may do with the paths [full] that the engine
    lists. *)
Definition preview_call (tk : Page.Toolkit) (full : list string) (c : Page.call)
  : Prop :=
  match c with
  | Page.Previews | Page.Markdown _ | Page.Text _ => True
  | Page.Columns n => n = length (List.filter (PyStr.endswith ".png") full)
  | Page.ImageOpen p =>
      In p full /\ PyStr.endswith ".png" p = true /\ Page.isfile tk p = true
  | Page.ColumnImage p =>
      In p full /\ PyStr.endswith ".png" p = true /\ Page.isfile tk p = true
      /\ Page.image_open tk p = Ok tt
  | Page.StlFromFile p =>
      In p full /\ PyStr.endswith ".stl" p = true /\ Page.isfile tk p = true
  | _ => False
  end.

(** The calls [show_preview] makes for one image and for one 3D model when
    the renderers fail softly. *)
Definition image_calls (tk : Page.Toolkit) (p : string) : list Page.call :=
  if Page.isfile tk p then
    Page.ImageOpen p
      :: match Page.image_open tk p with
         | Ok _ => [Page.ColumnImage p]
         | Err _ => []
         end
  else [].

Definition stl_calls (tk : Page.Toolkit) (p : string) : list Page.call :=
  if Page.isfile tk p then [Page.StlFromFile p] else [].

(** A toolkit in which every widget returns its default, the models are
    those of [Sample.settings_map], and one of the four preview files is
    missing and one cannot be decoded. *)
Definition sample_models : list (string * list (string * pyval)) :=
  [ ("DEMSettings", [("multiplier", PInt 1); ("blur_radius", PInt 35)]);
    ("BackgroundSettings",
     [("generate_background", PBool true); ("resize_factor", PInt 2)]);
    ("GRLESettings", [("farmland_margin", PInt 8)]);
    ("I3DSettings", [("forest_density", PInt 10)]);
    ("TextureSettings", [("dissolve", PBool true); ("fields_padding", PInt 0)]);
    ("SplineSettings", [("spline_density", PInt 2)]) ].

(** The image library cannot read a file. *)
Definition decode_error : exn :=
  mk_exn ExceptionOther "UnidentifiedImageError('cannot identify image file')".

(** A toolkit where every call returns, one image apart; the user opens
    every option of the form. *)
Definition sample_toolkit (versions : option (list (option string)))
    (models : list (string * list (string * pyval))) : Page.Toolkit :=
  {| Page.get_versions := Ok versions;
     Page.all_settings := Ok models;
     Page.settings_text := fun name => Ok ("Help for " +:+ name);
     Page.disabled_message := fun field_name =>
       "Setting " +:+ field_name +:+ " is disabled on the public server.";
     Page.number_input := fun _ value _ => Ok value;
     Page.checkbox := fun _ value _ => Ok value;
     Page.previews :=
       Ok ["previews/dem.png"; "previews/missing.png"; "previews/broken.png";
           "previews/mesh.stl"; "previews/notes.txt"];
     Page.isfile := fun path => negb (String.eqb path "previews/missing.png");
     Page.st_columns := fun _ => Ok tt;
     Page.image_open := fun path =>
       if String.eqb path "previews/broken.png" then Err decode_error else Ok tt;
     Page.column_image := fun _ => Ok tt;
     Page.stl_from_file := fun _ => Ok tt;
     Page.get_rotated_preview := fun _ _ _ _ => Ok "preview.html";
     Page.read_text := fun _ => Ok "<html></html>";
     Page.messages := fun name => "Messages." +:+ name;
     Page.INPUT_DIRECTORY := "input";
     Page.FS25_TEXTURE_SCHEMA_PATH := "data/fs25-texture-schema.json";
     Page.FS25_TREE_SCHEMA_PATH := "data/fs25-tree-schema.json";
     Page.chosen_game := FS25;
     Page.typed_lat_lon := "45.0, 20.0";
     Page.chosen_size := "Custom";
     Page.typed_custom_size := 1024;
     Page.chosen_rotation := 90;
     Page.debug_checked := false;
     Page.osm_checked := true;
     Page.uploaded_file := Some "village.osm";
     Page.expert_checked := true;
     Page.typed_raw_config := fun text => text;
     Page.schemas_checked := true;
     Page.typed_texture_schema := fun text => text;
     Page.typed_tree_schema := fun text => text;
     Page.upload_timestamp := "2025-01-01_12-00-00";
     Page.write_upload := fun _ => Ok tt;
     Page.json_dumps := fun _ => "{}";
     Page.load_json := fun _ => Ok (PList []) |}.

Definition page : Page.Toolkit :=
  sample_toolkit (Some [Some "2.0.0"; Some "1.9.3"]) sample_models.

(** A model with a field that is neither an [int] nor a [bool]. *)
Definition models_with_float : list (string * list (string * pyval)) :=
  [ ("DEMSettings",
     [("multiplier", PInt 1); ("water_depth", PFloat (FFinite false 5 (-1)));
      ("blur_radius", PInt 35)]) ].

(** ** The object the form fills in *)

(** [add_left_widgets], whole: the form of lines 231-394 and then, on the
    object the form has filled in, the two sections of lines 396-423. An
    exception in the form ends the method before the sections. The calls of
    the form and the run of the sections are kept apart, as their models
    are. *)
Definition add_left_widgets_whole (tk : Page.Toolkit) (w : World)
    (self : GeneratorUI) (s : state) : list Page.call * result unit :=
  let form := Page.add_left_widgets_form tk self in
  match snd form with
  | Next self' => (fst form, add_left_widgets w self' s)
  | Return => (fst form, mk_result [] s (Next tt))
  | Raise e => (fst form, mk_result [] s (Raise e))
  end.

(** The calls of the form up to the read of [enable_debug]. *)
Definition before_debug_flag (c : Page.call) : Prop :=
  match c with
  | Page.NewLogger _ | Page.FileUploader _ | Page.TextArea _ _ | Page.WriteFile _
  | Page.LoadJson _ | Page.Success _ | Page.Empty => False
  | _ => True
  end.

(** What the form guarantees about the object it fills in. *)
Definition consistent_form (tk : Page.Toolkit) (self' : GeneratorUI) : Prop :=
  game_code self' = Page.chosen_game tk
  /\ lat_lon_input self' = Page.typed_lat_lon tk
  /\ map_size_input self'
     = selected_map_size (Page.chosen_size tk) (Page.typed_custom_size tk)
  /\ rotation self' = Page.chosen_rotation tk
  /\ (expert_mode self' = true <-> is_Some (raw_config self'))
  /\ (custom_schemas self' = true <-> is_Some (texture_schema_input self'))
  /\ (custom_schemas self' = true <-> is_Some (tree_schema_input self'))
  /\ (custom_schemas self' = true -> game_code self' = FS25)
  /\ (is_Some (custom_osm_path self') -> custom_osm_enabled self' = true)
  /\ exists models,
       Page.all_settings tk = Ok models /\ mirrors models (settings self').

(** What the form of the sample toolkit assigns on a private deployment. *)
Definition filled_form : GeneratorUI :=
  {| public := false;
     game_code := FS25;
     lat_lon_input := "45.0, 20.0";
     map_size_input := "1024x1024";
     rotation := 90;
     expert_mode := true;
     raw_config := Some "{}";
     settings := Sample.form_settings;
     custom_schemas := true;
     texture_schema_input := Some "{}";
     tree_schema_input := Some "{}";
     custom_osm_enabled := true;
     custom_osm_path := Some "input/custom_osm_2025-01-01_12-00-00.osm" |}.


(** * Properties *)

(** ** The built-ins on the strings the form produces *)

Example split_default :
  Py.split "," "45.28571409289627, 20.237433441210115"
  = ["45.28571409289627"; " 20.237433441210115"].
Proof. reflexivity. Qed.

Example split_no_separator : Py.split "x" "Custom" = ["Custom"].
Proof. reflexivity. Qed.

Example split_empty_fields : Py.split "," ",a," = [""; "a"; ""].
Proof. reflexivity. Qed.

Example int_2048 : Py.int " 2_048 " = Ok 2048.
Proof. reflexivity. Qed.

Example int_negative : Py.int "-2048" = Ok (-2048).
Proof. reflexivity. Qed.

Example int_rejects_float : exists e, Py.int "20.5" = Err e.
Proof. eexists. reflexivity. Qed.

Example float_default_lon :
  Py.float " 20.237433441210115" = Ok (FFinite false 20237433441210115 (-15)).
Proof. reflexivity. Qed.

Example float_forms :
  Py.float "-1_0.5e+3" = Ok (FFinite true 105 2)
  /\ Py.float ".5" = Ok (FFinite false 5 (-1))
  /\ Py.float "5." = Ok (FFinite false 5 0)
  /\ Py.float "-Infinity" = Ok (FInf true)
  /\ Py.float "NaN" = Ok FNan.
Proof. repeat split; reflexivity. Qed.

Example float_rejects :
  (exists e, Py.float "" = Err e) /\ (exists e, Py.float "." = Err e)
  /\ (exists e, Py.float "1e" = Err e) /\ (exists e, Py.float "1__0" = Err e)
  /\ (exists e, Py.float "4 5" = Err e).
Proof. repeat split; eexists; reflexivity. Qed.

(** The conversions strip a tab or a line feed, not the separators 28 to
    31. *)
Example stripped_white_space :
  Py.int (String "009" "2048" +:+ String "010" "") = Ok 2048
  /\ (exists e, Py.int (String "031" "2048") = Err e)
  /\ (exists e, Py.float (String "028" "45.0") = Err e).
Proof. split; [reflexivity|]. split; eexists; reflexivity. Qed.

Lemma split_not_nil sep s : Py.split sep s <> [].
Proof.
  destruct s as [|c rest]; simpl; [discriminate|].
  destruct (Py.split sep rest); [discriminate|].
  destruct (Ascii.eqb c sep); discriminate.
Qed.

(** Every exception of [int], [float] and of unpacking is a [ValueError]. *)
Lemma int_raises_ValueError s e :
  Py.int s = Err e -> isinstance_ValueError e = true.
Proof.
  unfold Py.int.
  destruct (Py.sign _) as [neg l].
  destruct (Py.digitpart l) as [[ds [|c r]]|];
    try destruct (_ <? _)%nat; intros [= <-]; reflexivity.
Qed.

Lemma float_raises_ValueError s e :
  Py.float s = Err e -> isinstance_ValueError e = true.
Proof.
  unfold Py.float.
  destruct (Py.sign _) as [neg l].
  destruct (_ || _); [discriminate|].
  destruct (String.eqb _ "nan"); [discriminate|].
  destruct (Py.number l) as [[[ip fp] r]|]; [|intros [= <-]; reflexivity].
  destruct (Py.exponent r) as [[x [|c r']]|]; intros [= <-]; reflexivity.
Qed.

Lemma map_tuple_raises {A B : Type} (f : A -> outcome B) (Q : exn -> Prop) :
  (forall x e, f x = Err e -> Q e) ->
  forall items e, Py.map_tuple f items = Err e -> Q e.
Proof.
  intros Hf; induction items as [|x xs IH]; simpl; intros e; [discriminate|].
  destruct (f x) eqn:Hx; [|intros [= <-]; eauto].
  destruct (Py.map_tuple f xs); [discriminate|].
  intros [= <-]; eauto.
Qed.

Lemma unpack2_raises_ValueError {A : Type} (t : list A) e :
  Py.unpack2 t = Err e -> isinstance_ValueError e = true.
Proof.
  destruct t as [|a [|b [|c t]]]; simpl; intros [= <-]; reflexivity.
Qed.

Lemma lat_lon_raises_ValueError self e :
  obind (lat_lon self) Py.unpack2 = Err e -> isinstance_ValueError e = true.
Proof.
  unfold obind, lat_lon.
  destruct (Py.map_tuple _ _) eqn:Hm.
  - apply unpack2_raises_ValueError.
  - intros [= <-].
    eapply (map_tuple_raises Py.float (fun e => isinstance_ValueError e = true));
      [apply float_raises_ValueError | exact Hm].
Qed.

Lemma map_size_raises_ValueError self e :
  obind (map_size self) Py.unpack2 = Err e -> isinstance_ValueError e = true.
Proof.
  unfold obind, map_size.
  destruct (Py.map_tuple _ _) eqn:Hm.
  - apply unpack2_raises_ValueError.
  - intros [= <-].
    eapply (map_tuple_raises Py.int (fun e => isinstance_ValueError e = true));
      [apply int_raises_ValueError | exact Hm].
Qed.



(** ** Reasoning rules for the monad *)

Section Rules.

Context {A B : Type}.

Lemma bind_trace (m : M A) (f : A -> M B) s :
  r_trace (bind m f s)
  = r_trace (m s)
    ++ match r_ctl (m s) with
       | Next a => r_trace (f a (r_state (m s)))
       | _ => []
       end.
Proof.
  unfold bind. destruct (r_ctl (m s)); simpl; auto using app_nil_r.
Qed.

Lemma emits_bind P (m : M A) (f : A -> M B) :
  emits P m -> (forall a, may_return m a -> emits P (f a)) ->
  emits P (bind m f).
Proof.
  intros Hm Hf s. rewrite bind_trace. apply Forall_app. split; [apply Hm|].
  destruct (r_ctl (m s)) eqn:Hc; [|constructor..].
  apply Hf. exists s. exact Hc.
Qed.

Lemma emits_try_except P (m : M A) catches handler :
  emits P m -> (forall e, emits P (handler e)) ->
  emits P (try_except m catches handler).
Proof.
  intros Hm Hh s. unfold try_except.
  destruct (r_ctl (m s)) eqn:Hc; try apply Hm.
  destruct (catches e); [|apply Hm].
  simpl. apply Forall_app. split; [apply Hm | apply Hh].
Qed.

Lemma emits_try_finally P (m : M A) final :
  emits P m -> emits P final -> emits P (try_finally m final).
Proof.
  intros Hm Hf s. unfold try_finally. simpl.
  apply Forall_app. split; [apply Hm | apply Hf].
Qed.

Lemma emits_weaken (P Q : event -> Prop) (m : M A) :
  (forall e, P e -> Q e) -> emits P m -> emits Q m.
Proof. intros HPQ Hm s. eapply Forall_impl; [apply Hm | apply HPQ]. Qed.

Lemma keeps_state_bind (m : M A) (f : A -> M B) :
  keeps_state m -> (forall a, keeps_state (f a)) -> keeps_state (bind m f).
Proof.
  intros Hm Hf s. unfold bind. specialize (Hm s).
  destruct (r_ctl (m s)); simpl; auto. rewrite Hf. exact Hm.
Qed.

Lemma keeps_state_try_except (m : M A) catches handler :
  keeps_state m -> (forall e, keeps_state (handler e)) ->
  keeps_state (try_except m catches handler).
Proof.
  intros Hm Hh s. unfold try_except. specialize (Hm s).
  destruct (r_ctl (m s)); auto. destruct (catches e); auto.
  simpl. rewrite Hh. exact Hm.
Qed.

Lemma no_return_bind (m : M A) (f : A -> M B) :
  no_return m -> (forall a, no_return (f a)) -> no_return (bind m f).
Proof.
  intros Hm Hf s. unfold bind. specialize (Hm s).
  destruct (r_ctl (m s)) eqn:Hc; simpl; first [apply Hf | congruence].
Qed.

Lemma may_return_bind (m : M A) (f : A -> M B) b :
  may_return (bind m f) b -> exists a, may_return m a /\ may_return (f a) b.
Proof.
  intros [s H]. unfold bind in H.
  destruct (r_ctl (m s)) eqn:Hc; simpl in H; try discriminate.
  exists a. split; eexists; eauto.
Qed.

Lemma may_return_try_except (m : M A) catches handler a :
  may_return (try_except m catches handler) a ->
  may_return m a \/ exists e, may_return (handler e) a.
Proof.
  intros [s H]. unfold try_except in H.
  destruct (r_ctl (m s)) eqn:Hc; try (left; exists s; congruence).
  destruct (catches e); [|left; exists s; congruence].
  right. exists e, (r_state (m s)). exact H.
Qed.

End Rules.

Lemma emits_ret {A : Type} P (a : A) : emits P (ret a).
Proof. intros s. constructor. Qed.

Lemma emits_raise {A : Type} P e : emits P (@raise A e).
Proof. intros s. constructor. Qed.

Lemma emits_return {A : Type} P : emits P (@return_ A).
Proof. intros s. constructor. Qed.

Lemma emits_lift {A : Type} P (o : outcome A) : emits P (lift o).
Proof. destruct o; intros s; constructor. Qed.

Lemma emits_emit (P : event -> Prop) ev : P ev -> emits P (emit ev).
Proof. intros H s. repeat constructor. exact H. Qed.

Lemma emits_call {A : Type} (P : event -> Prop) ev (o : outcome A) :
  P ev -> emits P (call ev o).
Proof.
  intros H. apply emits_bind; [apply emits_emit, H | intros; apply emits_lift].
Qed.

Lemma emits_get {A : Type} P (field : state -> A) : emits P (get field).
Proof. intros s. constructor. Qed.

Lemma emits_modify P f : emits P (modify f).
Proof. intros s. constructor. Qed.

Lemma emits_when P c block : emits P block -> emits P (when c block).
Proof. intros H. destruct c; [exact H | apply emits_ret]. Qed.

Lemma emits_def P body : emits P body -> emits P (def_ body).
Proof.
  intros H s. unfold def_. specialize (H s).
  destruct (r_ctl (body s)); exact H.
Qed.

Lemma emits_for_items {A S : Type} P (body : A -> S -> M S) :
  (forall x acc, emits P (body x acc)) ->
  forall items acc, emits P (for_items items acc body).
Proof.
  intros Hb; induction items as [|x xs IH]; intros acc; simpl.
  - apply emits_ret.
  - apply emits_bind; [apply Hb | intros; apply IH].
Qed.

Lemma emits_for_in {A S : Type} P (g : generator A) acc (body : A -> S -> M S) :
  (forall x acc, emits P (body x acc)) -> emits P (for_in g acc body).
Proof.
  intros Hb. apply emits_bind; [apply emits_for_items, Hb|].
  intros; destruct (finish g); [apply emits_raise | apply emits_ret].
Qed.

Lemma may_return_ret {A : Type} (x a : A) : may_return (ret x) a -> a = x.
Proof. intros [s H]. simpl in H. congruence. Qed.

Lemma may_return_lift {A : Type} (o : outcome A) a :
  may_return (lift o) a -> o = Ok a.
Proof. intros [s H]. destruct o; simpl in H; congruence. Qed.

Lemma may_return_call {A : Type} ev (o : outcome A) a :
  may_return (call ev o) a -> o = Ok a.
Proof.
  intros H. apply may_return_bind in H as (? & _ & H).
  apply may_return_lift, H.
Qed.

Lemma may_return_report_and_return {A : Type} ev (a : A) :
  ~ may_return (emit ev ;; return_) a.
Proof. intros [s H]. discriminate. Qed.

(** A conversion guarded by [except: st.error(...); return] continues only
    with the converted value. *)
Lemma may_return_guarded {A : Type} (o : outcome A) catches report a :
  may_return
    (try_except (lift o) catches (fun e => emit (report e) ;; return_)) a ->
  o = Ok a.
Proof.
  intros H. apply may_return_try_except in H as [H|[e H]].
  - apply may_return_lift, H.
  - destruct (may_return_report_and_return _ _ H).
Qed.

Lemma keeps_state_ret {A : Type} (a : A) : keeps_state (ret a).
Proof. intros s. reflexivity. Qed.

Lemma keeps_state_raise {A : Type} e : keeps_state (@raise A e).
Proof. intros s. reflexivity. Qed.

Lemma keeps_state_return {A : Type} : keeps_state (@return_ A).
Proof. intros s. reflexivity. Qed.

Lemma keeps_state_lift {A : Type} (o : outcome A) : keeps_state (lift o).
Proof. destruct o; intros s; reflexivity. Qed.

Lemma keeps_state_emit ev : keeps_state (emit ev).
Proof. intros s. reflexivity. Qed.

Lemma keeps_state_call {A : Type} ev (o : outcome A) : keeps_state (call ev o).
Proof.
  apply keeps_state_bind; [apply keeps_state_emit | intros; apply keeps_state_lift].
Qed.

Lemma keeps_state_when c block : keeps_state block -> keeps_state (when c block).
Proof. intros H. destruct c; [exact H | apply keeps_state_ret]. Qed.

Lemma keeps_state_for_items {A S : Type} (body : A -> S -> M S) :
  (forall x acc, keeps_state (body x acc)) ->
  forall items acc, keeps_state (for_items items acc body).
Proof.
  intros Hb; induction items as [|x xs IH]; intros acc; simpl.
  - apply keeps_state_ret.
  - apply keeps_state_bind; [apply Hb | intros; apply IH].
Qed.

Lemma no_return_ret {A : Type} (a : A) : no_return (ret a).
Proof. intros s. discriminate. Qed.

Lemma no_return_raise {A : Type} e : no_return (@raise A e).
Proof. intros s. discriminate. Qed.

Lemma no_return_lift {A : Type} (o : outcome A) : no_return (lift o).
Proof. destruct o; intros s; discriminate. Qed.

Lemma no_return_emit ev : no_return (emit ev).
Proof. intros s. discriminate. Qed.

Lemma no_return_call {A : Type} ev (o : outcome A) : no_return (call ev o).
Proof.
  apply no_return_bind; [apply no_return_emit | intros; apply no_return_lift].
Qed.

Lemma no_return_modify f : no_return (modify f).
Proof. intros s. discriminate. Qed.

Lemma no_return_for_items {A S : Type} (body : A -> S -> M S) :
  (forall x acc, no_return (body x acc)) ->
  forall items acc, no_return (for_items items acc body).
Proof.
  intros Hb; induction items as [|x xs IH]; intros acc; simpl.
  - apply no_return_ret.
  - apply no_return_bind; [apply Hb | intros; apply IH].
Qed.

Lemma no_return_for_in {A S : Type} (g : generator A) acc (body : A -> S -> M S) :
  (forall x acc, no_return (body x acc)) -> no_return (for_in g acc body).
Proof.
  intros Hb. apply no_return_bind; [apply no_return_for_items, Hb|].
  intros; destruct (finish g); [apply no_return_raise | apply no_return_ret].
Qed.

Create HintDb py_emits.
#[export] Hint Resolve emits_ret emits_raise emits_return emits_lift emits_get
  emits_modify : py_emits.
#[export] Hint Extern 2 (emits _ (emit _)) =>
  apply emits_emit; simpl; try exact I; try reflexivity : py_emits.
#[export] Hint Extern 2 (emits _ (call _ _)) =>
  apply emits_call; simpl; try exact I; try reflexivity : py_emits.
#[export] Hint Extern 3 (emits _ (bind _ _)) => apply emits_bind; [|intros ? _] : py_emits.
#[export] Hint Extern 3 (emits _ (try_except _ _ _)) =>
  apply emits_try_except; [|intros ?] : py_emits.
#[export] Hint Extern 3 (emits _ (when _ _)) => apply emits_when : py_emits.
#[export] Hint Extern 3 (emits _ (if ?c then _ else _)) => destruct c : py_emits.
#[export] Hint Extern 3 (emits _ (for_in _ _ _)) => apply emits_for_in; intros ? ? : py_emits.

Create HintDb py_state.
#[export] Hint Resolve keeps_state_ret keeps_state_raise keeps_state_return
  keeps_state_lift keeps_state_emit keeps_state_call : py_state.
#[export] Hint Extern 3 (keeps_state (bind _ _)) => apply keeps_state_bind; [|intros ?] : py_state.
#[export] Hint Extern 3 (keeps_state (try_except _ _ _)) =>
  apply keeps_state_try_except; [|intros ?] : py_state.
#[export] Hint Extern 3 (keeps_state (when _ _)) => apply keeps_state_when : py_state.
#[export] Hint Extern 3 (keeps_state (if ?c then _ else _)) => destruct c : py_state.

(** ** Running a block step by step *)

Lemma progress_reports_app t1 t2 :
  progress_reports (t1 ++ t2) = progress_reports t1 ++ progress_reports t2.
Proof. apply omap_app. Qed.

Lemma progress_reports_progress v text t :
  progress_reports (Progress v text :: t) = (v, text) :: progress_reports t.
Proof. reflexivity. Qed.

Lemma progress_reports_none P t :
  Forall P t -> (forall v text, ~ P (Progress v text)) -> progress_reports t = [].
Proof.
  intros Ht HP. induction Ht as [|e t He _ IH]; [reflexivity|].
  destruct e; try exact IH. destruct (HP _ _ He).
Qed.

Lemma progress_reports_skip e t :
  not_progress e -> progress_reports (e :: t) = progress_reports t.
Proof. destruct e; simpl; intros H; try reflexivity. destruct H. Qed.

Ltac reports :=
  repeat first
    [ rewrite progress_reports_app
    | rewrite progress_reports_progress
    | rewrite progress_reports_skip by exact I ].

Lemma bind_emit {B} ev (f : unit -> M B) s :
  bind (emit ev) f s
  = mk_result (ev :: r_trace (f tt s)) (r_state (f tt s)) (r_ctl (f tt s)).
Proof. reflexivity. Qed.

Lemma bind_ret {A B} (a : A) (f : A -> M B) s : bind (ret a) f s = f a s.
Proof. unfold bind; simpl. destruct (f a s); reflexivity. Qed.

Lemma bind_raise {A B} e (f : A -> M B) s :
  bind (raise e) f s = mk_result [] s (Raise e).
Proof. reflexivity. Qed.

Lemma bind_bind {A B C} (m : M A) (f : A -> M B) (g : B -> M C) s :
  bind (bind m f) g s = bind m (fun a => bind (f a) g) s.
Proof.
  unfold bind. destruct (r_ctl (m s)); simpl; try reflexivity.
  destruct (r_ctl (f a _)); simpl; rewrite ?app_assoc; reflexivity.
Qed.

Lemma progress_accepted v text :
  (0 <=? v) && (v <=? 100) = true -> progress v text = emit (Progress v text).
Proof. unfold progress. intros ->. reflexivity. Qed.

Lemma progress_refused v text :
  (0 <=? v) && (v <=? 100) = false ->
  exists e, progress v text = raise e /\ isinstance_Exception e = true.
Proof. unfold progress. intros ->. eexists. split; reflexivity. Qed.

Lemma bind_call_ok {A B} ev (a : A) (f : A -> M B) s :
  bind (call ev (Ok a)) f s
  = mk_result (ev :: r_trace (f a s)) (r_state (f a s)) (r_ctl (f a s)).
Proof.
  unfold call. rewrite bind_bind, bind_emit. cbn [lift].
  rewrite bind_ret. reflexivity.
Qed.

Lemma bind_call_err {A B} ev e (f : A -> M B) s :
  bind (call ev (@Err A e)) f s = mk_result [ev] s (Raise e).
Proof. reflexivity. Qed.

Lemma bind_modify {B} g (f : unit -> M B) s : bind (modify g) f s = f tt (g s).
Proof. unfold bind; simpl. destruct (f tt (g s)); reflexivity. Qed.

Lemma bind_run {A B} (m : M A) (f : A -> M B) s :
  bind m f s
  = match r_ctl (m s) with
    | Next a =>
        let r' := f a (r_state (m s)) in
        mk_result (r_trace (m s) ++ r_trace r') (r_state r') (r_ctl r')
    | Return => mk_result (r_trace (m s)) (r_state (m s)) Return
    | Raise e => mk_result (r_trace (m s)) (r_state (m s)) (Raise e)
    end.
Proof. reflexivity. Qed.

Ltac run :=
  repeat first
    [ rewrite bind_bind | rewrite bind_emit | rewrite bind_ret
    | rewrite bind_raise | rewrite bind_modify
    | rewrite bind_call_ok | rewrite bind_call_err
    | progress cbn [r_ctl r_state r_trace] ].

Lemma bind_lift_ok {A B} (a : A) (f : A -> M B) s : bind (lift (Ok a)) f s = f a s.
Proof. apply bind_ret. Qed.

Lemma bind_lift_err {A B} e (f : A -> M B) s :
  bind (lift (@Err A e)) f s = mk_result [] s (Raise e).
Proof. reflexivity. Qed.

Lemma bind_guarded_ok {A B} (a : A) catches handler (f : A -> M B) s :
  bind (try_except (lift (Ok a)) catches handler) f s = f a s.
Proof. unfold bind, try_except; simpl. destruct (f a s); reflexivity. Qed.

Lemma bind_guarded_caught {A B} e catches report (f : A -> M B) s :
  catches e = true ->
  bind (try_except (lift (Err e)) catches (fun e => emit (report e) ;; return_)) f s
  = mk_result [report e] s Return.
Proof. intros H. unfold bind, try_except; simpl. rewrite H. reflexivity. Qed.

Lemma bind_guarded_uncaught {A B} e catches handler (f : A -> M B) s :
  catches e = false ->
  bind (try_except (lift (@Err A e)) catches handler) f s
  = mk_result [] s (Raise e).
Proof. intros H. unfold bind, try_except; simpl. rewrite H. reflexivity. Qed.

Lemma bind_when_false {B} block (f : unit -> M B) s :
  bind (when false block) f s = f tt s.
Proof. apply bind_ret. Qed.

Lemma bind_when_return {B} ev (f : unit -> M B) s :
  bind (when true (emit ev ;; return_)) f s = mk_result [ev] s Return.
Proof. reflexivity. Qed.

Lemma emits_bind_guarded_ok {A B} P (a : A) catches handler (f : A -> M B) :
  emits P (f a) -> emits P (bind (try_except (lift (Ok a)) catches handler) f).
Proof. intros H s. rewrite bind_guarded_ok. apply H. Qed.

Lemma emits_try_except_finally {A} P (m : M A) catches handler final :
  emits P m -> (forall e, emits P (handler e)) -> emits P final ->
  emits P (try_except_finally m catches handler final).
Proof.
  intros Hm Hh Hf. apply emits_try_finally; [apply emits_try_except|]; assumption.
Qed.

Ltac emits_with solve_event :=
  repeat first
    [ apply emits_ret | apply emits_raise | apply emits_return | apply emits_lift
    | apply emits_get | apply emits_modify
    | apply emits_emit; solve_event
    | apply emits_call; solve_event
    | apply emits_for_in; intros ? ?
    | apply emits_bind; [|intros ? _]
    | apply emits_try_except_finally; [| intros ? |]
    | apply emits_try_except; [|intros ?]
    | apply emits_when
    | apply emits_def
    | match goal with |- emits _ (if ?c then _ else _) => destruct c end ].

(** ** Counting events *)

Lemma count_app f t1 t2 : count f (t1 ++ t2) = (count f t1 + count f t2)%nat.
Proof. unfold count. rewrite filter_app, length_app. reflexivity. Qed.

Lemma count_none (P : event -> Prop) f t :
  Forall P t -> (forall e, P e -> f e = false) -> count f t = 0%nat.
Proof.
  intros Ht HP. unfold count. induction Ht as [|e t He _ IH]; [reflexivity|].
  rewrite filter_cons. destruct (decide (f e = true)) as [Hf|]; [|exact IH].
  rewrite (HP e He) in Hf. discriminate.
Qed.

Lemma count_nil f : count f [] = 0%nat.
Proof. reflexivity. Qed.

Lemma count_cons f e t :
  count f (e :: t) = ((if f e then 1 else 0) + count f t)%nat.
Proof.
  unfold count. rewrite filter_cons.
  destruct (f e); destruct (decide _); try reflexivity; congruence.
Qed.

Create HintDb py_noreturn.
#[export] Hint Resolve no_return_ret no_return_raise no_return_lift no_return_emit
  no_return_call no_return_modify : py_noreturn.
#[export] Hint Extern 3 (no_return (bind _ _)) => apply no_return_bind; [|intros ?] : py_noreturn.
#[export] Hint Extern 3 (no_return (if ?c then _ else _)) => destruct c : py_noreturn.
#[export] Hint Extern 3 (no_return (for_in _ _ _)) => apply no_return_for_in; intros ? ? : py_noreturn.

(** ** The phases of [generate_map] *)

Section Phases.
Variable w : World.
Variable self : GeneratorUI.

Lemma prepare_emits : emits prepare_event (generate_map_prepare w self).
Proof.
  unfold generate_map_prepare, load_schema. auto 60 with py_emits.
Qed.

Lemma prepare_keeps_state : keeps_state (generate_map_prepare w self).
Proof.
  unfold generate_map_prepare, load_schema. auto 60 with py_state.
Qed.

(** [generate_map] as the sequence of its phases. *)
Lemma generate_map_phases s :
  generate_map w self s =
  let rp := generate_map_prepare w self s in
  match r_ctl rp with
  | Next job =>
      let rq := generate_map_enqueue w self (fst job) (r_state rp) in
      match r_ctl rq with
      | Next _ =>
          let rt :=
            try_except_finally (generate_map_try w self (fst job) (snd job))
              isinstance_Exception (generate_map_except)
              (generate_map_finally w self (fst job)) (r_state rq) in
          mk_result (r_trace rp ++ r_trace rq ++ r_trace rt) (r_state rt)
            match r_ctl rt with Return => Next tt | c => c end
      | Return => mk_result (r_trace rp ++ r_trace rq) (r_state rq) (Next tt)
      | Raise e => mk_result (r_trace rp ++ r_trace rq) (r_state rq) (Raise e)
      end
  | Return => mk_result (r_trace rp) (r_state rp) (Next tt)
  | Raise e => mk_result (r_trace rp) (r_state rp) (Raise e)
  end.
Proof.
  unfold generate_map, def_, bind.
  destruct (r_ctl (generate_map_prepare w self s)) as [job| |e]; try reflexivity.
  cbn [r_ctl r_trace r_state].
  destruct (r_ctl (generate_map_enqueue w self (fst job) _)); try reflexivity.
  cbn [r_ctl r_trace r_state].
  destruct (r_ctl (try_except_finally _ _ _ _ _)); reflexivity.
Qed.

Lemma stage_loop step names : forall completed s,
  let r := for_items names completed
             (fun component_name completed =>
                progress completed ("⏳ Generating " +:+ component_name +:+ "...") ;;
                ret (completed + step)) s in
  r_state r = s
  /\ Forall progress_event (r_trace r)
  /\ progress_reports (r_trace r) `prefix_of` stage_reports step completed names
  /\ (forall c, r_ctl r = Next c ->
        c = completed + Z.of_nat (length names) * step
        /\ progress_reports (r_trace r) = stage_reports step completed names)
  /\ (forall e, r_ctl r = Raise e -> isinstance_Exception e = true)
  /\ r_ctl r <> Return.
Proof.
  induction names as [|name names IH]; intros completed s.
  - simpl. split; [reflexivity|]. split; [constructor|].
    split; [reflexivity|]. split; [|split; discriminate].
    intros c [= <-]. split; [lia | reflexivity].
  - cbn [for_items]. rewrite bind_bind.
    destruct ((0 <=? completed) && (completed <=? 100)) eqn:Hrange.
    + rewrite (progress_accepted _ _ Hrange), bind_emit, bind_ret.
      cbn [r_ctl r_state r_trace].
      specialize (IH (completed + step) s). cbv zeta in IH.
      destruct IH as (Hs & Hev & Hpre & Hnext & Hraise & Hnr).
      split; [exact Hs|]. split; [constructor; [exact I | exact Hev]|].
      split; [rewrite progress_reports_progress; apply prefix_cons, Hpre|].
      split; [|split; assumption].
      intros c Hc. apply Hnext in Hc as [-> Hc]. split.
      * cbn [length]. lia.
      * rewrite progress_reports_progress, Hc. reflexivity.
    + destruct (progress_refused completed ("⏳ Generating " +:+ name +:+ "...") Hrange)
        as (e & -> & He).
      rewrite bind_raise. cbn [r_ctl r_state r_trace].
      split; [reflexivity|]. split; [constructor|].
      split; [apply prefix_nil|]. split; [discriminate|].
      split; [intros ? [= <-]; exact He | discriminate].
Qed.

Lemma try_reports name mp s :
  let r := generate_map_try w self name mp s in
  let expected := all_reports (progress_step w self) (yields (generate w mp)) in
  progress_reports (r_trace r) `prefix_of` expected
  /\ (r_ctl r = Next tt ->
       progress_reports (r_trace r) = expected
       /\ generated (r_state r) = true
       /\ In (StatusSuccess ("Map generated in " +:+ elapsed_rounded w +:+ " seconds."))
            (r_trace r)
       /\ (Z.of_nat (length (yields (generate w mp))) + 2) * progress_step w self
          <= 100)
  /\ (forall msg, In (StatusSuccess msg) (r_trace r) -> r_ctl r = Next tt).
Proof.
  cbv zeta. unfold generate_map_try, for_in, all_reports.
  set (step := progress_step w self). set (names := yields (generate w mp)).
  run.
  match goal with |- context [bind (for_items ?l ?a ?b) ?k s] =>
    pose proof (stage_loop step l a s) as Hloop; cbv zeta in Hloop;
    fold names in Hloop;
    rewrite (bind_run (for_items l a b)); set (loop := for_items l a b s) in *
  end.
  destruct Hloop as (Hs & Hev & Hpre & Hnext & _ & _).
  assert (Hnosucc : forall msg, ~ In (StatusSuccess msg) (r_trace loop)).
  { intros msg Hin. rewrite Forall_forall in Hev.
    apply list_elem_of_In, Hev in Hin. exact Hin. }
  destruct (r_ctl loop) as [c| |e] eqn:Hc.
  2,3: cbn [r_ctl r_trace r_state app]; reports;
       split; [apply prefix_app_r, Hpre|];
       split; [discriminate|]; intros msg [|[|Hin]]; try discriminate;
       destruct (Hnosucc _ Hin).
  destruct (Hnext c eq_refl) as [-> Hreports]. clear Hnext.
  cbv zeta. rewrite Hs.
  destruct (finish (generate w mp)) as [e|]; run.
  { rewrite app_nil_r. reports. split; [apply prefix_app_r, Hpre|].
    split; [discriminate|]. intros msg [|[|Hin]]; try discriminate.
    destruct (Hnosucc _ Hin). }
  match goal with |- context [progress ?v ?t] =>
    destruct ((0 <=? v) && (v <=? 100)) eqn:Hr1;
    [ rewrite (progress_accepted v t Hr1)
    | destruct (progress_refused v t Hr1) as (e1 & -> & _) ]
  end; run.
  2: { rewrite app_nil_r. reports. split; [apply prefix_app_r, Hpre|].
    split; [discriminate|]. intros msg [|[|Hin]]; try discriminate.
    destruct (Hnosucc _ Hin). }
  assert (E1 : 0 + Z.of_nat (length names) * step + step
               = (Z.of_nat (length names) + 1) * step) by lia.
  assert (E2 : (Z.of_nat (length names) + 1) * step + step
               = (Z.of_nat (length names) + 2) * step) by lia.
  rewrite E1 in *. rewrite E2 in *. clear E1 E2.
  assert (Hstop1 : forall ev,
    progress_reports (StProgress 0 :: Generate :: r_trace loop
        ++ Progress ((Z.of_nat (length names) + 1) * step) "🖼️ Creating previews..."
        :: ev)
    = stage_reports step 0 names
        ++ ((Z.of_nat (length names) + 1) * step, "🖼️ Creating previews...")
        :: progress_reports ev).
  { intros ev. reports. rewrite Hreports. reflexivity. }
  assert (Hfail : forall ev e,
    Forall (fun x => match x with StatusSuccess _ | Progress _ _ => False | _ => True end) ev ->
    let t := StProgress 0 :: Generate :: r_trace loop
        ++ Progress ((Z.of_nat (length names) + 1) * step) "🖼️ Creating previews..."
        :: ev in
    progress_reports t
      `prefix_of` stage_reports step 0 names
        ++ [((Z.of_nat (length names) + 1) * step, "🖼️ Creating previews...");
            ((Z.of_nat (length names) + 2) * step, "🗃️ Packing the map...")]
    /\ (@Raise unit e = Next tt -> 
        progress_reports t = stage_reports step 0 names
        ++ [((Z.of_nat (length names) + 1) * step, "🖼️ Creating previews...");
            ((Z.of_nat (length names) + 2) * step, "🗃️ Packing the map...")]
        /\ generated s = true
        /\ In (StatusSuccess ("Map generated in " +:+ elapsed_rounded w +:+ " seconds.")) t
        /\ (Z.of_nat (length names) + 2) * step <= 100)
    /\ (forall msg, In (StatusSuccess msg) t -> @Raise unit e = Next tt)).
  { intros ev e Hev' t. subst t. rewrite Hstop1.
    assert (progress_reports ev = []) as ->.
    { induction Hev' as [|x ev Hx _ IH]; [reflexivity|].
      destruct x; try exact IH. destruct Hx. }
    split; [apply prefix_app, prefix_cons, prefix_nil|].
    split; [discriminate|]. intros msg Hin. exfalso.
    repeat (destruct Hin as [Hin|Hin]; [discriminate|]).
    apply in_app_or in Hin as [Hin|Hin]; [destruct (Hnosucc _ Hin)|].
    destruct Hin as [Hin|Hin]; [discriminate|].
    rewrite Forall_forall in Hev'. apply list_elem_of_In, Hev' in Hin.
    exact Hin. }
  destruct (show_preview w mp) as [[]|e]; run;
    [|apply (Hfail [ShowPreview]); repeat constructor].
  destruct (map_preview w) as [[]|e]; run;
    [|apply (Hfail [ShowPreview; MapPreview]); repeat constructor].
  match goal with |- context [progress ?v ?t] =>
    destruct ((0 <=? v) && (v <=? 100)) eqn:Hr2;
    [ rewrite (progress_accepted v t Hr2)
    | destruct (progress_refused v t Hr2) as (e2 & -> & _) ]
  end; run;
    [|apply (Hfail [ShowPreview; MapPreview]); repeat constructor].
  destruct (pack w mp _) as [archive_path|e]; run.
  2: { rewrite Hstop1. reports. cbn [progress_reports omap].
       split; [reflexivity|]. split; [discriminate|]. intros msg Hin. exfalso.
       repeat (destruct Hin as [Hin|Hin]; [discriminate|]).
       apply in_app_or in Hin as [Hin|Hin]; [destruct (Hnosucc _ Hin)|].
       repeat (destruct Hin as [Hin|Hin]; [discriminate|]). destruct Hin. }
  cbn [emit r_trace r_state r_ctl generated].
  rewrite Hstop1. reports. cbn [progress_reports omap].
  split; [reflexivity|]. split; [|reflexivity].
  intros _. split; [reflexivity|]. split; [reflexivity|].
  split; [right; right; apply in_or_app; right; simpl; tauto|].
  apply andb_true_iff in Hr2 as [_ Hr2]. apply Z.leb_le, Hr2.
Qed.
Lemma wait_loop (positions : list Z) s :
  let r := for_items positions tt
             (fun position _ =>
                emit (StatusInfo ("Your position in the queue: "
                                    +:+ Py.str_of_int position +:+ ". Please wait...")))
             s in
  r_state r = s /\ r_ctl r = Next tt
  /\ Forall (fun e => match e with StatusInfo _ => True | _ => False end) (r_trace r).
Proof.
  induction positions as [|p ps IH]; cbn [for_items].
  - repeat split. constructor.
  - rewrite bind_emit. cbn [r_state r_ctl r_trace].
    destruct IH as (Hs & Hc & Ht). repeat split; auto.
Qed.

(** The queue phase: nothing on a private deployment; on a public one the
    call to [add_to_queue] comes first, and the phase ends normally exactly
    when neither that call nor the wait raises. *)
Lemma enqueue_phase name s :
  let r := generate_map_enqueue w self name s in
  r_state r = s
  /\ r_ctl r <> Return
  /\ Forall (enqueue_event name) (r_trace r)
  /\ count is_enqueue (r_trace r) = (if public self then 1 else 0)%nat
  /\ (public self = true -> In (AddToQueue name) (r_trace r))
  /\ (r_ctl r = Next tt <->
      public self = false
      \/ (add_to_queue w name = Ok tt /\ finish (wait_in_queue w name) = None)).
Proof.
  cbv zeta. unfold generate_map_enqueue, when, for_in.
  destruct (public self).
  2: { cbn. repeat split; try discriminate; try constructor; auto. }
  destruct (add_to_queue w name) as [[]|e]; run.
  2: { repeat split; try discriminate; try (repeat constructor).
       - intros [|[? _]]; discriminate. }
  match goal with |- context [bind (for_items ?l ?a ?b) ?k s] =>
    pose proof (wait_loop l s) as Hloop; cbv zeta in Hloop;
    rewrite (bind_run (for_items l a b)); set (loop := for_items l a b s) in *
  end.
  destruct Hloop as (Hs & Hc & Ht). rewrite Hc. cbv zeta. rewrite Hs.
  assert (Ht' : Forall (enqueue_event name) (r_trace loop)).
  { eapply Forall_impl; [exact Ht|]. intros [] H; try destruct H; exact I. }
  assert (Hn : count is_enqueue (r_trace loop) = 0%nat).
  { eapply count_none; [exact Ht|]. intros [] H; try destruct H; reflexivity. }
  destruct (finish (wait_in_queue w name)) as [e|];
    cbn [r_trace r_state r_ctl ret raise app]; rewrite app_nil_r.
  - split; [reflexivity|]. split; [discriminate|].
    split; [repeat constructor; exact Ht'|].
    split; [rewrite !count_cons, Hn; reflexivity|].
    split; [intros _; left; reflexivity|].
    split; [discriminate | intros [|[_ ?]]; discriminate].
  - split; [reflexivity|]. split; [discriminate|].
    split; [repeat constructor; exact Ht'|].
    split; [rewrite !count_cons, Hn; reflexivity|].
    split; [intros _; left; reflexivity|].
    split; auto.
Qed.


Lemma finally_phase name s :
  generate_map_finally w self name s
  = if public self then
      mk_result [RemoveFromQueue name] s
        match remove_from_queue w name with
        | Ok _ => Next tt
        | Err e => Raise e
        end
    else mk_result [] s (Next tt).
Proof.
  unfold generate_map_finally, when. destruct (public self); [|reflexivity].
  destruct (remove_from_queue w name) as [[]|e]; reflexivity.
Qed.

Lemma guarded_phase name mp s :
  let rt := generate_map_try w self name mp s in
  let rf := generate_map_finally w self name (r_state rt) in
  let r :=
    try_except_finally (generate_map_try w self name mp) isinstance_Exception
      generate_map_except (generate_map_finally w self name) s in
  r_trace r = r_trace rt ++ failure_report (r_ctl rt) ++ r_trace rf
  /\ r_state r = r_state rt
  /\ r_ctl r = match r_ctl rf with
               | Next _ => after_except (r_ctl rt)
               | c => c
               end.
Proof.
  cbv zeta. unfold try_except_finally, try_finally, try_except.
  destruct (r_ctl (generate_map_try w self name mp s)) as [[]| |e] eqn:Hc;
    cbn [failure_report after_except].
  1,2: rewrite Hc; cbn [app]; repeat split;
       rewrite finally_phase; destruct (public self); reflexivity.
  destruct (isinstance_Exception e);
    cbn [r_trace r_state r_ctl generate_map_except]; rewrite ?Hc.
  - unfold generate_map_except. run. rewrite !finally_phase.
    destruct (public self); cbn [r_trace r_state r_ctl emit app];
      rewrite <- ?app_assoc; repeat split.
  - cbn [app]. rewrite !finally_phase. destruct (public self); repeat split.
Qed.


Lemma try_no_return name mp : no_return (generate_map_try w self name mp).
Proof. unfold generate_map_try, progress. auto 40 with py_noreturn. Qed.

Lemma try_emits name mp : emits try_event (generate_map_try w self name mp).
Proof. unfold generate_map_try, progress. auto 40 with py_emits. Qed.

(** A run of [generate_map], phase by phase. *)
Lemma generate_map_run s :
  let r := generate_map w self s in
  let rp := generate_map_prepare w self s in
  match r_ctl rp with
  | Next job =>
      let rq := generate_map_enqueue w self (fst job) s in
      match r_ctl rq with
      | Next _ =>
          let rt := generate_map_try w self (fst job) (snd job) s in
          let rf := generate_map_finally w self (fst job) (r_state rt) in
          r_trace r
          = r_trace rp ++ r_trace rq ++ r_trace rt
              ++ failure_report (r_ctl rt) ++ r_trace rf
          /\ r_state r = r_state rt
          /\ r_ctl r = match r_ctl rf with
                       | Next _ => after_except (r_ctl rt)
                       | c => c
                       end
      | Return => False
      | Raise e =>
          r = mk_result (r_trace rp ++ r_trace rq) s (Raise e)
      end
  | Return => r = mk_result (r_trace rp) s (Next tt)
  | Raise e => r = mk_result (r_trace rp) s (Raise e)
  end.
Proof.
  cbv zeta. rewrite generate_map_phases. cbv zeta.
  rewrite (prepare_keeps_state s).
  destruct (r_ctl (generate_map_prepare w self s)) as [job| |e]; try reflexivity.
  destruct (enqueue_phase (fst job) s) as (Hs & Hnr & _). rewrite Hs.
  destruct (r_ctl (generate_map_enqueue w self (fst job) s)) as [[]| |e];
    [|congruence|reflexivity].
  destruct (guarded_phase (fst job) (snd job) s) as (Ht & Hst & Hc).
  cbn [r_trace r_state r_ctl]. rewrite Ht, Hst, Hc.
  split; [reflexivity|]. split; [reflexivity|].
  rewrite finally_phase.
  pose proof (try_no_return (fst job) (snd job) s) as Hnr'.
  destruct (public self); cbn [r_ctl].
  - destruct (remove_from_queue w (fst job)) as [[]|e]; [|reflexivity].
    destruct (r_ctl (generate_map_try w self (fst job) (snd job) s)) as [[]| |e];
      cbn [after_except]; try reflexivity; try congruence.
    destruct (isinstance_Exception e); reflexivity.
  - destruct (r_ctl (generate_map_try w self (fst job) (snd job) s)) as [[]| |e];
      cbn [after_except]; try reflexivity; try congruence.
    destruct (isinstance_Exception e); reflexivity.
Qed.

End Phases.

(** ** Validation *)

Section Prepare.
Variable w : World.
Variable self : GeneratorUI.

Lemma prepare_bad_coordinates e s :
  obind (lat_lon self) Py.unpack2 = Err e ->
  generate_map_prepare w self s
  = mk_result [StError "Invalid latitude and longitude!"] s Return.
Proof.
  intros H. unfold generate_map_prepare. rewrite H.
  apply bind_guarded_caught, (lat_lon_raises_ValueError self), H.
Qed.

Lemma prepare_bad_size c e s :
  obind (lat_lon self) Py.unpack2 = Ok c ->
  obind (map_size self) Py.unpack2 = Err e ->
  generate_map_prepare w self s = mk_result [StError "Invalid map size!"] s Return.
Proof.
  intros Hc H. unfold generate_map_prepare. rewrite Hc, bind_guarded_ok, H.
  apply bind_guarded_caught, (map_size_raises_ValueError self), H.
Qed.





(** A run that [generate_map_prepare] ends by [return] is a normal return of
    [generate_map] with the same events. *)
Lemma generate_map_rejected t s :
  generate_map_prepare w self s = mk_result t s Return ->
  generate_map w self s = mk_result t s (Next tt).
Proof.
  intros H. pose proof (generate_map_run w self s) as Hr. cbv zeta in Hr.
  rewrite H in Hr. exact Hr.
Qed.


End Prepare.









(** ** Inline errors and the queue *)

Lemma errors_return_quiet {A} (m : M A) :
  emits not_inline_error m -> errors_return m.
Proof. intros H s _. apply H. Qed.

Lemma errors_return_report {A} ev : errors_return (emit ev ;; @return_ A).
Proof. intros s H. destruct H. reflexivity. Qed.

Lemma errors_return_bind {A B} (m : M A) (f : A -> M B) :
  errors_return m -> (forall a, errors_return (f a)) -> errors_return (bind m f).
Proof.
  intros Hm Hf s. rewrite bind_run. specialize (Hm s).
  destruct (r_ctl (m s)) as [a| |e]; cbn [r_ctl r_trace].
  - intros H. apply Forall_app. split; [apply Hm; discriminate | apply Hf, H].
  - congruence.
  - intros _. apply Hm. discriminate.
Qed.

Lemma errors_return_try_except {A} (m : M A) catches handler :
  errors_return m -> (forall e, errors_return (handler e)) ->
  errors_return (try_except m catches handler).
Proof.
  intros Hm Hh s. unfold try_except. specialize (Hm s).
  destruct (r_ctl (m s)) as [a| |e] eqn:Hc; try (rewrite Hc; exact Hm).
  destruct (catches e); [|rewrite Hc; exact Hm].
  cbn [r_ctl r_trace]. intros H. apply Forall_app.
  split; [apply Hm; discriminate | apply Hh, H].
Qed.

Lemma errors_return_when c block :
  errors_return block -> errors_return (when c block).
Proof. intros H. destruct c; [exact H|]. intros s _. constructor. Qed.

Ltac errors_return_tac :=
  repeat first
    [ apply errors_return_report
    | apply errors_return_quiet;
      solve [emits_with ltac:(exact I)]
    | apply errors_return_bind; [|intros ?]
    | apply errors_return_try_except; [|intros ?]
    | apply errors_return_when
    | match goal with |- errors_return (if ?c then _ else _) => destruct c end ].

Lemma prepare_errors_return w self : errors_return (generate_map_prepare w self).
Proof. unfold generate_map_prepare, load_schema. errors_return_tac. Qed.

Section Runs.
Variable w : World.
Variable self : GeneratorUI.

Lemma finally_events name s :
  Forall (fun e => match e with RemoveFromQueue n => n = name | _ => False end)
    (r_trace (generate_map_finally w self name s)).
Proof.
  rewrite finally_phase. destruct (public self); repeat constructor.
Qed.

Lemma failure_report_events c :
  Forall (fun e => match e with LoggerError _ | StatusError _ => True | _ => False end)
    (failure_report c).
Proof.
  destruct c as [| |e]; try constructor. simpl.
  destruct (isinstance_Exception e); repeat constructor.
Qed.

(** The events of a run, by phase: the first component is what
    [generate_map_prepare] emitted, the second what came after. *)
Lemma generate_map_trace s :
  let r := generate_map w self s in
  let rp := generate_map_prepare w self s in
  exists rest,
    r_trace r = r_trace rp ++ rest
    /\ Forall (fun e => match e with
                        | AddToQueue _ | WaitInQueue _ | StatusInfo _
                        | StProgress _ | Generate | Progress _ _ | ShowPreview
                        | MapPreview | Pack _ | LoggerInfo _ | StatusSuccess _
                        | LoggerError _ | StatusError _ | RemoveFromQueue _ => True
                        | _ => False
                        end) rest
    /\ (rest <> [] -> exists job, r_ctl rp = Next job).
Proof.
  cbv zeta. pose proof (generate_map_run w self s) as Hr. cbv zeta in Hr.
  destruct (r_ctl (generate_map_prepare w self s)) as [job| |e] eqn:Hp.
  - destruct (enqueue_phase w self (fst job) s) as (_ & _ & Hq & _).
    destruct (r_ctl (generate_map_enqueue w self (fst job) s)) as [[]| |e];
      [|destruct Hr|].
    + destruct Hr as (-> & _ & _). eexists. split; [reflexivity|].
      split; [|eauto].
      apply Forall_app_2; [|apply Forall_app_2; [|apply Forall_app_2]].
      * eapply Forall_impl; [exact Hq|]. intros [] H; try destruct H; exact I.
      * eapply Forall_impl; [apply (try_emits w self)|].
        intros [] H; try destruct H; exact I.
      * eapply Forall_impl; [apply failure_report_events|].
        intros [] H; try destruct H; exact I.
      * eapply Forall_impl; [apply finally_events|].
        intros [] H; try destruct H; exact I.
    + rewrite Hr. eexists. split; [reflexivity|]. split; [|eauto].
      eapply Forall_impl; [exact Hq|]. intros [] H; try destruct H; exact I.
  - rewrite Hr. exists []. rewrite app_nil_r. repeat split; [constructor | congruence].
  - rewrite Hr. exists []. rewrite app_nil_r. repeat split; [constructor | congruence].
Qed.

(** A run that reports an inline error made no call to the queue. *)
Lemma inline_error_keeps_queue s msg :
  In (StError msg) (r_trace (generate_map w self s)) ->
  count queue_mutation (r_trace (generate_map w self s)) = 0%nat.
Proof.
  destruct (generate_map_trace s) as (rest & -> & Hrest & Hjob).
  intros Hin. rewrite count_app.
  rewrite (count_none prepare_event queue_mutation _ (prepare_emits w self s))
    by (intros [] H; try destruct H; reflexivity).
  destruct rest as [|ev rest]; [reflexivity|]. exfalso.
  destruct Hjob as [job Hp]; [discriminate|].
  apply in_app_or in Hin as [Hin|Hin].
  - pose proof (prepare_errors_return w self s) as Hclean.
    rewrite Hp in Hclean. specialize (Hclean ltac:(discriminate)).
    rewrite Forall_forall in Hclean. apply list_elem_of_In, Hclean in Hin.
    exact Hin.
  - rewrite Forall_forall in Hrest. apply list_elem_of_In, Hrest in Hin.
    exact Hin.
Qed.

End Runs.

(** ** Progress reports *)

Lemma stage_values_lookup step names : forall completed k v,
  map fst (stage_reports step completed names) !! k = Some v
  <-> (k < length names)%nat /\ v = completed + Z.of_nat k * step.
Proof.
  induction names as [|name names IH]; intros completed k v.
  - simpl. split; [discriminate | intros [H _]; lia].
  - destruct k as [|k]; cbn [stage_reports map fst lookup list_lookup length].
    + split; [intros [= <-]; split; lia | intros [_ ->]; f_equal; lia].
    + change (map fst (stage_reports step (completed + step) names) !! k = Some v
              <-> (S k < S (length names))%nat /\ v = completed + Z.of_nat (S k) * step).
      rewrite IH. split; intros [H ->]; split; lia.
Qed.

Lemma stage_values_length step names completed :
  length (map fst (stage_reports step completed names)) = length names.
Proof.
  revert completed. induction names as [|name names IH]; intros completed;
    [reflexivity|]. simpl. f_equal. apply IH.
Qed.

(** The values of a complete sequence of reports, by position: [k * step]
    for the stage of index [k], then [m + 1] and [m + 2] steps. *)
Lemma all_values_lookup step names k v :
  let m := Z.of_nat (length names) in
  map fst (all_reports step names) !! k = Some v
  <-> ((k < length names)%nat /\ v = Z.of_nat k * step)
      \/ (k = length names /\ v = (m + 1) * step)
      \/ (k = S (length names) /\ v = (m + 2) * step).
Proof.
  cbv zeta. unfold all_reports. rewrite map_app.
  destruct (decide (k < length names)%nat) as [Hk|Hk].
  - rewrite lookup_app_l by (rewrite stage_values_length; exact Hk).
    rewrite stage_values_lookup. split.
    + intros [_ ->]. left. split; [exact Hk | lia].
    + intros [[_ ->]|[[-> _]|[-> _]]]; [split; [exact Hk | lia] | lia | lia].
  - rewrite lookup_app_r by (rewrite stage_values_length; lia).
    rewrite stage_values_length.
    destruct (k - length names)%nat as [|[|j]] eqn:Hj; simpl.
    + split; [intros [= <-]; right; left; split; lia|].
      intros [[? _]|[[_ ->]|[? _]]]; [lia | reflexivity | lia].
    + split; [intros [= <-]; right; right; split; lia|].
      intros [[? _]|[[? _]|[_ ->]]]; [lia | lia | reflexivity].
    + split; [discriminate|]. intros [[? _]|[[? _]|[? _]]]; lia.
Qed.

Lemma stage_values_sorted step names : 0 <= step -> forall completed tail,
  StronglySorted Z.le tail ->
  Forall (fun v => completed + Z.of_nat (length names) * step <= v) tail ->
  StronglySorted Z.le (map fst (stage_reports step completed names) ++ tail)
  /\ Forall (fun v => completed <= v)
       (map fst (stage_reports step completed names) ++ tail).
Proof.
  intros Hstep. induction names as [|name names IH]; intros completed tail Hs Hlow.
  - simpl in *. split; [exact Hs|].
    eapply Forall_impl; [exact Hlow|]. intros v Hv. simpl in Hv. lia.
  - cbn [stage_reports map fst app].
    destruct (IH (completed + step) tail Hs) as [IHs IHl].
    { eapply Forall_impl; [exact Hlow|]. intros v Hv. cbn [length] in Hv. lia. }
    split.
    + constructor; [exact IHs|].
      eapply Forall_impl; [exact IHl|]. intros v Hv. simpl in Hv. lia.
    + constructor; [lia|].
      eapply Forall_impl; [exact IHl|]. intros v Hv. simpl in Hv. lia.
Qed.

Lemma all_values_sorted step names :
  0 <= step -> StronglySorted Z.le (map fst (all_reports step names)).
Proof.
  intros Hstep. unfold all_reports. rewrite map_app.
  apply (stage_values_sorted step names Hstep 0).
  - repeat constructor. simpl. lia.
  - repeat constructor; simpl; lia.
Qed.

Lemma progress_step_nonneg w self : 0 <= progress_step w self.
Proof. unfold progress_step. apply Z.div_pos; lia. Qed.

Section Reports.
Variable w : World.
Variable self : GeneratorUI.

Lemma generate_map_reports s :
  let r := generate_map w self s in
  let expected := all_reports (progress_step w self) (engine_stages w self s) in
  progress_reports (r_trace r) `prefix_of` expected
  /\ (forall msg, In (StatusSuccess msg) (r_trace r) ->
        progress_reports (r_trace r) = expected
        /\ (Z.of_nat (length (engine_stages w self s)) + 2) * progress_step w self
           <= 100).
Proof.
  cbv zeta. pose proof (generate_map_run w self s) as Hr. cbv zeta in Hr.
  unfold engine_stages.
  assert (Hp0 : progress_reports (r_trace (generate_map_prepare w self s)) = []).
  { apply (progress_reports_none prepare_event); [apply prepare_emits|].
    intros v text H. exact H. }
  assert (Hps : forall msg,
            ~ In (StatusSuccess msg) (r_trace (generate_map_prepare w self s))).
  { intros msg Hin. pose proof (prepare_emits w self s) as H.
    rewrite Forall_forall in H. apply list_elem_of_In, H in Hin. exact Hin. }
  destruct (r_ctl (generate_map_prepare w self s)) as [job| |e] eqn:Hp.
  2,3: rewrite Hr; cbn [r_trace]; rewrite Hp0; split; [apply prefix_nil|];
       intros msg Hin; destruct (Hps _ Hin).
  destruct (enqueue_phase w self (fst job) s) as (_ & _ & Hq & _).
  assert (Hq0 : progress_reports (r_trace (generate_map_enqueue w self (fst job) s)) = []).
  { apply (progress_reports_none (enqueue_event (fst job))); [exact Hq|].
    intros v text H. exact H. }
  assert (Hqs : forall msg,
            ~ In (StatusSuccess msg) (r_trace (generate_map_enqueue w self (fst job) s))).
  { intros msg Hin. rewrite Forall_forall in Hq.
    apply list_elem_of_In, Hq in Hin. exact Hin. }
  destruct (r_ctl (generate_map_enqueue w self (fst job) s)) as [[]| |e];
    [|destruct Hr|].
  2: { rewrite Hr; cbn [r_trace]. rewrite progress_reports_app, Hp0, Hq0.
       split; [apply prefix_nil|]. intros msg Hin.
       apply in_app_or in Hin as [Hin|Hin]; [destruct (Hps _ Hin) | destruct (Hqs _ Hin)]. }
  destruct Hr as (-> & _ & _).
  destruct (try_reports w self (fst job) (snd job) s) as (Hpre & Hok & Hsucc).
  rewrite !progress_reports_app, Hp0, Hq0.
  rewrite (progress_reports_none _ _ (failure_report_events _))
    by (intros v text H; exact H).
  rewrite (progress_reports_none _ _ (finally_events w self _ _))
    by (intros v text H; exact H).
  cbn [app]. rewrite app_nil_r. split; [exact Hpre|].
  intros msg Hin.
  apply in_app_or in Hin as [Hin|Hin]; [destruct (Hps _ Hin)|].
  apply in_app_or in Hin as [Hin|Hin]; [destruct (Hqs _ Hin)|].
  apply in_app_or in Hin as [Hin|Hin].
  - destruct (Hok (Hsucc _ Hin)) as (H1 & _ & _ & H2). split; assumption.
  - exfalso. apply in_app_or in Hin as [Hin|Hin].
    + pose proof (failure_report_events
                    (r_ctl (generate_map_try w self (fst job) (snd job) s))) as H.
      rewrite Forall_forall in H. apply list_elem_of_In, H in Hin. exact Hin.
    + pose proof (finally_events w self (fst job)
                    (r_state (generate_map_try w self (fst job) (snd job) s))) as H.
      rewrite Forall_forall in H. apply list_elem_of_In, H in Hin. exact Hin.
Qed.

End Reports.

(** C5: with [step = int(100 / (len(game.components) + 2))] the reports of
    every run are a prefix of: [k * step] for the stage of index [k] (after
    [k] stages), then [(m + 1) * step] for the previews and [(m + 2) * step]
    for packing, [m] being the number of stages. In a run that succeeds all
    of them are made, the last is at most 100, it is strictly above every
    earlier one when [step] is positive, and it is within [m + 2] of 100
    when the engine yields one stage per component. *)
Theorem progress_follows_fixed_steps w self s :
  let r := generate_map w self s in
  let step := progress_step w self in
  let names := engine_stages w self s in
  let m := Z.of_nat (length names) in
  progress_reports (r_trace r) `prefix_of` all_reports step names
  /\ (forall msg, In (StatusSuccess msg) (r_trace r) ->
        progress_reports (r_trace r) = all_reports step names
        /\ (forall k v, progress_values (r_trace r) !! k = Some v <->
              ((k < length names)%nat /\ v = Z.of_nat k * step)
              \/ (k = length names /\ v = (m + 1) * step)
              \/ (k = S (length names) /\ v = (m + 2) * step))
        /\ (m + 2) * step <= 100
        /\ (0 < step ->
            forall k v, progress_values (r_trace r) !! k = Some v ->
                        k <> S (length names) -> v < (m + 2) * step)
        /\ (length names = components w (game_code self) ->
            100 - (m + 2) < (m + 2) * step)).
Proof.
  cbv zeta. destruct (generate_map_reports w self s) as [Hpre Hsucc].
  split; [exact Hpre|]. intros msg Hin.
  destruct (Hsucc msg Hin) as [Heq Hle]. split; [exact Heq|].
  unfold progress_values. rewrite Heq.
  split; [intros k v; apply all_values_lookup|]. split; [exact Hle|]. split.
  - intros Hstep k v Hk Hne. apply all_values_lookup in Hk.
    destruct Hk as [[Hk ->]|[[-> ->]|[-> _]]]; [nia | nia | congruence].
  - intros Hlen. unfold progress_step in *. rewrite Hlen.
    set (d := Z.of_nat (components w (game_code self)) + 2).
    assert (Hd : 0 < d) by (unfold d; lia).
    pose proof (Z.mod_pos_bound 100 d Hd) as Hmod.
    pose proof (Z.div_mod 100 d ltac:(lia)) as Hdiv. lia.
Qed.

Lemma progress_follows_fixed_steps_witness :
  let w := Sample.calm in
  let self := Sample.form true "45.0, 20.0" "2048x2048" in
  let r := generate_map w self Sample.fresh in
  In (StatusSuccess "Map generated in 12.345 seconds.") (r_trace r)
  /\ progress_values (r_trace r) = [0; 14; 28; 42; 56; 84; 98]
  /\ forall k v, progress_values (r_trace r) !! k = Some v ->
                 k <> 6%nat -> v < 98.
Proof.
  cbv zeta.
  assert (Hin : In (StatusSuccess "Map generated in 12.345 seconds.")
                  (r_trace (generate_map Sample.calm
                              (Sample.form true "45.0, 20.0" "2048x2048") Sample.fresh))).
  { vm_compute. tauto. }
  split; [exact Hin|]. split; [vm_compute; reflexivity|].
  destruct (progress_follows_fixed_steps Sample.calm
              (Sample.form true "45.0, 20.0" "2048x2048") Sample.fresh)
    as [_ H].
  destruct (H _ Hin) as (_ & _ & _ & Hmax & _).
  apply Hmax. vm_compute. reflexivity.
Defined.

(** C6: in every run the values handed to the progress bar are
    non-decreasing, and in a run that succeeds the last one is the
    maximum. *)
Theorem progress_is_monotone w self s :
  let r := generate_map w self s in
  Sorted Z.le (progress_values (r_trace r))
  /\ (forall msg, In (StatusSuccess msg) (r_trace r) ->
        forall v, In v (progress_values (r_trace r)) ->
                  v <= List.last (progress_values (r_trace r)) 0).
Proof.
  cbv zeta. destruct (generate_map_reports w self s) as [Hpre Hsucc].
  pose proof (all_values_sorted (progress_step w self) (engine_stages w self s)
                (progress_step_nonneg w self)) as Hsorted.
  split.
  - apply StronglySorted_Sorted. destruct Hpre as [rest Hrest].
    unfold progress_values. rewrite Hrest, map_app in Hsorted.
    apply StronglySorted_app_1_l in Hsorted. exact Hsorted.
  - intros msg Hin v Hv. destruct (Hsucc msg Hin) as [Heq _].
    unfold progress_values in *. rewrite Heq in *.
    unfold all_reports in *. rewrite map_app in *.
    cbn [map fst].
    match goal with |- _ <= List.last (?l ++ [?a; ?b]) _ =>
      change (l ++ [a; b]) with (l ++ [a] ++ [b]); rewrite app_assoc, last_last
    end.
    pose proof (progress_step_nonneg w self) as Hstep.
    apply in_app_or in Hv as [Hv|Hv].
    + apply list_elem_of_In, list_elem_of_lookup in Hv as [k Hk].
      apply stage_values_lookup in Hk as [Hk ->]. nia.
    + destruct Hv as [<-|[<-|[]]]; simpl; nia.
Qed.

Lemma progress_is_monotone_witness :
  let r := generate_map Sample.calm (Sample.form true "45.0, 20.0" "2048x2048")
             Sample.fresh in
  In (StatusSuccess "Map generated in 12.345 seconds.") (r_trace r)
  /\ Sorted Z.le (progress_values (r_trace r))
  /\ forall v, In v (progress_values (r_trace r)) ->
               v <= List.last (progress_values (r_trace r)) 0.
Proof.
  cbv zeta.
  assert (Hin : In (StatusSuccess "Map generated in 12.345 seconds.")
                  (r_trace (generate_map Sample.calm
                              (Sample.form true "45.0, 20.0" "2048x2048") Sample.fresh))).
  { vm_compute. tauto. }
  split; [exact Hin|].
  destruct (progress_is_monotone Sample.calm
              (Sample.form true "45.0, 20.0" "2048x2048") Sample.fresh) as [Hs Hl].
  split; [exact Hs | exact (Hl _ Hin)].
Defined.

(** ** Settings on a public deployment *)

Lemma limit_on_public_private self v :
  public self = false -> limit_on_public self v = Ok v.
Proof. unfold limit_on_public. intros ->. reflexivity. Qed.

Lemma limit_on_public_limits self (d bg tx : gmap string pyval) :
  public self = true ->
  d !! "BackgroundSettings" = Some (PDict bg) ->
  d !! "TextureSettings" = Some (PDict tx) ->
  limit_on_public self (PDict d)
  = Ok (PDict (<["TextureSettings" := PDict (<["dissolve" := PBool false]> tx)]>
                 (<["BackgroundSettings" := PDict (<["resize_factor" := PInt 8]> bg)]>
                    d))).
Proof.
  intros Hp Hbg Htx. unfold limit_on_public. rewrite Hp.
  cbn [negb Py.copy obind Py.getitem]. rewrite Hbg.
  cbn [obind Py.setitem Py.getitem].
  rewrite lookup_insert_ne by discriminate. rewrite Htx. reflexivity.
Qed.

Lemma routed_emits w self :
  emits (fun e => match e with MapInit mp => settings_routed w self mp | _ => True end)
    (generate_map w self).
Proof.
  unfold generate_map. apply emits_def, emits_bind.
  2: { intros job _.
       unfold generate_map_enqueue, generate_map_try, generate_map_except,
         generate_map_finally, progress.
       emits_with ltac:(exact I). }
  unfold generate_map_prepare.
  do 5 (apply emits_bind; [emits_with ltac:(exact I) | intros ? _]).
  apply emits_bind; [emits_with ltac:(exact I) | intros submitted Hsub].
  assert (Hs : submitted_settings w self = Ok submitted).
  { unfold submitted_settings. destruct (negb (expert_mode self)).
    - apply may_return_ret in Hsub. congruence.
    - apply may_return_guarded in Hsub. exact Hsub. }
  apply emits_bind; [emits_with ltac:(exact I) | intros limited Hl].
  apply may_return_lift in Hl.
  apply emits_bind; [emits_with ltac:(exact I) | intros all_settings Ha].
  apply may_return_call in Ha.
  apply emits_bind; [unfold load_schema; emits_with ltac:(exact I) | intros ? _].
  apply emits_bind; [unfold load_schema; emits_with ltac:(exact I) | intros ? _].
  apply emits_bind; [emits_with ltac:(exact I) | intros ? _].
  apply emits_bind; [emits_with ltac:(exact I) | intros background Hb].
  apply may_return_lift in Hb.
  apply emits_bind; [emits_with ltac:(exact I) | intros ? _].
  apply emits_bind; [emits_with ltac:(exact I) | intros ? _].
  apply emits_bind; [emits_with ltac:(exact I) | intros texture Ht].
  apply may_return_lift in Ht.
  apply emits_bind; [emits_with ltac:(exact I) | intros ? _].
  apply emits_bind; [|intros ? _; apply emits_ret].
  apply emits_call. exists submitted, limited, all_settings. auto.
Qed.

(** C9: on a public deployment [limit_on_public] returns the dictionary
    with [resize_factor] set to 8 in [BackgroundSettings] and [dissolve] set
    to [False] in [TextureSettings], every other field and category as it
    was; on a private one it returns its argument; and [generate_map] builds
    the [Map] only with settings that went through [limit_on_public]. *)
Theorem settings_limited_on_public self :
  (forall d bg tx : gmap string pyval,
     public self = true ->
     d !! "BackgroundSettings" = Some (PDict bg) ->
     d !! "TextureSettings" = Some (PDict tx) ->
     exists d' bg' tx' : gmap string pyval,
       limit_on_public self (PDict d) = Ok (PDict d')
       /\ d' !! "BackgroundSettings" = Some (PDict bg')
       /\ d' !! "TextureSettings" = Some (PDict tx')
       /\ bg' !! "resize_factor" = Some (PInt 8)
       /\ tx' !! "dissolve" = Some (PBool false)
       /\ (forall k, k <> "resize_factor" -> bg' !! k = bg !! k)
       /\ (forall k, k <> "dissolve" -> tx' !! k = tx !! k)
       /\ (forall k, k <> "BackgroundSettings" -> k <> "TextureSettings" ->
                     d' !! k = d !! k))
  /\ (forall v, public self = false -> limit_on_public self v = Ok v)
  /\ (forall w s mp, In (MapInit mp) (r_trace (generate_map w self s)) ->
                     settings_routed w self mp).
Proof.
  split; [|split].
  - intros d bg tx Hp Hbg Htx.
    eexists _, _, _. split; [apply (limit_on_public_limits self d bg tx Hp Hbg Htx)|].
    split; [rewrite lookup_insert_ne by discriminate; apply lookup_insert_eq|].
    split; [apply lookup_insert_eq|].
    split; [apply lookup_insert_eq|].
    split; [apply lookup_insert_eq|].
    split; [intros k Hk; apply lookup_insert_ne; congruence|].
    split; [intros k Hk; apply lookup_insert_ne; congruence|].
    intros k Hk1 Hk2. rewrite !lookup_insert_ne by congruence. reflexivity.
  - intros v. apply limit_on_public_private.
  - intros w s mp Hin. pose proof (routed_emits w self s) as H.
    rewrite Forall_forall in H. apply list_elem_of_In, H in Hin. exact Hin.
Qed.

(** ** The buttons of [add_left_widgets] *)

Lemma split_at_first {A : Type} (x : A) l1 : forall l2 pre post,
  ~ In x l1 -> pre ++ x :: post = l1 ++ l2 ->
  exists pre', pre = l1 ++ pre' /\ l2 = pre' ++ x :: post.
Proof.
  induction l1 as [|a l1 IH]; intros l2 pre post Hx H.
  - exists pre. split; [reflexivity | symmetry; exact H].
  - destruct pre as [|b pre]; simpl in H.
    + injection H as <- _. destruct Hx. left. reflexivity.
    + injection H as -> H.
      destruct (IH l2 pre post) as (pre' & -> & ->); [|exact H|].
      * intros Hin. apply Hx. right. exact Hin.
      * exists pre'. split; reflexivity.
Qed.

Lemma bind_get {A B} (field : state -> A) (f : A -> M B) s :
  bind (get field) f s = f (field s) s.
Proof. unfold bind; simpl. destruct (f (field s) s); reflexivity. Qed.

Section Widgets.
Variable w : World.
Variable self : GeneratorUI.

Lemma generate_map_emits : emits generate_map_event (generate_map w self).
Proof.
  unfold generate_map, generate_map_prepare, load_schema, generate_map_enqueue,
    generate_map_try, generate_map_except, generate_map_finally, progress.
  emits_with ltac:(exact I).
Qed.

(** The download section, case by case. *)
Lemma download_phase s :
  let r := add_left_widgets_download w s in
  (generated s = false /\ r = mk_result [] s (Next tt))
  \/ (generated s = true /\ download_path s = None
      /\ r_trace r = [debug_true] /\ exists e, r_ctl r = Raise e)
  \/ (generated s = true /\ exists p, download_path s = Some p
      /\ ((exists e, open_rb w p = Err e
                     /\ r = mk_result [debug_true; OpenFile p] s (Raise e))
          \/ (open_rb w p = Ok tt
              /\ r = mk_result
                       [debug_true; OpenFile p; DownloadButton (file_name_of p) p;
                        RemoveWithDelay p; debug_false]
                       (mk_state (Some p) false (scheduled_deletions s ++ [p]))
                       (Next tt)))).
Proof.
  cbv zeta. unfold add_left_widgets_download. rewrite bind_get.
  destruct (generated s) eqn:Hg; [|left; split; reflexivity].
  right. cbn [when]. rewrite bind_emit, bind_get.
  destruct (download_path s) as [p|] eqn:Hp.
  - right. split; [reflexivity|]. exists p. split; [reflexivity|].
    unfold open_. rewrite bind_bind.
    destruct (open_rb w p) as [[]|e].
    + right. split; [reflexivity|]. rewrite bind_call_ok, bind_ret, bind_emit.
      unfold remove_with_delay_without_blocking.
      rewrite bind_bind, bind_emit, bind_modify, bind_modify.
      cbn. rewrite Hp. reflexivity.
    + left. exists e. split; [reflexivity|]. rewrite bind_call_err. reflexivity.
  - left. repeat split. cbn. eauto.
Qed.


Lemma generate_section_emits :
  emits generate_section_event (add_left_widgets_generate w self).
Proof.
  unfold add_left_widgets_generate, st_button.
  apply emits_bind; [emits_with ltac:(exact I)|]. intros disabled _.
  apply emits_when, emits_bind; [emits_with ltac:(exact I)|]. intros clicked _.
  apply emits_when. eapply emits_weaken; [|apply generate_map_emits].
  intros [] H; try destruct H; exact I.
Qed.

Lemma no_return_def body : no_return (def_ body).
Proof. intros s. unfold def_. destruct (r_ctl (body s)) eqn:H; simpl; congruence. Qed.

Lemma generate_section_no_return : no_return (add_left_widgets_generate w self).
Proof.
  unfold add_left_widgets_generate, st_button, when.
  apply no_return_bind; [auto 20 with py_noreturn|]. intros disabled.
  destruct (negb (is_on_community_server w)); [|apply no_return_ret].
  apply no_return_bind; [auto with py_noreturn|]. intros clicked.
  destruct clicked; [apply no_return_def | apply no_return_ret].
Qed.

(** [add_left_widgets] as its two sections. *)
Lemma add_left_widgets_run s :
  let r := add_left_widgets w self s in
  let rg := add_left_widgets_generate w self s in
  match r_ctl rg with
  | Next _ =>
      let rd := add_left_widgets_download w (r_state rg) in
      r_trace r = r_trace rg ++ r_trace rd
      /\ r_state r = r_state rd
      /\ r_ctl r = r_ctl rd
  | Return => False
  | Raise e => r = mk_result (r_trace rg) (r_state rg) (Raise e)
  end.
Proof.
  cbv zeta. unfold add_left_widgets, def_. rewrite bind_run.
  pose proof (generate_section_no_return s) as Hnr.
  destruct (r_ctl (add_left_widgets_generate w self s)) as [[]| |e];
    [|congruence|reflexivity].
  cbv zeta. cbn [r_ctl r_trace r_state].
  destruct (download_phase (r_state (add_left_widgets_generate w self s)))
    as [[_ ->]|[(_ & _ & _ & e & He)|(_ & p & _ & [(e & _ & ->)|[_ ->]])]];
    try rewrite He; repeat split.
Qed.

End Widgets.

(** C8: wherever a run of [add_left_widgets] schedules the deletion of an
    archive, the download button for that archive was offered before; the
    call returns at once: the caller goes on to reset the session flag and
    ends normally, with the path handed to the timer. *)
Theorem deletion_scheduled_after_download_offered w self s pre post p :
  let r := add_left_widgets w self s in
  r_trace r = pre ++ RemoveWithDelay p :: post ->
  In (DownloadButton (file_name_of p) p) pre
  /\ post = [LoggerDebug "Generated was set to False in the session state."]
  /\ r_ctl r = Next tt
  /\ generated (r_state r) = false
  /\ In p (scheduled_deletions (r_state r)).
Proof.
  cbv zeta. intros Ht.
  pose proof (add_left_widgets_run w self s) as Hr. cbv zeta in Hr.
  pose proof (generate_section_emits w self s) as Hg.
  assert (Hno : ~ In (RemoveWithDelay p) (r_trace (add_left_widgets_generate w self s))).
  { intros Hin. rewrite Forall_forall in Hg. apply list_elem_of_In, Hg in Hin. exact Hin. }
  destruct (r_ctl (add_left_widgets_generate w self s)) as [[]| |e];
    [|destruct Hr|].
  2: { rewrite Hr in Ht. cbn [r_trace] in Ht. destruct Hno. rewrite Ht.
       apply in_or_app. right. left. reflexivity. }
  destruct Hr as (Htr & Hst & Hc). rewrite Htr in Ht. symmetry in Ht.
  apply split_at_first in Ht as (pre' & -> & Hd); [|exact Hno].
  rewrite Hst, Hc.
  destruct (download_phase w (r_state (add_left_widgets_generate w self s)))
    as [[_ Hrd]|[(_ & _ & Hrd & _)|(_ & q & _ & [(e & _ & Hrd)|[_ Hrd]])]];
    rewrite Hrd in *; cbn [r_trace r_state r_ctl] in *;
    unfold debug_true, debug_false in *.
  - destruct pre'; discriminate Hd.
  - destruct pre' as [|? [|? ?]]; discriminate Hd.
  - destruct pre' as [|? [|? [|? ?]]]; discriminate Hd.
  - destruct pre' as [|? [|? [|? [|? [|? [|? ?]]]]]]; try discriminate Hd.
    injection Hd as <- <- <- <- <-.
    split; [apply in_or_app; right; simpl; tauto|].
    split; [reflexivity|]. split; [reflexivity|]. split; [reflexivity|].
    cbn. apply in_or_app. right. left. reflexivity.
Qed.

Lemma download_section_emits w :
  emits download_section_event (add_left_widgets_download w).
Proof.
  unfold add_left_widgets_download, open_, remove_with_delay_without_blocking.
  emits_with ltac:(exact I).
  match goal with |- emits _ (match ?x with _ => _ end) => destruct x end;
    emits_with ltac:(exact I).
Qed.

Lemma add_left_widgets_trace w self s :
  exists rest,
    r_trace (add_left_widgets w self s)
    = r_trace (add_left_widgets_generate w self s) ++ rest
    /\ Forall download_section_event rest.
Proof.
  pose proof (add_left_widgets_run w self s) as Hr. cbv zeta in Hr.
  destruct (r_ctl (add_left_widgets_generate w self s)) as [[]| |e];
    [|destruct Hr|].
  - destruct Hr as (-> & _ & _). eexists. split; [reflexivity|].
    apply download_section_emits.
  - rewrite Hr. exists []. rewrite app_nil_r. split; [reflexivity | constructor].
Qed.

Lemma generate_section_public w self s len :
  public self = true -> get_queue_length w = Ok len ->
  exists rest,
    r_trace (add_left_widgets_generate w self s) = GetQueueLength :: rest
    /\ Forall (after_admission_event w len) rest
    /\ (is_on_community_server w = false ->
        In (Button "Generate" (QUEUE_LIMIT <=? len)) rest).
Proof.
  intros Hp Hlen. unfold add_left_widgets_generate. rewrite Hp, Hlen.
  rewrite bind_bind, bind_call_ok. cbn [r_trace]. eexists. split; [reflexivity|].
  split.
  - match goal with |- Forall _ (r_trace (?m s)) =>
      cut (emits (after_admission_event w len) m); [intros H; apply H|]
    end.
    apply emits_bind.
    { destruct (QUEUE_LIMIT <=? len); emits_with ltac:(exact I). }
    intros disabled Hd.
    assert (disabled = (QUEUE_LIMIT <=? len)) as ->.
    { destruct (QUEUE_LIMIT <=? len).
      - apply may_return_bind in Hd as (? & _ & Hd). apply may_return_ret, Hd.
      - apply may_return_ret, Hd. }
    destruct (is_on_community_server w) eqn:Hcs; [apply emits_ret|].
    cbn [negb when]. unfold st_button.
    apply emits_bind.
    { apply emits_bind; [apply emits_emit; simpl; auto | intros; apply emits_ret]. }
    intros clicked _. apply emits_when.
    eapply emits_weaken; [|apply generate_map_emits].
    intros [] H; try destruct H; exact I.
  - intros Hcs. rewrite Hcs. cbn [negb when]. unfold st_button.
    destruct (QUEUE_LIMIT <=? len); run;
      [right; left; reflexivity | left; reflexivity].
Qed.

(** Lines 396-405 on their own, for an object with the public flag set:
    [QUEUE_LIMIT] is 2; with a queue of length [len] the enabled "Generate"
    button is offered if and only if the page is not on the community
    server and [len < QUEUE_LIMIT]; a button that is shown is disabled
    exactly when the test fails; the queue length is read once, first, and
    is not read again when the session is enqueued. The whole method does
    not get this far on a public deployment: see the last section. *)
Lemma admission_gate w self s len :
  public self = true ->
  get_queue_length w = Ok len ->
  let r := add_left_widgets w self s in
  QUEUE_LIMIT = 2
  /\ (In (Button "Generate" false) (r_trace r)
      <-> is_on_community_server w = false /\ admission len QUEUE_LIMIT = true)
  /\ (forall label disabled, In (Button label disabled) (r_trace r) ->
        disabled = negb (admission len QUEUE_LIMIT))
  /\ (exists rest, r_trace r = GetQueueLength :: rest /\ ~ In GetQueueLength rest).
Proof.
  intros Hp Hlen. cbv zeta.
  destruct (add_left_widgets_trace w self s) as (td & -> & Hd).
  destruct (generate_section_public w self s len Hp Hlen) as (tg & -> & Hg & Hb).
  assert (Hadm : (QUEUE_LIMIT <=? len) = negb (admission len QUEUE_LIMIT)).
  { unfold admission. rewrite Z.ltb_antisym, negb_involutive. reflexivity. }
  assert (Hbutton : forall label disabled,
            In (Button label disabled) ((GetQueueLength :: tg) ++ td) ->
            label = "Generate" /\ disabled = (QUEUE_LIMIT <=? len)
            /\ is_on_community_server w = false).
  { intros label disabled Hin. apply in_app_or in Hin as [[Hin|Hin]|Hin].
    - discriminate Hin.
    - rewrite Forall_forall in Hg. apply list_elem_of_In, Hg in Hin. exact Hin.
    - rewrite Forall_forall in Hd. apply list_elem_of_In, Hd in Hin. destruct Hin. }
  split; [reflexivity|]. split; [|split].
  - split.
    + intros Hin. apply Hbutton in Hin as (_ & Hdis & Hcs).
      split; [exact Hcs|]. rewrite Hadm in Hdis.
      destruct (admission len QUEUE_LIMIT); [reflexivity | discriminate].
    + intros [Hcs Hok]. apply in_or_app. left. right.
      specialize (Hb Hcs). rewrite Hadm, Hok in Hb. exact Hb.
  - intros label disabled Hin. apply Hbutton in Hin as (_ & -> & _). exact Hadm.
  - exists (tg ++ td). split; [reflexivity|]. intros Hin.
    apply in_app_or in Hin as [Hin|Hin].
    + rewrite Forall_forall in Hg. apply list_elem_of_In, Hg in Hin. exact Hin.
    + rewrite Forall_forall in Hd. apply list_elem_of_In, Hd in Hin. exact Hin.
Qed.

(** ** Release of the queue slot and failure reports *)

Lemma count_pos f x t : In x t -> f x = true -> (0 < count f t)%nat.
Proof.
  intros Hin Hf. apply in_split in Hin as (l1 & l2 & ->).
  rewrite count_app, count_cons, Hf. lia.
Qed.

Section Release.
Variable w : World.
Variable self : GeneratorUI.

(** Where the wait completes, the [finally] clause releases the slot: one
    call to [remove_from_queue], for the session that was enqueued. *)
Lemma release_once_when_wait_completes s name :
  In (AddToQueue name) (r_trace (generate_map w self s)) ->
  add_to_queue w name = Ok tt ->
  finish (wait_in_queue w name) = None ->
  count (is_dequeue_of name) (r_trace (generate_map w self s)) = 1%nat
  /\ count is_dequeue (r_trace (generate_map w self s)) = 1%nat.
Proof.
  intros Hin Hadd Hwait.
  pose proof (generate_map_run w self s) as Hr. cbv zeta in Hr.
  pose proof (prepare_emits w self s) as Hpe.
  assert (Hnp : forall n, ~ In (AddToQueue n) (r_trace (generate_map_prepare w self s))).
  { intros n H. rewrite Forall_forall in Hpe. apply list_elem_of_In, Hpe in H. exact H. }
  destruct (r_ctl (generate_map_prepare w self s)) as [job| |e] eqn:Hp.
  2,3: rewrite Hr in Hin; destruct (Hnp _ Hin).
  destruct (enqueue_phase w self (fst job) s) as (_ & _ & Hq & Hcnt & _ & Hnext).
  assert (Hname : In (AddToQueue name) (r_trace (generate_map_enqueue w self (fst job) s))
                  -> name = fst job /\ public self = true).
  { intros H. split.
    - rewrite Forall_forall in Hq. apply list_elem_of_In, Hq in H. exact H.
    - apply (count_pos is_enqueue) in H; [|reflexivity].
      destruct (public self); [reflexivity | lia]. }
  assert (Hin' : In (AddToQueue name) (r_trace (generate_map_enqueue w self (fst job) s))).
  { destruct (r_ctl (generate_map_enqueue w self (fst job) s)) as [[]| |e];
      [|destruct Hr|].
    - destruct Hr as (Ht & _). rewrite Ht in Hin.
      apply in_app_or in Hin as [Hin|Hin]; [destruct (Hnp _ Hin)|].
      apply in_app_or in Hin as [Hin|Hin]; [exact Hin|]. exfalso.
      apply in_app_or in Hin as [Hin|Hin].
      { pose proof (try_emits w self (fst job) (snd job) s) as H.
        rewrite Forall_forall in H. apply list_elem_of_In, H in Hin. exact Hin. }
      apply in_app_or in Hin as [Hin|Hin].
      { pose proof (failure_report_events
                      (r_ctl (generate_map_try w self (fst job) (snd job) s))) as H.
        rewrite Forall_forall in H. apply list_elem_of_In, H in Hin. exact Hin. }
      pose proof (finally_events w self (fst job)
                    (r_state (generate_map_try w self (fst job) (snd job) s))) as H.
      rewrite Forall_forall in H. apply list_elem_of_In, H in Hin. exact Hin.
    - rewrite Hr in Hin. cbn [r_trace] in Hin.
      apply in_app_or in Hin as [Hin|Hin]; [destruct (Hnp _ Hin) | exact Hin]. }
  destruct (Hname Hin') as [-> Hpub].
  assert (Hc : r_ctl (generate_map_enqueue w self (fst job) s) = Next tt).
  { apply Hnext. right. split; assumption. }
  rewrite Hc in Hr. destruct Hr as (-> & _ & _).
  rewrite finally_phase, Hpub. cbn [r_trace].
  assert (H0 : forall f, (forall e, is_dequeue e = false -> f e = false) ->
     count f (r_trace (generate_map_prepare w self s)
              ++ r_trace (generate_map_enqueue w self (fst job) s)
              ++ r_trace (generate_map_try w self (fst job) (snd job) s)
              ++ failure_report (r_ctl (generate_map_try w self (fst job) (snd job) s))
              ++ [RemoveFromQueue (fst job)])
     = count f [RemoveFromQueue (fst job)]).
  { intros f Hf. rewrite !count_app.
    rewrite (count_none prepare_event f _ Hpe)
      by (intros [] H; try destruct H; apply Hf; reflexivity).
    rewrite (count_none (enqueue_event (fst job)) f _ Hq)
      by (intros [] H; try destruct H; apply Hf; reflexivity).
    rewrite (count_none try_event f _ (try_emits w self (fst job) (snd job) s))
      by (intros [] H; try destruct H; apply Hf; reflexivity).
    rewrite (count_none _ f _ (failure_report_events _))
      by (intros [] H; try destruct H; apply Hf; reflexivity).
    reflexivity. }
  split.
  - rewrite H0 by (intros [] H; try discriminate H; reflexivity).
    rewrite count_cons. cbn [is_dequeue_of]. rewrite String.eqb_refl. reflexivity.
  - rewrite H0 by (intros e H; exact H). reflexivity.
Qed.

End Release.

(** C1 (exactly-once release), at the input where the code misses it: on a
    public deployment the session is enqueued, the wait raises after the
    first position, and the run ends with that exception and without any
    call to [remove_from_queue]: the wait of lines 541-544 stands before the
    [try] whose [finally] releases the slot. *)
Theorem release_skipped_when_wait_raises :
  let r := generate_map Sample.wait_fails valid_form Sample.fresh in
  let session_name := "FS25_45_00000_20_00000_2025-01-01_12-00-00" in
  In (AddToQueue session_name) (r_trace r)
  /\ count is_dequeue (r_trace r) = 0%nat
  /\ r_ctl r = Raise Sample.queue_read_error.
Proof.
  cbv zeta. split; [vm_compute; tauto|]. split; vm_compute; reflexivity.
Qed.

Section Release2.
Variable w : World.
Variable self : GeneratorUI.

(** Where the wait raises, the run ends before the [try]: no release. *)
Lemma no_release_when_wait_raises s name e :
  In (AddToQueue name) (r_trace (generate_map w self s)) ->
  finish (wait_in_queue w name) = Some e ->
  count is_dequeue (r_trace (generate_map w self s)) = 0%nat
  /\ exists e', r_ctl (generate_map w self s) = Raise e'.
Proof.
  intros Hin Hwait.
  destruct (generate_map_trace w self s) as (rest & Ht & _ & Hjob).
  pose proof (prepare_emits w self s) as Hpe.
  destruct rest as [|ev rest].
  { rewrite Ht, app_nil_r in Hin. rewrite Forall_forall in Hpe.
    apply list_elem_of_In, Hpe in Hin. destruct Hin. }
  destruct Hjob as [job Hp]; [discriminate|]. clear Ht.
  pose proof (generate_map_run w self s) as Hr. cbv zeta in Hr. rewrite Hp in Hr.
  destruct (enqueue_phase w self (fst job) s) as (_ & _ & Hq & Hcnt & _ & Hnext).
  destruct (r_ctl (generate_map_enqueue w self (fst job) s)) as [[]| |e'] eqn:Hc;
    [|destruct Hr|].
  - exfalso. destruct Hr as (Ht & _). rewrite Ht in Hin.
    assert (Hin' : In (AddToQueue name)
                     (r_trace (generate_map_enqueue w self (fst job) s))).
    { apply in_app_or in Hin as [Hin|Hin].
      { rewrite Forall_forall in Hpe. apply list_elem_of_In, Hpe in Hin. destruct Hin. }
      apply in_app_or in Hin as [Hin|Hin]; [exact Hin|]. exfalso.
      apply in_app_or in Hin as [Hin|Hin].
      { pose proof (try_emits w self (fst job) (snd job) s) as H.
        rewrite Forall_forall in H. apply list_elem_of_In, H in Hin. exact Hin. }
      apply in_app_or in Hin as [Hin|Hin].
      { pose proof (failure_report_events
                      (r_ctl (generate_map_try w self (fst job) (snd job) s))) as H.
        rewrite Forall_forall in H. apply list_elem_of_In, H in Hin. exact Hin. }
      pose proof (finally_events w self (fst job)
                    (r_state (generate_map_try w self (fst job) (snd job) s))) as H.
      rewrite Forall_forall in H. apply list_elem_of_In, H in Hin. exact Hin. }
    assert (name = fst job) as ->.
    { rewrite Forall_forall in Hq. apply list_elem_of_In, Hq in Hin'. exact Hin'. }
    apply (count_pos is_enqueue) in Hin'; [|reflexivity].
    destruct (proj1 Hnext eq_refl) as [Hpub|[_ Hfin]].
    + rewrite Hpub in Hcnt. lia.
    + congruence.
  - rewrite Hr. cbn [r_trace r_ctl]. split; [|eauto].
    rewrite count_app.
    rewrite (count_none prepare_event is_dequeue _ Hpe)
      by (intros [] H; try destruct H; reflexivity).
    rewrite (count_none (enqueue_event (fst job)) is_dequeue _ Hq)
      by (intros [] H; try destruct H; reflexivity).
    reflexivity.
Qed.

End Release2.

(** C2, as the code has it: when the form was prepared, the queue phase
    ended normally and the body of the [try] (engine stages, previews,
    packing) raises an exception [e] of class [Exception], then the single
    [except] clause logs it once and shows one error message that contains
    [repr(e)], the slot is released, and [generate_map] returns normally
    (provided [remove_from_queue] itself does not raise). *)
Theorem failure_in_try_is_reported w self s name mp e :
  r_ctl (generate_map_prepare w self s) = Next (name, mp) ->
  r_ctl (generate_map_enqueue w self name s) = Next tt ->
  r_ctl (generate_map_try w self name mp s) = Raise e ->
  isinstance_Exception e = true ->
  (public self = true -> remove_from_queue w name = Ok tt) ->
  let r := generate_map w self s in
  r_ctl r = Next tt
  /\ (exists before,
        r_trace r
        = before
          ++ [LoggerError ("An error occurred while generating the map: "
                             +:+ exn_repr e);
              StatusError ("An error occurred while generating the map: "
                             +:+ exn_repr e +:+ ".")]
          ++ (if public self then [RemoveFromQueue name] else []))
  /\ count is_logger_error (r_trace r) = 1%nat
  /\ count is_status_error (r_trace r) = 1%nat.
Proof.
  intros Hp Hq Ht He Hrel. cbv zeta.
  pose proof (generate_map_run w self s) as Hr. cbv zeta in Hr.
  rewrite Hp in Hr. cbn [fst snd] in Hr. rewrite Hq, Ht in Hr.
  cbn [failure_report after_except] in Hr. rewrite He in Hr.
  rewrite finally_phase in Hr. destruct Hr as (Htr & _ & Hc).
  pose proof (prepare_emits w self s) as Hpe.
  destruct (enqueue_phase w self name s) as (_ & _ & Hqe & _).
  pose proof (try_emits w self name mp s) as Hte.
  assert (Hfin : r_trace (if public self
                          then mk_result [RemoveFromQueue name]
                                 (r_state (generate_map_try w self name mp s))
                                 match remove_from_queue w name with
                                 | Ok _ => Next tt
                                 | Err e => Raise e
                                 end
                          else mk_result []
                                 (r_state (generate_map_try w self name mp s)) (Next tt))
                 = if public self then [RemoveFromQueue name] else []).
  { destruct (public self); reflexivity. }
  rewrite Hfin in Htr. split; [|split; [|split]].
  - rewrite Hc. destruct (public self); [|reflexivity].
    rewrite Hrel by reflexivity. reflexivity.
  - rewrite Htr.
    exists (r_trace (generate_map_prepare w self s)
            ++ r_trace (generate_map_enqueue w self name s)
            ++ r_trace (generate_map_try w self name mp s)).
    rewrite <- (app_assoc (r_trace (generate_map_prepare w self s))),
      <- (app_assoc (r_trace (generate_map_enqueue w self name s))).
    reflexivity.
  - rewrite Htr, !count_app.
    rewrite (count_none prepare_event is_logger_error _ Hpe)
      by (intros [] H; try destruct H; reflexivity).
    rewrite (count_none (enqueue_event name) is_logger_error _ Hqe)
      by (intros [] H; try destruct H; reflexivity).
    rewrite (count_none try_event is_logger_error _ Hte)
      by (intros [] H; try destruct H; reflexivity).
    destruct (public self); reflexivity.
  - rewrite Htr, !count_app.
    rewrite (count_none prepare_event is_status_error _ Hpe)
      by (intros [] H; try destruct H; reflexivity).
    rewrite (count_none (enqueue_event name) is_status_error _ Hqe)
      by (intros [] H; try destruct H; reflexivity).
    rewrite (count_none try_event is_status_error _ Hte)
      by (intros [] H; try destruct H; reflexivity).
    destruct (public self); reflexivity.
Qed.

Lemma failure_in_try_is_reported_witness :
  let r := generate_map Sample.engine_fails valid_form Sample.fresh in
  isinstance_Exception Sample.engine_error = true
  /\ r_ctl r = Next tt
  /\ In (StatusError
           "An error occurred while generating the map: RuntimeError('DEM tile download failed').")
        (r_trace r)
  /\ count is_status_error (r_trace r) = 1%nat.
Proof.
  cbv zeta. split; [reflexivity|].
  destruct (r_ctl (generate_map_prepare Sample.engine_fails valid_form Sample.fresh))
    as [[name mp]| |] eqn:Hp; [|vm_compute in Hp; discriminate Hp..].
  assert (Hname : name = "FS25_45_00000_20_00000_2025-01-01_12-00-00").
  { vm_compute in Hp. injection Hp as <- _. reflexivity. }
  assert (Hgen : generate Sample.engine_fails mp
                 = mk_generator ["Texture"; "GRLE"] (Some Sample.engine_error))
    by reflexivity.
  destruct (failure_in_try_is_reported Sample.engine_fails valid_form Sample.fresh
              name mp Sample.engine_error Hp) as (Hc & (before & Ht) & _ & Hn).
  - rewrite Hname. vm_compute. reflexivity.
  - unfold generate_map_try, for_in. rewrite Hgen. vm_compute. reflexivity.
  - reflexivity.
  - intros _. reflexivity.
  - split; [exact Hc|]. split; [|exact Hn].
    rewrite Ht. apply in_or_app. right. right. left. reflexivity.
Defined.

(** C2 as stated fails: on a public deployment a raw configuration [{}]
    makes [limit_on_public] raise [KeyError], outside every [try], and the
    exception leaves [generate_map]. *)
Lemma exception_escapes_generate_map :
  r_ctl (generate_map Sample.calm form_empty_config Sample.fresh)
  = Raise (mk_exn KeyError "KeyError('BackgroundSettings')").
Proof. vm_compute. reflexivity. Qed.

(** ** Coordinates out of range *)

(** A run on a public deployment that builds the [Map] calls
    [add_to_queue] for the session. *)
Lemma built_map_is_enqueued w self s name mp :
  public self = true ->
  r_ctl (generate_map_prepare w self s) = Next (name, mp) ->
  In (AddToQueue name) (r_trace (generate_map w self s)).
Proof.
  intros Hp Hj. pose proof (generate_map_run w self s) as Hr. cbv zeta in Hr.
  rewrite Hj in Hr. cbn [fst snd] in Hr.
  destruct (enqueue_phase w self name s) as (_ & _ & _ & _ & Hin & _).
  specialize (Hin Hp).
  destruct (r_ctl (generate_map_enqueue w self name s)) as [[]| |e];
    [destruct Hr as (-> & _) | destruct Hr | rewrite Hr; cbn [r_trace]];
    apply in_or_app; right; try (apply in_or_app; left); exact Hin.
Qed.

(** C3, as the code has it: the text "91,0" is read as the two floats 91.0
    and 0.0, no range is checked, and no run reports "Invalid latitude and
    longitude!" for it; a run that reports an inline error of a later check
    makes no call that changes the queue, and a run on a public deployment
    that builds the [Map] calls [add_to_queue]. *)
Theorem latitude_91_is_accepted w self s :
  lat_lon_input self = "91,0" ->
  obind (lat_lon self) Py.unpack2 = Ok (FFinite false 91 0, FFinite false 0 0)
  /\ ~ In (StError "Invalid latitude and longitude!")
         (r_trace (generate_map w self s))
  /\ (forall msg, In (StError msg) (r_trace (generate_map w self s)) ->
        count queue_mutation (r_trace (generate_map w self s)) = 0%nat)
  /\ (public self = true ->
      forall name mp,
        r_ctl (generate_map_prepare w self s) = Next (name, mp) ->
        In (AddToQueue name) (r_trace (generate_map w self s))).
Proof.
  intros Hin.
  assert (Hc : obind (lat_lon self) Py.unpack2
               = Ok (FFinite false 91 0, FFinite false 0 0)).
  { unfold lat_lon. rewrite Hin. reflexivity. }
  split; [exact Hc|]. split; [|split; [intros msg; apply inline_error_keeps_queue|]].
  2: { intros Hp name mp. apply built_map_is_enqueued, Hp. }
  assert (H : emits (fun e => e <> StError "Invalid latitude and longitude!")
                (generate_map w self)).
  { unfold generate_map, generate_map_prepare. rewrite Hc.
    apply emits_def, emits_bind.
    - apply emits_bind_guarded_ok. unfold load_schema.
      emits_with ltac:(simpl; discriminate).
    - intros job _.
      unfold generate_map_enqueue, generate_map_try, generate_map_except,
        generate_map_finally, progress.
      emits_with ltac:(simpl; discriminate). }
  intros Hi. specialize (H s). rewrite Forall_forall in H.
  apply list_elem_of_In, H in Hi. congruence.
Qed.

Lemma latitude_91_is_accepted_witness :
  lat_lon_input form_91 = "91,0"
  /\ obind (lat_lon form_91) Py.unpack2
     = Ok (FFinite false 91 0, FFinite false 0 0)
  /\ ~ In (StError "Invalid latitude and longitude!")
         (r_trace (generate_map Sample.calm form_91 Sample.fresh)).
Proof.
  split; [reflexivity|].
  destruct (latitude_91_is_accepted Sample.calm form_91 Sample.fresh eq_refl)
    as (Hparsed & Hquiet & _).
  split; [exact Hparsed | exact Hquiet].
Defined.

(** C3 as stated fails: with a valid size on a public deployment the form
    with "91,0" reports no inline error, is enqueued and generated. *)
Lemma latitude_91_is_enqueued :
  let r := generate_map Sample.calm form_91 Sample.fresh in
  count is_inline_error (r_trace r) = 0%nat
  /\ In (AddToQueue "FS25_91_00000_0_00000_2025-01-01_12-00-00") (r_trace r)
  /\ In (StatusSuccess "Map generated in 12.345 seconds.") (r_trace r).
Proof.
  cbv zeta. split; [vm_compute; reflexivity|]. split; vm_compute; tauto.
Qed.

Lemma admission_gate_witness :
  public valid_form = true
  /\ get_queue_length Sample.calm = Ok 1
  /\ In (Button "Generate" false)
       (r_trace (add_left_widgets Sample.calm valid_form Sample.fresh)).
Proof.
  split; [reflexivity|]. split; [reflexivity|].
  destruct (admission_gate Sample.calm valid_form Sample.fresh 1 eq_refl eq_refl)
    as (_ & Hoffered & _).
  apply Hoffered. split; reflexivity.
Defined.

(** Line 403 is a further guard of the section: on the community server
    the queue is empty and yet no button is offered. *)
Lemma start_not_offered_on_community_server :
  public valid_form = true
  /\ get_queue_length community_server = Ok 0
  /\ admission 0 QUEUE_LIMIT = true
  /\ r_trace (add_left_widgets community_server valid_form Sample.fresh)
     = [GetQueueLength].
Proof. repeat split; vm_compute; reflexivity. Qed.

Lemma deletion_scheduled_after_download_offered_witness :
  let r := add_left_widgets Sample.calm valid_form Sample.fresh in
  let archive := "archives/FS25_45_00000_20_00000_2025-01-01_12-00-00.zip" in
  r_trace r
  = firstn 26 (r_trace r) ++ RemoveWithDelay archive
      :: [LoggerDebug "Generated was set to False in the session state."]
  /\ In (DownloadButton "FS25_45_00000_20_00000_2025-01-01_12-00-00.zip" archive)
       (firstn 26 (r_trace r))
  /\ r_ctl r = Next tt.
Proof.
  cbv zeta.
  assert (H : r_trace (add_left_widgets Sample.calm valid_form Sample.fresh)
              = firstn 26 (r_trace (add_left_widgets Sample.calm valid_form Sample.fresh))
                ++ RemoveWithDelay "archives/FS25_45_00000_20_00000_2025-01-01_12-00-00.zip"
                :: [LoggerDebug "Generated was set to False in the session state."]).
  { vm_compute. reflexivity. }
  split; [exact H|].
  destruct (deletion_scheduled_after_download_offered Sample.calm valid_form
              Sample.fresh _ _ _ H) as (Hd & _ & Hc & _).
  split; [exact Hd | exact Hc].
Defined.

Lemma settings_limited_on_public_witness :
  public valid_form = true
  /\ Sample.settings_map !! "BackgroundSettings" = Some (PDict Sample.background_fields)
  /\ Sample.settings_map !! "TextureSettings" = Some (PDict Sample.texture_fields)
  /\ Sample.background_fields !! "resize_factor" = Some (PInt 2)
  /\ Sample.texture_fields !! "dissolve" = Some (PBool true)
  /\ exists d' bg' tx' : gmap string pyval,
       limit_on_public valid_form (PDict Sample.settings_map) = Ok (PDict d')
       /\ d' !! "BackgroundSettings" = Some (PDict bg')
       /\ d' !! "TextureSettings" = Some (PDict tx')
       /\ bg' !! "resize_factor" = Some (PInt 8)
       /\ tx' !! "dissolve" = Some (PBool false).
Proof.
  assert (Hb : Sample.settings_map !! "BackgroundSettings"
               = Some (PDict Sample.background_fields)) by (vm_compute; reflexivity).
  assert (Ht : Sample.settings_map !! "TextureSettings"
               = Some (PDict Sample.texture_fields)) by (vm_compute; reflexivity).
  split; [reflexivity|]. split; [exact Hb|]. split; [exact Ht|].
  split; [vm_compute; reflexivity|]. split; [vm_compute; reflexivity|].
  destruct (proj1 (settings_limited_on_public valid_form) Sample.settings_map
              Sample.background_fields Sample.texture_fields eq_refl Hb Ht)
    as (d' & bg' & tx' & H1 & H2 & H3 & H4 & H5 & _).
  exists d', bg', tx'. auto.
Defined.

(** * Properties of the rest of the page *)


(** ** What [limit_on_public] accepts and what it changes *)

Lemma limit_on_public_ok_inv self v v' :
  public self = true ->
  limit_on_public self v = Ok v' ->
  exists d bg tx : gmap string pyval,
    v = PDict d
    /\ d !! "BackgroundSettings" = Some (PDict bg)
    /\ d !! "TextureSettings" = Some (PDict tx)
    /\ v' = PDict (<["TextureSettings" := PDict (<["dissolve" := PBool false]> tx)]>
                     (<["BackgroundSettings" := PDict (<["resize_factor" := PInt 8]> bg)]>
                        d)).
Proof.
  intros Hp. unfold limit_on_public. rewrite Hp. cbn [negb].
  destruct v as [| | | | |l|d]; try discriminate.
  cbn [Py.copy obind Py.getitem].
  destruct (d !! "BackgroundSettings") as [[| | | | | |bg]|] eqn:Hbg; try discriminate.
  cbn [obind Py.setitem Py.getitem].
  rewrite lookup_insert_ne by discriminate.
  destruct (d !! "TextureSettings") as [[| | | | | |tx]|] eqn:Htx; try discriminate.
  cbn [obind Py.setitem]. intros [= <-]. eauto 10.
Qed.

(** X1: on a public deployment [limit_on_public] returns exactly on a
    dictionary whose entries [BackgroundSettings] and [TextureSettings] are
    dictionaries. On every other dictionary it raises: [KeyError] when
    [BackgroundSettings] is missing, [TypeError] when it is present and not
    a dictionary; and, [BackgroundSettings] being a dictionary, [KeyError]
    when [TextureSettings] is missing and [TypeError] when it is not a
    dictionary. *)
Theorem limit_on_public_returns_iff self v :
  public self = true ->
  ((exists v', limit_on_public self v = Ok v')
   <-> exists d bg tx : gmap string pyval,
         v = PDict d
         /\ d !! "BackgroundSettings" = Some (PDict bg)
         /\ d !! "TextureSettings" = Some (PDict tx))
  /\ (forall d : gmap string pyval,
        v = PDict d ->
        match d !! "BackgroundSettings", d !! "TextureSettings" with
        | None, _ => limit_raises self v KeyError
        | Some (PDict _), None => limit_raises self v KeyError
        | Some (PDict _), Some (PDict _) => exists v', limit_on_public self v = Ok v'
        | Some (PDict _), Some _ => limit_raises self v TypeError
        | Some _, _ => limit_raises self v TypeError
        end).
Proof.
  intros Hp. split.
  - split.
    + intros [v' H]. destruct (limit_on_public_ok_inv self v v' Hp H)
        as (d & bg & tx & -> & Hbg & Htx & _). eauto 10.
    + intros (d & bg & tx & -> & Hbg & Htx).
      rewrite (limit_on_public_limits self d bg tx Hp Hbg Htx). eauto.
  - intros d ->. unfold limit_raises, limit_on_public. rewrite Hp.
    cbn [negb Py.copy obind Py.getitem].
    destruct (d !! "BackgroundSettings") as [[| | | | | |bg]|] eqn:Hbg;
      cbn [obind Py.setitem Py.getitem];
      try (eexists; split; [reflexivity|reflexivity]).
    rewrite lookup_insert_ne by discriminate.
    destruct (d !! "TextureSettings") as [[| | | | | |tx]|] eqn:Htx;
      cbn [obind Py.setitem Py.getitem];
      first [eexists; split; reflexivity | eexists; reflexivity].
Qed.

(** X2: limiting settings that [limit_on_public] has returned changes
    nothing. *)
Theorem limit_on_public_idempotent self v v' :
  limit_on_public self v = Ok v' -> limit_on_public self v' = Ok v'.
Proof.
  destruct (public self) eqn:Hp.
  - intros H. destruct (limit_on_public_ok_inv self v v' Hp H)
      as (d & bg & tx & -> & Hbg & Htx & ->).
    erewrite limit_on_public_limits; [|exact Hp| |].
    2: { rewrite lookup_insert_ne by discriminate. apply lookup_insert_eq. }
    2: { apply lookup_insert_eq. }
    rewrite !insert_insert_eq. do 2 f_equal. apply map_eq. intros k.
    destruct (decide (k = "TextureSettings")) as [->|Hk1];
      [|destruct (decide (k = "BackgroundSettings")) as [->|Hk2]];
      repeat first [rewrite lookup_insert_eq
                   |rewrite lookup_insert_ne by congruence];
      reflexivity.
  - unfold limit_on_public. rewrite Hp. intros [= <-]. reflexivity.
Qed.

(** X3: a field whose value [limit_on_public] changes is one that
    [is_disabled_on_public] reports as disabled in the form: [resize_factor]
    of [BackgroundSettings], then 8, or [dissolve] of [TextureSettings], then
    [False]. *)
Theorem limited_fields_are_disabled self v v' category field :
  limit_on_public self v = Ok v' ->
  setting v' category field <> setting v category field ->
  is_disabled_on_public self field = true
  /\ (category = "BackgroundSettings" /\ field = "resize_factor"
        /\ setting v' category field = Some (PInt 8)
      \/ category = "TextureSettings" /\ field = "dissolve"
           /\ setting v' category field = Some (PBool false)).
Proof.
  destruct (public self) eqn:Hp.
  2: { unfold limit_on_public. rewrite Hp. intros [= <-] H. destruct H. reflexivity. }
  intros H Hne. destruct (limit_on_public_ok_inv self v v' Hp H)
    as (d & bg & tx & -> & Hbg & Htx & ->).
  unfold is_disabled_on_public. rewrite Hp. cbn [negb].
  unfold setting in *.
  destruct (decide (category = "TextureSettings")) as [->|Hc1].
  - rewrite lookup_insert_eq, Htx in *.
    destruct (decide (field = "dissolve")) as [->|Hf].
    + split; [reflexivity|]. right. rewrite lookup_insert_eq. auto.
    + rewrite lookup_insert_ne in Hne by congruence. destruct Hne. reflexivity.
  - rewrite lookup_insert_ne in * by congruence.
    destruct (decide (category = "BackgroundSettings")) as [->|Hc2].
    + rewrite lookup_insert_eq, Hbg in *.
      destruct (decide (field = "resize_factor")) as [->|Hf].
      * split; [reflexivity|]. left. rewrite lookup_insert_eq. auto.
      * rewrite lookup_insert_ne in Hne by congruence. destruct Hne. reflexivity.
    + rewrite lookup_insert_ne in Hne by congruence. destruct Hne. reflexivity.
Qed.

(** *** Instances *)

Lemma limit_on_public_returns_iff_witness :
  public valid_form = true
  /\ (exists v', limit_on_public valid_form Sample.form_settings = Ok v')
  /\ limit_raises valid_form (PDict ∅) KeyError
  /\ limit_raises valid_form (PDict {["BackgroundSettings" := PInt 5]}) TypeError.
Proof.
  split; [reflexivity|].
  destruct (limit_on_public_returns_iff valid_form Sample.form_settings eq_refl)
    as [Hiff _].
  destruct (limit_on_public_returns_iff valid_form (PDict ∅) eq_refl) as [_ Hempty].
  destruct (limit_on_public_returns_iff valid_form
              (PDict {["BackgroundSettings" := PInt 5]}) eq_refl) as [_ Hint].
  split; [|split].
  - apply Hiff. exists Sample.settings_map, Sample.background_fields, Sample.texture_fields.
    split; [reflexivity|]. split; vm_compute; reflexivity.
  - exact (Hempty ∅ eq_refl).
  - exact (Hint _ eq_refl).
Defined.

Lemma limit_on_public_idempotent_witness :
  limit_on_public valid_form Sample.form_settings = Ok limited_form_settings
  /\ limit_on_public valid_form limited_form_settings = Ok limited_form_settings.
Proof.
  assert (H : limit_on_public valid_form Sample.form_settings
              = Ok limited_form_settings) by (vm_compute; reflexivity).
  split; [exact H|].
  exact (limit_on_public_idempotent valid_form _ _ H).
Defined.

Lemma limited_fields_are_disabled_witness :
  setting Sample.form_settings "BackgroundSettings" "resize_factor" = Some (PInt 2)
  /\ setting limited_form_settings "BackgroundSettings" "resize_factor" = Some (PInt 8)
  /\ is_disabled_on_public valid_form "resize_factor" = true.
Proof.
  assert (H : limit_on_public valid_form Sample.form_settings
              = Ok limited_form_settings) by (vm_compute; reflexivity).
  assert (H2 : setting Sample.form_settings "BackgroundSettings" "resize_factor"
               = Some (PInt 2)) by (vm_compute; reflexivity).
  assert (H8 : setting limited_form_settings "BackgroundSettings" "resize_factor"
               = Some (PInt 8)) by (vm_compute; reflexivity).
  split; [exact H2|]. split; [exact H8|].
  destruct (limited_fields_are_disabled valid_form _ _ "BackgroundSettings"
              "resize_factor" H) as [Hd _].
  - rewrite H2, H8. discriminate.
  - exact Hd.
Defined.

(** ** What [limit_on_public] does to its argument *)

Lemma limited_emits w self : emits (limited_event w self) (generate_map w self).
Proof.
  unfold generate_map. apply emits_def, emits_bind.
  2: { intros job _.
       unfold generate_map_enqueue, generate_map_try, generate_map_except,
         generate_map_finally, progress.
       emits_with ltac:(exact I). }
  unfold generate_map_prepare.
  do 5 (apply emits_bind; [emits_with ltac:(exact I) | intros ? _]).
  apply emits_bind; [emits_with ltac:(exact I) | intros submitted Hsub].
  assert (Hs : submitted_settings w self = Ok submitted).
  { unfold submitted_settings. destruct (negb (expert_mode self)).
    - apply may_return_ret in Hsub. congruence.
    - apply may_return_guarded in Hsub. exact Hsub. }
  apply emits_bind; [emits_with ltac:(exact I) | intros limited Hl].
  apply may_return_lift in Hl.
  apply emits_bind.
  { unfold call. apply emits_bind; [|intros; emits_with ltac:(exact I)].
    apply emits_emit. simpl. eauto. }
  intros all_settings _.
  unfold load_schema. emits_with ltac:(exact I).
Qed.

Lemma limit_on_public_argument_ok self v v' :
  limit_on_public self v = Ok v' -> limit_on_public_argument self v = v'.
Proof.
  destruct (public self) eqn:Hp.
  - intros H. destruct (limit_on_public_ok_inv self v v' Hp H)
      as (d & bg & tx & -> & Hbg & Htx & ->).
    unfold limit_on_public_argument. rewrite Hp. cbn [negb]. rewrite Hbg. cbv zeta.
    rewrite lookup_insert_ne by discriminate. rewrite Htx. reflexivity.
  - unfold limit_on_public, limit_on_public_argument. rewrite Hp. cbn [negb].
    congruence.
Qed.

(** X27: [limit_on_public] writes through its shallow copy. When it
    returns, its argument has the content of the dictionary it returns; on
    a public deployment the argument's [BackgroundSettings] has
    [resize_factor] 8 as soon as that category is a dictionary, also when
    the method then raises for [TextureSettings]. In [generate_map] with the
    expert mode off the argument is [self.settings]: when line 495 has
    returned, [self.settings] has the content of the limited dictionary
    that is then handed to the settings parser. This comes before the
    schema checks, so it is also so in a run that ends with an inline
    schema error. *)
Theorem settings_are_limited_in_place w self s :
  (forall v v', limit_on_public self v = Ok v' -> limit_on_public_argument self v = v')
  /\ (public self = true ->
      forall d bg : gmap string pyval,
        d !! "BackgroundSettings" = Some (PDict bg) ->
        setting (limit_on_public_argument self (PDict d))
          "BackgroundSettings" "resize_factor" = Some (PInt 8))
  /\ (expert_mode self = false ->
      forall v, In (AllSettingsFromJson v) (r_trace (generate_map w self s)) ->
        limit_on_public_argument self (settings self) = v
        /\ (public self = true ->
            setting v "BackgroundSettings" "resize_factor" = Some (PInt 8)
            /\ setting v "TextureSettings" "dissolve" = Some (PBool false))).
Proof.
  split; [intros v v'; apply limit_on_public_argument_ok|]. split.
  - intros Hp d bg Hbg. unfold limit_on_public_argument. rewrite Hp. cbn [negb].
    rewrite Hbg. cbv zeta. rewrite lookup_insert_ne by discriminate.
    destruct (d !! "TextureSettings") as [[| | | | | |tx]|];
      unfold setting;
      repeat first [rewrite lookup_insert_eq | rewrite lookup_insert_ne by discriminate];
      reflexivity.
  - intros Hx v Hin.
    pose proof (limited_emits w self s) as H. rewrite Forall_forall in H.
    apply list_elem_of_In, H in Hin. destruct Hin as (submitted & Hs & Hl).
    unfold submitted_settings in Hs. rewrite Hx in Hs. cbn [negb] in Hs.
    injection Hs as <-.
    split; [apply limit_on_public_argument_ok, Hl|].
    intros Hp. destruct (limit_on_public_ok_inv self _ _ Hp Hl)
      as (d & bg & tx & _ & _ & _ & ->).
    unfold setting.
    split;
      repeat first [rewrite lookup_insert_eq | rewrite lookup_insert_ne by discriminate];
      reflexivity.
Qed.

Lemma settings_are_limited_in_place_witness :
  let r := generate_map Sample.calm form_bad_schema Sample.fresh in
  expert_mode form_bad_schema = false
  /\ In (AllSettingsFromJson limited_form_settings) (r_trace r)
  /\ In (StError "Invalid texture schema was provided: JSONDecodeError('Expecting value: line 1 column 1 (char 0)')")
       (r_trace r)
  /\ limit_on_public_argument form_bad_schema (settings form_bad_schema)
     = limited_form_settings
  /\ setting (settings form_bad_schema) "BackgroundSettings" "resize_factor"
     = Some (PInt 2)
  /\ setting limited_form_settings "BackgroundSettings" "resize_factor"
     = Some (PInt 8).
Proof.
  cbv zeta.
  assert (Hin : In (AllSettingsFromJson limited_form_settings)
                  (r_trace (generate_map Sample.calm form_bad_schema Sample.fresh))).
  { vm_compute. right. left. reflexivity. }
  split; [reflexivity|]. split; [exact Hin|].
  split; [vm_compute; right; right; left; reflexivity|].
  destruct (settings_are_limited_in_place Sample.calm form_bad_schema Sample.fresh)
    as (_ & _ & H).
  destruct (H eq_refl _ Hin) as (Harg & H8).
  split; [exact Harg|]. split; [vm_compute; reflexivity|].
  exact (proj1 (H8 eq_refl)).
Defined.

(** ** Statements that report an error and return *)

Lemma may_return_when_return ev c a :
  may_return (when c (emit ev ;; return_)) a -> c = false.
Proof.
  destruct c; [|reflexivity]. intros H.
  destruct (may_return_report_and_return ev a H).
Qed.

Lemma may_return_load_schema w what input r :
  may_return (load_schema w what input) r ->
  match r with
  | Some v => truthy input = true /\ loads w input = Ok v
  | None => truthy input = false
  end.
Proof.
  unfold load_schema. destruct (truthy input) eqn:Ht.
  - intros [s Hs]. revert Hs. unfold try_except.
    destruct (loads w input) as [v|e].
    + rewrite bind_lift_ok. cbn. intros [= <-]. auto.
    + rewrite bind_lift_err. cbn [r_ctl].
      destruct (isinstance_JSONDecodeError e); [|discriminate].
      rewrite bind_emit. cbn. discriminate.
  - intros H. apply may_return_ret in H. subst r. reflexivity.
Qed.

Lemma built_emits w self :
  emits (fun e => match e with MapInit mp => built_from_form w self mp | _ => True end)
    (generate_map w self).
Proof.
  unfold generate_map. apply emits_def, emits_bind.
  2: { intros job _.
       unfold generate_map_enqueue, generate_map_try, generate_map_except,
         generate_map_finally, progress.
       emits_with ltac:(exact I). }
  unfold generate_map_prepare.
  apply emits_bind; [emits_with ltac:(exact I) | intros coordinates Hc].
  apply may_return_guarded in Hc.
  apply emits_bind; [emits_with ltac:(exact I) | intros size Hsz].
  apply may_return_guarded in Hsz.
  apply emits_bind; [emits_with ltac:(exact I) | intros [] Heven].
  apply may_return_when_return in Heven.
  apply emits_bind; [emits_with ltac:(exact I) | intros [] Hsq].
  apply may_return_when_return in Hsq.
  apply emits_bind; [emits_with ltac:(exact I) | intros [] Hmk].
  apply may_return_call in Hmk.
  do 3 (apply emits_bind; [emits_with ltac:(exact I) | intros ? _]).
  apply emits_bind; [unfold load_schema; emits_with ltac:(exact I) | intros texture_schema Htx].
  apply emits_bind; [unfold load_schema; emits_with ltac:(exact I) | intros tree_schema Htr].
  do 6 (apply emits_bind; [emits_with ltac:(exact I) | intros ? _]).
  apply emits_bind; [|intros ? _; apply emits_ret].
  apply emits_call. unfold built_from_form. cbn.
  apply orb_false_iff in Heven as [Hh Hw].
  apply negb_false_iff, Z.eqb_eq in Hh, Hsq.
  destruct size as [height width]. cbn [fst snd] in *. subst width.
  repeat split; auto.
  - unfold schema_from_input. destruct (custom_schemas self).
    + apply may_return_load_schema in Htx. destruct texture_schema; intuition.
    + apply may_return_ret in Htx. subst. left. reflexivity.
  - unfold schema_from_input. destruct (custom_schemas self).
    + apply may_return_load_schema in Htr. destruct tree_schema; intuition.
    + apply may_return_ret in Htr. subst. left. reflexivity.
Qed.

(** X4: whenever [generate_map] builds the [Map], its arguments are those
    of the form: the two parsed coordinates, an even size equal to both
    numbers of the size field, the rotation, the session directory under
    [MAPS_DIRECTORY] (created before), the uploaded OSM file only when the
    option is enabled, and a custom schema only when the schema editor is
    open, its text is not empty and [json.loads] accepts it. *)
Theorem map_is_built_from_the_form w self s mp :
  In (MapInit mp) (r_trace (generate_map w self s)) -> built_from_form w self mp.
Proof.
  intros Hin. pose proof (built_emits w self s) as H.
  rewrite Forall_forall in H. apply list_elem_of_In, H in Hin. exact Hin.
Qed.

(** ** Inline errors end the run *)

Lemma error_is_last_bind {A B} (m : M A) (f : A -> M B) :
  reports_then_returns m -> (forall a, error_is_last (f a)) ->
  error_is_last (bind m f).
Proof.
  intros Hm Hf s. specialize (Hm s). rewrite bind_run.
  destruct (r_ctl (m s)) as [a| |e]; cbn [r_ctl r_trace].
  - intros Hr. destruct (Hf a _ Hr) as (pre & msg & -> & Hpre).
    exists (r_trace (m s) ++ pre), msg. rewrite app_assoc. split; [reflexivity|].
    apply Forall_app. split; assumption.
  - intros _. destruct Hm as [msg ->]. exists [], msg. split; [reflexivity|constructor].
  - discriminate.
Qed.

Lemma reports_then_returns_guarded {A} (o : outcome A) catches report :
  reports_then_returns
    (try_except (lift o) catches (fun e => emit (StError (report e)) ;; return_)).
Proof.
  intros s. unfold try_except. destruct o as [a|e]; cbn; [constructor|].
  destruct (catches e); cbn; [eauto | constructor].
Qed.

Lemma reports_then_returns_when c msg :
  reports_then_returns (when c (emit (StError msg) ;; return_)).
Proof. intros s. destruct c; cbn; [eauto | constructor]. Qed.

Lemma reports_then_returns_call {A} ev (o : outcome A) :
  setup_event ev -> reports_then_returns (call ev o).
Proof. intros H s. destruct o; cbn; repeat constructor; exact H. Qed.

Lemma reports_then_returns_lift {A} (o : outcome A) : reports_then_returns (lift o).
Proof. intros s. destruct o; cbn; constructor. Qed.

Lemma reports_then_returns_ret {A} (a : A) : reports_then_returns (ret a).
Proof. intros s. cbn. constructor. Qed.

Lemma reports_then_returns_load_schema w what input :
  reports_then_returns (load_schema w what input).
Proof.
  unfold load_schema. destruct (truthy input); [|apply reports_then_returns_ret].
  intros s. unfold try_except. destruct (loads w input) as [v|e].
  - rewrite bind_lift_ok. cbn. constructor.
  - rewrite bind_lift_err. cbn [r_ctl r_trace r_state].
    destruct (isinstance_JSONDecodeError e); cbn; [eauto | constructor].
Qed.

Lemma prepare_error_is_last w self : error_is_last (generate_map_prepare w self).
Proof.
  unfold generate_map_prepare.
  apply error_is_last_bind; [apply reports_then_returns_guarded | intros coordinates].
  apply error_is_last_bind; [apply reports_then_returns_guarded | intros size].
  apply error_is_last_bind; [apply reports_then_returns_when | intros _].
  apply error_is_last_bind; [apply reports_then_returns_when | intros _].
  apply error_is_last_bind; [apply reports_then_returns_call; exact I | intros _].
  apply error_is_last_bind.
  { destruct (negb (expert_mode self));
      [apply reports_then_returns_ret | apply reports_then_returns_guarded]. }
  intros json_settings.
  apply error_is_last_bind; [apply reports_then_returns_lift | intros limited].
  apply error_is_last_bind; [apply reports_then_returns_call; exact I | intros all_settings].
  apply error_is_last_bind.
  { destruct (custom_schemas self);
      [apply reports_then_returns_load_schema | apply reports_then_returns_ret]. }
  intros texture_schema.
  apply error_is_last_bind.
  { destruct (custom_schemas self);
      [apply reports_then_returns_load_schema | apply reports_then_returns_ret]. }
  intros tree_schema.
  do 6 (apply error_is_last_bind; [apply reports_then_returns_lift | intros ?]).
  intros s. unfold call. rewrite bind_bind, bind_emit.
  cbn [r_ctl]. destruct (Map_init w _); cbn; discriminate.
Qed.

Lemma inline_error_run w self s msg :
  In (StError msg) (r_trace (generate_map w self s)) ->
  r_ctl (generate_map_prepare w self s) = Return.
Proof.
  intros Hin.
  destruct (generate_map_trace w self s) as (rest & Ht & Hrest & _).
  rewrite Ht in Hin. apply in_app_or in Hin as [Hin|Hin].
  - destruct (r_ctl (generate_map_prepare w self s)) eqn:Hc; [|reflexivity|].
    all: exfalso; pose proof (prepare_errors_return w self s) as H;
      rewrite Hc in H; specialize (H ltac:(discriminate));
      rewrite Forall_forall in H; apply list_elem_of_In, H in Hin; exact Hin.
  - exfalso. rewrite Forall_forall in Hrest. apply list_elem_of_In, Hrest in Hin.
    exact Hin.
Qed.

(** X5: an inline error ends the run: [generate_map] returns normally;
    [download_path], the session flag and the deletions handed to the timer
    are as they were; the error is the last call, at most the session
    directory and the settings parser precede it, and no [Map] is built.
    This covers the checks of the raw configuration and of the two custom
    schemas as well as those of the coordinates and of the size.
    [self.settings] is outside this statement: when the settings parser
    precedes the error, line 495 has limited it in place on a public
    deployment (X27). *)
Theorem inline_error_ends_the_run w self s msg :
  In (StError msg) (r_trace (generate_map w self s)) ->
  let r := generate_map w self s in
  r_ctl r = Next tt
  /\ download_path (r_state r) = download_path s
  /\ generated (r_state r) = generated s
  /\ scheduled_deletions (r_state r) = scheduled_deletions s
  /\ exists pre, r_trace r = pre ++ [StError msg] /\ Forall setup_event pre.
Proof.
  intros Hin r. subst r.
  pose proof (inline_error_run w self s msg Hin) as Hc.
  pose proof (generate_map_run w self s) as Hr. cbv zeta in Hr. rewrite Hc in Hr.
  destruct (prepare_error_is_last w self s Hc) as (pre & msg' & Ht & Hpre).
  rewrite Hr in *. cbn [r_ctl r_state r_trace] in *.
  repeat (split; [reflexivity|]).
  exists pre. split; [|exact Hpre].
  rewrite Ht in Hin |- *. apply in_app_or in Hin as [Hin|[Hin|[]]].
  - rewrite Forall_forall in Hpre. apply list_elem_of_In, Hpre in Hin. destruct Hin.
  - rewrite Hin. reflexivity.
Qed.

Lemma inline_error_ends_the_run_witness :
  let r := generate_map Sample.calm form_bad_schema Sample.fresh in
  let message :=
    "Invalid texture schema was provided: JSONDecodeError('Expecting value: line 1 column 1 (char 0)')" in
  In (StError message) (r_trace r)
  /\ r_ctl r = Next tt
  /\ download_path (r_state r) = None
  /\ generated (r_state r) = false
  /\ exists pre, r_trace r = pre ++ [StError message] /\ Forall setup_event pre.
Proof.
  cbv zeta.
  assert (H : In (StError "Invalid texture schema was provided: JSONDecodeError('Expecting value: line 1 column 1 (char 0)')")
                (r_trace (generate_map Sample.calm form_bad_schema Sample.fresh))).
  { vm_compute. right. right. left. reflexivity. }
  split; [exact H|].
  destruct (inline_error_ends_the_run Sample.calm form_bad_schema Sample.fresh _ H)
    as (Hc & Hd & Hg & _ & Hpre).
  split; [exact Hc|]. split; [exact Hd|]. split; [exact Hg | exact Hpre].
Defined.

(** ** The state after a run *)

Lemma try_state w self name mp s :
  let r := generate_map_try w self name mp s in
  match r_ctl r with
  | Next _ =>
      exists archive,
        pack w mp (Py.path_join (ARCHIVES_DIRECTORY w) name) = Ok archive
        /\ r_state r = mk_state (Some archive) true (scheduled_deletions s)
  | _ => r_state r = s
  end.
Proof.
  cbv zeta. unfold generate_map_try, for_in. run.
  match goal with |- context [bind (for_items ?l ?a ?b) ?k s] =>
    pose proof (stage_loop (progress_step w self) l a s) as Hloop; cbv zeta in Hloop;
    rewrite (bind_run (for_items l a b)); set (loop := for_items l a b s) in *
  end.
  destruct Hloop as (Hs & _ & _ & _ & _ & _).
  destruct (r_ctl loop) as [c| |e]; cbn [r_ctl r_state]; try exact Hs.
  cbv zeta. rewrite Hs.
  destruct (finish (generate w mp)) as [e|]; run; [reflexivity|].
  match goal with |- context [progress ?v ?t] =>
    destruct ((0 <=? v) && (v <=? 100)) eqn:Hr1;
    [ rewrite (progress_accepted v t Hr1)
    | destruct (progress_refused v t Hr1) as (e1 & -> & _) ]
  end; run; [|reflexivity].
  destruct (show_preview w mp) as [[]|e]; run; [|reflexivity].
  destruct (map_preview w) as [[]|e]; run; [|reflexivity].
  match goal with |- context [progress ?v ?t] =>
    destruct ((0 <=? v) && (v <=? 100)) eqn:Hr2;
    [ rewrite (progress_accepted v t Hr2)
    | destruct (progress_refused v t Hr2) as (e2 & -> & _) ]
  end; run; [|reflexivity].
  destruct (pack w mp _) as [archive_path|e] eqn:Hpack; run; [|reflexivity].
  cbn. eauto.
Qed.

Lemma success_in_try w self s msg :
  In (StatusSuccess msg) (r_trace (generate_map w self s)) ->
  exists name mp,
    r_ctl (generate_map_prepare w self s) = Next (name, mp)
    /\ r_ctl (generate_map_enqueue w self name s) = Next tt
    /\ r_ctl (generate_map_try w self name mp s) = Next tt.
Proof.
  intros Hin. pose proof (generate_map_run w self s) as Hr. cbv zeta in Hr.
  pose proof (prepare_emits w self s) as Hp.
  assert (Hnp : ~ In (StatusSuccess msg) (r_trace (generate_map_prepare w self s))).
  { intros H. rewrite Forall_forall in Hp. apply list_elem_of_In, Hp in H. exact H. }
  destruct (r_ctl (generate_map_prepare w self s)) as [[name mp]| |e].
  2,3: rewrite Hr in Hin; destruct (Hnp Hin).
  cbn [fst snd] in Hr.
  destruct (enqueue_phase w self name s) as (_ & _ & Hq & _).
  assert (Hnq : ~ In (StatusSuccess msg) (r_trace (generate_map_enqueue w self name s))).
  { intros H. rewrite Forall_forall in Hq. apply list_elem_of_In, Hq in H. exact H. }
  destruct (r_ctl (generate_map_enqueue w self name s)) as [[]| |e] eqn:Hcq;
    [|destruct Hr|].
  2: { rewrite Hr in Hin. cbn [r_trace] in Hin.
       apply in_app_or in Hin as [Hin|Hin]; [destruct (Hnp Hin) | destruct (Hnq Hin)]. }
  destruct Hr as (Ht & _ & _). rewrite Ht in Hin.
  exists name, mp. split; [reflexivity|]. split; [exact Hcq|].
  apply in_app_or in Hin as [Hin|Hin]; [destruct (Hnp Hin)|].
  apply in_app_or in Hin as [Hin|Hin]; [destruct (Hnq Hin)|].
  apply in_app_or in Hin as [Hin|Hin].
  { destruct (try_reports w self name mp s) as (_ & _ & H). apply (H msg Hin). }
  exfalso. apply in_app_or in Hin as [Hin|Hin].
  - pose proof (failure_report_events (r_ctl (generate_map_try w self name mp s))) as H.
    rewrite Forall_forall in H. apply list_elem_of_In, H in Hin. exact Hin.
  - pose proof (finally_events w self name (r_state (generate_map_try w self name mp s)))
      as H.
    rewrite Forall_forall in H. apply list_elem_of_In, H in Hin. exact Hin.
Qed.

Lemma generate_map_state w self s :
  let r := generate_map w self s in
  (exists name mp archive,
     r_ctl (generate_map_prepare w self s) = Next (name, mp)
     /\ r_ctl (generate_map_enqueue w self name s) = Next tt
     /\ r_ctl (generate_map_try w self name mp s) = Next tt
     /\ pack w mp (Py.path_join (ARCHIVES_DIRECTORY w) name) = Ok archive
     /\ r_state r = mk_state (Some archive) true (scheduled_deletions s)
     /\ In (StatusSuccess ("Map generated in " +:+ elapsed_rounded w +:+ " seconds."))
          (r_trace r))
  \/ (r_state r = s /\ forall msg, ~ In (StatusSuccess msg) (r_trace r)).
Proof.
  cbv zeta.
  assert (Hno : r_state (generate_map w self s) = s /\
                (forall name mp,
                   r_ctl (generate_map_prepare w self s) = Next (name, mp) ->
                   r_ctl (generate_map_enqueue w self name s) = Next tt ->
                   r_ctl (generate_map_try w self name mp s) <> Next tt) ->
                r_state (generate_map w self s) = s
                /\ forall msg, ~ In (StatusSuccess msg) (r_trace (generate_map w self s))).
  { intros [Hs Hn]. split; [exact Hs|]. intros msg Hin.
    destruct (success_in_try w self s msg Hin) as (name & mp & Hp & Hq & Ht).
    apply (Hn name mp Hp Hq Ht). }
  pose proof (generate_map_run w self s) as Hr. cbv zeta in Hr.
  destruct (r_ctl (generate_map_prepare w self s)) as [[name mp]| |e] eqn:Hp.
  2,3: right; apply Hno; rewrite Hr; split; [reflexivity | discriminate].
  cbn [fst snd] in Hr.
  destruct (r_ctl (generate_map_enqueue w self name s)) as [[]| |e] eqn:Hq;
    [|destruct Hr|].
  2: { right. apply Hno. rewrite Hr. split; [reflexivity|].
       intros ? ? [= <- <-]. congruence. }
  destruct Hr as (Ht & Hst & _).
  pose proof (try_state w self name mp s) as Hts. cbv zeta in Hts.
  destruct (r_ctl (generate_map_try w self name mp s)) as [[]| |e] eqn:Hc.
  - left. destruct Hts as (archive & Hpack & Hs).
    exists name, mp, archive. repeat (split; [first [reflexivity | assumption]|]).
    split; [congruence|].
    destruct (try_reports w self name mp s) as (_ & H & _).
    destruct (H Hc) as (_ & _ & Hin & _). rewrite Ht.
    apply in_or_app. right. apply in_or_app. right. apply in_or_app. left. exact Hin.
  - right. apply Hno. split; [congruence|]. intros ? ? [= <- <-] _. congruence.
  - right. apply Hno. split; [congruence|]. intros ? ? [= <- <-] _. congruence.
Qed.

(** X6: [generate_map] assigns [download_path] and sets the session flag
    exactly when it reports success: then [download_path] is the archive
    that [pack] returned for the session; in every other run the two are as
    they were; the deletions handed to the timer are never touched. (The
    calls to the logger and to the status container are taken to return.
    [self.settings] is outside this statement: see X27.) *)
Theorem state_changes_only_on_success w self s :
  let r := generate_map w self s in
  ((exists msg, In (StatusSuccess msg) (r_trace r)) ->
     exists name mp archive,
       r_ctl (generate_map_prepare w self s) = Next (name, mp)
       /\ pack w mp (Py.path_join (ARCHIVES_DIRECTORY w) name) = Ok archive
       /\ download_path (r_state r) = Some archive
       /\ generated (r_state r) = true)
  /\ ((forall msg, ~ In (StatusSuccess msg) (r_trace r)) ->
      download_path (r_state r) = download_path s
      /\ generated (r_state r) = generated s)
  /\ scheduled_deletions (r_state r) = scheduled_deletions s.
Proof.
  cbv zeta.
  destruct (generate_map_state w self s)
    as [(name & mp & archive & Hp & _ & _ & Hpack & Hs & Hin)|[Hs Hno]].
  - rewrite Hs. cbn [download_path generated scheduled_deletions].
    split; [intros _; eauto 10|]. split; [|reflexivity].
    intros Hno. destruct (Hno _ Hin).
  - rewrite Hs. split; [|split; [intros _; split; reflexivity | reflexivity]].
    intros [msg Hin]. destruct (Hno msg Hin).
Qed.

(** ** The two sections of [add_left_widgets] together *)

Lemma generate_section_cases w self s :
  let rg := add_left_widgets_generate w self s in
  let r := generate_map w self s in
  exists t,
    Forall admission_event t
    /\ ((r_trace rg = t /\ r_state rg = s)
        \/ (r_trace rg = t ++ r_trace r /\ r_state rg = r_state r
            /\ r_ctl rg = r_ctl r)).
Proof.
  cbv zeta. unfold add_left_widgets_generate, st_button.
  assert (Hbutton : forall disabled t0,
    Forall admission_event t0 ->
    let m := when (negb (is_on_community_server w))
               (clicked <- (emit (Button "Generate" disabled) ;;
                            ret (launch_clicked w && negb disabled)) ;;
                when clicked (generate_map w self)) in
    exists t,
      Forall admission_event t
      /\ ((t0 ++ r_trace (m s) = t /\ r_state (m s) = s)
          \/ (t0 ++ r_trace (m s) = t ++ r_trace (generate_map w self s)
              /\ r_state (m s) = r_state (generate_map w self s)
              /\ r_ctl (m s) = r_ctl (generate_map w self s)))).
  { intros disabled t0 Ht0. cbv zeta.
    destruct (is_on_community_server w); cbn [negb when].
    { exists t0. split; [exact Ht0|]. left. cbn. rewrite app_nil_r. auto. }
    rewrite bind_bind, bind_emit, bind_ret. cbn [r_trace r_state r_ctl].
    destruct (launch_clicked w && negb disabled); cbn [when].
    - exists (t0 ++ [Button "Generate" disabled]). split.
      { apply Forall_app. split; [exact Ht0 | repeat constructor]. }
      right. rewrite <- app_assoc. auto.
    - exists (t0 ++ [Button "Generate" disabled]). split.
      { apply Forall_app. split; [exact Ht0 | repeat constructor]. }
      left. cbn. auto. }
  destruct (public self).
  2: { rewrite bind_ret. apply (Hbutton false []). constructor. }
  rewrite bind_bind. destruct (get_queue_length w) as [len|e].
  2: { rewrite bind_call_err. exists [GetQueueLength]. split; [repeat constructor|].
       left. auto. }
  rewrite bind_call_ok. cbn [r_trace r_state r_ctl].
  destruct (QUEUE_LIMIT <=? len).
  - rewrite bind_bind, bind_emit, bind_ret. cbn [r_trace r_state r_ctl].
    apply (Hbutton true [GetQueueLength; StWarning (OVERLOADED w)]).
    repeat constructor.
  - rewrite bind_ret. apply (Hbutton false [GetQueueLength]). repeat constructor.
Qed.

(** A render that starts with the session flag unset: either no generation
    succeeds and nothing changes, or one does and the download section runs
    on the archive it packed, unless the render is cut short before. *)
Lemma add_left_widgets_outcomes w self s :
  generated s = false ->
  let r := add_left_widgets w self s in
  let rg := add_left_widgets_generate w self s in
  Forall generate_section_event (r_trace rg)
  /\ (((forall msg, ~ In (StatusSuccess msg) (r_trace rg))
       /\ r_trace r = r_trace rg /\ r_state r = s)
      \/ (exists name mp archive,
            r_ctl (generate_map_prepare w self s) = Next (name, mp)
            /\ pack w mp (Py.path_join (ARCHIVES_DIRECTORY w) name) = Ok archive
            /\ In (StatusSuccess ("Map generated in " +:+ elapsed_rounded w
                                    +:+ " seconds.")) (r_trace rg)
            /\ ((exists e,
                   r_ctl r = Raise e
                   /\ r_state r = mk_state (Some archive) true (scheduled_deletions s)
                   /\ (r_trace r = r_trace rg
                       \/ r_trace r = r_trace rg ++ [debug_true; OpenFile archive]))
                \/ (r_ctl r = Next tt
                    /\ r_state r
                       = mk_state (Some archive) false
                           (scheduled_deletions s ++ [archive])
                    /\ r_trace r
                       = r_trace rg
                         ++ [debug_true; OpenFile archive;
                             DownloadButton (file_name_of archive) archive;
                             RemoveWithDelay archive; debug_false])))).
Proof.
  intros Hg. cbv zeta. split; [apply generate_section_emits|].
  pose proof (add_left_widgets_run w self s) as Hr. cbv zeta in Hr.
  destruct (generate_section_cases w self s) as (t & Ht & Hcase). cbv zeta in Hcase.
  assert (Hnt : forall msg, ~ In (StatusSuccess msg) t).
  { intros msg Hin. rewrite Forall_forall in Ht. apply list_elem_of_In, Ht in Hin.
    exact Hin. }
  assert (Hquiet :
    r_state (add_left_widgets_generate w self s) = s ->
    r_trace (add_left_widgets w self s) = r_trace (add_left_widgets_generate w self s)
    /\ r_state (add_left_widgets w self s) = s).
  { intros Hs. destruct (r_ctl (add_left_widgets_generate w self s)) as [[]| |e];
      [|destruct Hr|rewrite Hr; cbn; auto].
    destruct Hr as (Htr & Hst & _). rewrite Htr, Hst, Hs.
    destruct (download_phase w s) as [[_ ->]|[(Hg' & _)|(Hg' & _)]]; [|congruence..].
    cbn. rewrite app_nil_r. auto. }
  destruct Hcase as [[Htr Hs]|(Htr & Hs & Hc)].
  { left. split; [rewrite Htr; exact Hnt | apply Hquiet, Hs]. }
  destruct (generate_map_state w self s)
    as [(name & mp & archive & Hp & _ & _ & Hpack & Hst & Hin)|[Hst Hno]].
  2: { left. split; [|apply Hquiet; congruence].
       intros msg Hin. rewrite Htr in Hin.
       apply in_app_or in Hin as [Hin|Hin]; [apply (Hnt _ Hin) | apply (Hno _ Hin)]. }
  right. exists name, mp, archive. split; [exact Hp|]. split; [exact Hpack|].
  split; [rewrite Htr; apply in_or_app; right; exact Hin|].
  rewrite Hst in Hs.
  destruct (r_ctl (add_left_widgets_generate w self s)) as [[]| |e];
    [|destruct Hr|].
  2: { left. exists e. rewrite Hr. cbn. auto. }
  destruct Hr as (Hrt & Hrs & Hrc). rewrite Hrt, Hrs, Hrc, Hs.
  destruct (download_phase w (mk_state (Some archive) true (scheduled_deletions s)))
    as [[Hg' _]|[(_ & Hd & _)|(_ & p & Hd & [(e & _ & ->)|[_ ->]])]];
    try discriminate; cbn in Hd; injection Hd as <-.
  - left. exists e. cbn. auto.
  - right. cbn. auto.
Qed.

(** X7: in a render that starts with the session flag unset, a download
    button is offered only after a generation of this render succeeded: the
    file is the archive [pack] returned, its name is the last component of
    that path, the render ends normally, the flag is reset and the archive is
    handed to the timer. *)
Theorem download_follows_success w self s file_name p :
  generated s = false ->
  let r := add_left_widgets w self s in
  In (DownloadButton file_name p) (r_trace r) ->
  file_name = file_name_of p
  /\ (exists name mp,
        r_ctl (generate_map_prepare w self s) = Next (name, mp)
        /\ pack w mp (Py.path_join (ARCHIVES_DIRECTORY w) name) = Ok p)
  /\ In (StatusSuccess ("Map generated in " +:+ elapsed_rounded w +:+ " seconds."))
       (r_trace r)
  /\ r_ctl r = Next tt
  /\ r_state r = mk_state (Some p) false (scheduled_deletions s ++ [p]).
Proof.
  intros Hg r Hin. subst r.
  destruct (add_left_widgets_outcomes w self s Hg) as [Hev Hcase]. cbv zeta in *.
  assert (Hnb : ~ In (DownloadButton file_name p)
                    (r_trace (add_left_widgets_generate w self s))).
  { intros H. rewrite Forall_forall in Hev. apply list_elem_of_In, Hev in H. exact H. }
  destruct Hcase as [(_ & Htr & _)|(name & mp & archive & Hp & Hpack & Hs & Hcase)].
  { rewrite Htr in Hin. destruct (Hnb Hin). }
  destruct Hcase as [(e & _ & _ & [Htr|Htr])|(Hc & Hst & Htr)]; rewrite Htr in Hin.
  - destruct (Hnb Hin).
  - apply in_app_or in Hin as [Hin|Hin]; [destruct (Hnb Hin)|].
    unfold debug_true in Hin. destruct Hin as [Hin|[Hin|[]]]; discriminate.
  - apply in_app_or in Hin as [Hin|Hin]; [destruct (Hnb Hin)|].
    unfold debug_true, debug_false in Hin.
    destruct Hin as [Hin|[Hin|[Hin|[Hin|[Hin|[]]]]]]; try discriminate.
    injection Hin as <- <-.
    split; [reflexivity|]. split; [eauto|].
    split; [rewrite Htr; apply in_or_app; left; exact Hs|]. auto.
Qed.

(** X8: a render that reports success and then ends with an exception (the
    release of the queue slot or the opening of the archive fails) leaves the
    session flag set and the path recorded, and offers no download. *)
Theorem interrupted_render_keeps_the_flag w self s msg e :
  generated s = false ->
  let r := add_left_widgets w self s in
  In (StatusSuccess msg) (r_trace r) ->
  r_ctl r = Raise e ->
  generated (r_state r) = true
  /\ (exists archive, download_path (r_state r) = Some archive)
  /\ count is_download_button (r_trace r) = 0%nat.
Proof.
  intros Hg r Hin Hc. subst r.
  destruct (add_left_widgets_outcomes w self s Hg) as [Hev Hcase]. cbv zeta in *.
  assert (Hn : count is_download_button (r_trace (add_left_widgets_generate w self s))
               = 0%nat).
  { eapply count_none; [exact Hev|]. intros [] H; try destruct H; reflexivity. }
  destruct Hcase as [(Hno & Htr & _)|(name & mp & archive & _ & _ & _ & Hcase)].
  { rewrite Htr in Hin. destruct (Hno _ Hin). }
  destruct Hcase as [(e' & _ & Hst & Htr)|(Hc' & _)]; [|congruence].
  rewrite Hst. cbn. split; [reflexivity|]. split; [eauto|].
  destruct Htr as [->| ->]; [exact Hn|]. rewrite count_app, Hn. reflexivity.
Qed.

(** X9: a render that starts with the session flag left set finds
    [download_path] reset by [__init__]: unless a generation succeeds in it,
    it ends with an exception, offers no download and leaves the flag
    set. *)
Theorem stale_flag_fails_the_render w self deletions :
  let s := initial_state (Some true) deletions in
  let r := add_left_widgets w self s in
  (forall msg, ~ In (StatusSuccess msg) (r_trace r)) ->
  (exists e, r_ctl r = Raise e)
  /\ r_state r = s
  /\ count is_download_button (r_trace r) = 0%nat.
Proof.
  intros s r Hno. subst r.
  assert (Hg : generated s = true) by reflexivity.
  assert (Hd : download_path s = None) by reflexivity.
  clearbody s.
  pose proof (add_left_widgets_run w self s) as Hr. cbv zeta in Hr.
  pose proof (generate_section_emits w self s) as Hev.
  assert (Hn : count is_download_button (r_trace (add_left_widgets_generate w self s))
               = 0%nat).
  { eapply count_none; [exact Hev|]. intros [] H; try destruct H; reflexivity. }
  assert (Hs : r_state (add_left_widgets_generate w self s) = s).
  { destruct (generate_section_cases w self s) as (t & Ht & [[_ Hs]|(Htr & Hs & _)]);
      [exact Hs|]. cbv zeta in *.
    destruct (generate_map_state w self s)
      as [(name & mp & archive & _ & _ & _ & _ & _ & Hin)|[Hst _]]; [|congruence].
    exfalso. cbv zeta in Hin.
    destruct (r_ctl (add_left_widgets_generate w self s)) as [[]| |e];
      [|destruct Hr|].
    - destruct Hr as (Hrt & _). eapply Hno. rewrite Hrt, Htr.
      apply in_or_app. left. apply in_or_app. right. exact Hin.
    - eapply Hno. rewrite Hr. cbn [r_trace]. rewrite Htr.
      apply in_or_app. right. exact Hin. }
  destruct (r_ctl (add_left_widgets_generate w self s)) as [[]| |e];
    [|destruct Hr|].
  2: { rewrite Hr. cbn. rewrite Hs. eauto. }
  destruct Hr as (Hrt & Hrs & Hrc). rewrite Hrt, Hrs, Hrc, Hs.
  destruct (download_phase w s) as [[Hg' _]|[(_ & _ & Htr & e & He)|(_ & p & Hp & _)]];
    [congruence| |congruence].
  split; [eauto|]. split.
  - unfold add_left_widgets_download. rewrite bind_get, Hg. cbn [when].
    rewrite bind_emit, bind_get, Hd. reflexivity.
  - rewrite count_app, Hn, Htr. reflexivity.
Qed.

(** ** The queue *)

Lemma emits_bind_ret {A B} P (a : A) (f : A -> M B) :
  emits P (f a) -> emits P (bind (ret a) f).
Proof. intros H s. rewrite bind_ret. apply H. Qed.

Lemma private_emits w self :
  public self = false ->
  emits (fun e => off_queue_event e
                  /\ match e with Button _ disabled => disabled = false | _ => True end)
    (add_left_widgets w self).
Proof.
  intros Hp.
  unfold add_left_widgets, add_left_widgets_generate. rewrite Hp.
  apply emits_def, emits_bind.
  - apply emits_bind_ret.
    unfold st_button, generate_map, generate_map_prepare, load_schema,
      generate_map_enqueue, generate_map_try, generate_map_except,
      generate_map_finally, progress.
    rewrite Hp. cbn [when].
    emits_with ltac:(simpl; auto).
  - intros _ _.
    unfold add_left_widgets_download, open_, remove_with_delay_without_blocking.
    emits_with ltac:(simpl; auto).
    match goal with |- emits _ (match ?x with _ => _ end) => destruct x end;
      emits_with ltac:(simpl; auto).
Qed.

(** X10: on a private deployment a render neither reads nor changes the
    queue and shows no position or overload message; the button it renders is
    never disabled. *)
Theorem private_deployment_skips_the_queue w self s :
  public self = false ->
  let r := add_left_widgets w self s in
  Forall off_queue_event (r_trace r)
  /\ (forall label disabled, In (Button label disabled) (r_trace r) -> disabled = false)
  /\ (is_on_community_server w = false -> In (Button "Generate" false) (r_trace r)).
Proof.
  intros Hp r. subst r. pose proof (private_emits w self Hp s) as H.
  split; [eapply Forall_impl; [exact H|]; intros e [He _]; exact He|].
  split.
  - intros label disabled Hin. rewrite Forall_forall in H.
    apply list_elem_of_In, H in Hin. apply Hin.
  - intros Hcs. destruct (add_left_widgets_trace w self s) as (rest & -> & _).
    apply in_or_app. left. unfold add_left_widgets_generate, st_button.
    rewrite Hp, Hcs. cbn [negb when]. run. left. reflexivity.
Qed.

Lemma filter_none (P : event -> Prop) f t :
  Forall P t -> (forall e, P e -> f e = false) ->
  filter (fun e => f e = true) t = [].
Proof.
  intros Ht Hf. induction Ht as [|e t He _ IH]; [reflexivity|].
  rewrite filter_cons, IH. destruct (decide (f e = true)) as [H|H]; [|reflexivity].
  rewrite (Hf e He) in H. discriminate.
Qed.

Lemma wait_loop_trace (positions : list Z) s :
  r_trace (for_items positions tt
             (fun position _ =>
                emit (StatusInfo ("Your position in the queue: "
                                    +:+ Py.str_of_int position +:+ ". Please wait...")))
             s)
  = map position_line positions.
Proof.
  induction positions as [|p ps IH]; cbn [for_items]; [reflexivity|].
  rewrite bind_emit. cbn [r_trace map]. rewrite IH. reflexivity.
Qed.

Lemma enqueue_trace w self name s :
  public self = true ->
  add_to_queue w name = Ok tt ->
  r_trace (generate_map_enqueue w self name s)
  = AddToQueue name :: WaitInQueue name
      :: map position_line (yields (wait_in_queue w name)).
Proof.
  intros Hp Ha. unfold generate_map_enqueue, for_in. rewrite Hp, Ha. cbn [when].
  run.
  match goal with |- context [bind (for_items ?l ?a ?b) ?k s] =>
    pose proof (wait_loop l s) as Hloop; cbv zeta in Hloop;
    pose proof (wait_loop_trace l s) as Htr;
    rewrite (bind_run (for_items l a b)); set (loop := for_items l a b s) in *
  end.
  destruct Hloop as (_ & Hc & _). rewrite Hc. cbv zeta.
  destruct (finish (wait_in_queue w name)); cbn [r_trace ret raise];
    rewrite app_nil_r, Htr; reflexivity.
Qed.

(** X11: on a public deployment, once the session is in the queue, the
    status container shows one line for each position that [wait_in_queue]
    yields, in the same order, and no other information line, whether or not
    the wait ends with an exception. *)
Theorem positions_are_shown_in_order w self s name mp :
  public self = true ->
  r_ctl (generate_map_prepare w self s) = Next (name, mp) ->
  add_to_queue w name = Ok tt ->
  filter (fun e => is_status_info e = true) (r_trace (generate_map w self s))
  = map position_line (yields (wait_in_queue w name)).
Proof.
  intros Hp Hc Ha.
  pose proof (generate_map_run w self s) as Hr. cbv zeta in Hr. rewrite Hc in Hr.
  cbn [fst snd] in Hr.
  assert (H1 : filter (fun e => is_status_info e = true)
                 (r_trace (generate_map_prepare w self s)) = []).
  { eapply filter_none; [apply prepare_emits|]. intros [] H; try destruct H; reflexivity. }
  assert (H2 : filter (fun e => is_status_info e = true)
                 (r_trace (generate_map_enqueue w self name s))
               = map position_line (yields (wait_in_queue w name))).
  { rewrite (enqueue_trace w self name s Hp Ha).
    rewrite !filter_cons_False by (cbn; discriminate).
    induction (yields (wait_in_queue w name)) as [|p ps IH]; [reflexivity|].
    cbn [map]. rewrite filter_cons_True by reflexivity. rewrite IH. reflexivity. }
  destruct (r_ctl (generate_map_enqueue w self name s)) as [[]| |e]; [|destruct Hr|].
  2: { rewrite Hr. cbn [r_trace]. rewrite filter_app, H1, H2. reflexivity. }
  destruct Hr as (-> & _).
  rewrite !filter_app, H1, H2.
  rewrite (filter_none try_event _ _ (try_emits w self name mp s)).
  2: { intros [] H; try destruct H; reflexivity. }
  rewrite (filter_none _ _ _ (failure_report_events _)).
  2: { intros [] H; try destruct H; reflexivity. }
  rewrite (filter_none _ _ _ (finally_events w self name _)).
  2: { intros [] H; try destruct H; reflexivity. }
  rewrite !app_nil_r. reflexivity.
Qed.

(** X12: on a public deployment, once the wait for the turn has ended
    normally, the release of the queue slot is the last call of
    [generate_map], it is the only release, and it follows the only entry
    into the queue. *)
Theorem release_is_the_last_event w self s name mp :
  public self = true ->
  r_ctl (generate_map_prepare w self s) = Next (name, mp) ->
  r_ctl (generate_map_enqueue w self name s) = Next tt ->
  exists pre,
    r_trace (generate_map w self s) = pre ++ [RemoveFromQueue name]
    /\ count is_dequeue pre = 0%nat
    /\ count is_enqueue pre = 1%nat
    /\ In (AddToQueue name) pre.
Proof.
  intros Hp Hc Hq.
  pose proof (generate_map_run w self s) as Hr. cbv zeta in Hr.
  rewrite Hc in Hr. cbn [fst snd] in Hr. rewrite Hq in Hr.
  destruct Hr as (Ht & _ & _). rewrite finally_phase, Hp in Ht. cbn [r_trace] in Ht.
  destruct (enqueue_phase w self name s) as (_ & _ & Hev & Hn & Hin & _).
  rewrite Hp in Hn. specialize (Hin Hp).
  set (rp := r_trace (generate_map_prepare w self s)) in *.
  set (rq := r_trace (generate_map_enqueue w self name s)) in *.
  set (rt := r_trace (generate_map_try w self name mp s)) in *.
  set (fr := failure_report (r_ctl (generate_map_try w self name mp s))) in *.
  exists (rp ++ rq ++ rt ++ fr).
  split; [rewrite Ht, <- (app_assoc rp), <- (app_assoc rq), <- (app_assoc rt);
          reflexivity|].
  assert (Dp : count is_dequeue rp = 0%nat /\ count is_enqueue rp = 0%nat).
  { split; (eapply count_none; [apply prepare_emits|]);
      intros [] H; try destruct H; reflexivity. }
  assert (Dq : count is_dequeue rq = 0%nat).
  { eapply count_none; [exact Hev|]. intros [] H; try destruct H; reflexivity. }
  assert (Dt : count is_dequeue rt = 0%nat /\ count is_enqueue rt = 0%nat).
  { split; (eapply count_none; [apply try_emits|]);
      intros [] H; try destruct H; reflexivity. }
  assert (Df : count is_dequeue fr = 0%nat /\ count is_enqueue fr = 0%nat).
  { split; (eapply count_none; [apply failure_report_events|]);
      intros [] H; try destruct H; reflexivity. }
  destruct Dp as [Dp Ep], Dt as [Dt Et], Df as [Df Ef].
  rewrite !count_app, Dp, Dq, Dt, Df, Ep, Hn, Et, Ef.
  split; [reflexivity|]. split; [reflexivity|].
  apply in_or_app. right. apply in_or_app. left. exact Hin.
Qed.

(** An exception outside [Exception] that leaves the body of the [try]
    comes from the engine, the previews or the packing. *)
Lemma try_raise_source w self name mp s e :
  r_ctl (generate_map_try w self name mp s) = Raise e ->
  isinstance_Exception e = false ->
  finish (generate w mp) = Some e
  \/ show_preview w mp = Err e
  \/ map_preview w = Err e
  \/ pack w mp (Py.path_join (ARCHIVES_DIRECTORY w) name) = Err e.
Proof.
  unfold generate_map_try, for_in. run.
  match goal with |- context [bind (for_items ?l ?a ?b) ?k s] =>
    pose proof (stage_loop (progress_step w self) l a s) as Hloop; cbv zeta in Hloop;
    rewrite (bind_run (for_items l a b)); set (loop := for_items l a b s) in *
  end.
  destruct Hloop as (Hs & _ & _ & _ & Hraise & _).
  destruct (r_ctl loop) as [c| |e0]; cbn [r_ctl r_state]; try discriminate.
  2: { intros [= <-] He. rewrite (Hraise e0 eq_refl) in He. discriminate He. }
  cbv zeta. rewrite Hs.
  destruct (finish (generate w mp)) as [e0|]; run.
  { intros [= <-] _. left. reflexivity. }
  match goal with |- context [progress ?v ?t] =>
    destruct ((0 <=? v) && (v <=? 100)) eqn:Hr1;
    [ rewrite (progress_accepted v t Hr1)
    | destruct (progress_refused v t Hr1) as (e1 & -> & He1) ]
  end; run.
  2: { intros [= <-] He. congruence. }
  destruct (show_preview w mp) as [[]|e0]; run.
  2: { intros [= <-] _. right. left. reflexivity. }
  destruct (map_preview w) as [[]|e0]; run.
  2: { intros [= <-] _. right. right. left. reflexivity. }
  match goal with |- context [progress ?v ?t] =>
    destruct ((0 <=? v) && (v <=? 100)) eqn:Hr2;
    [ rewrite (progress_accepted v t Hr2)
    | destruct (progress_refused v t Hr2) as (e2 & -> & He2) ]
  end; run.
  2: { intros [= <-] He. congruence. }
  destruct (pack w mp _) as [archive_path|e0] eqn:Hpack; run.
  - discriminate.
  - intros [= <-] _. right. right. right. reflexivity.
Qed.

(** X13: an exception outside [Exception] that the engine, the previews or
    the packing raise in the guarded block (lines 552-567, before the
    archive path is recorded) is not reported to the user or to the log; the
    [finally] clause still releases the slot on a public deployment;
    [download_path] and the session flag are as they were; and the
    exception leaves [generate_map] (or the one the release raises). The
    calls to the toolkit and to the logger are taken to return: an exception
    they raise is outside this statement. *)
Theorem exception_outside_Exception_propagates w self s name mp e :
  r_ctl (generate_map_prepare w self s) = Next (name, mp) ->
  r_ctl (generate_map_enqueue w self name s) = Next tt ->
  r_ctl (generate_map_try w self name mp s) = Raise e ->
  isinstance_Exception e = false ->
  let r := generate_map w self s in
  (finish (generate w mp) = Some e
   \/ show_preview w mp = Err e
   \/ map_preview w = Err e
   \/ pack w mp (Py.path_join (ARCHIVES_DIRECTORY w) name) = Err e)
  /\ count is_logger_error (r_trace r) = 0%nat
  /\ count is_status_error (r_trace r) = 0%nat
  /\ count is_dequeue (r_trace r) = (if public self then 1 else 0)%nat
  /\ download_path (r_state r) = download_path s
  /\ generated (r_state r) = generated s
  /\ (r_ctl r = Raise e
      \/ exists e', public self = true /\ remove_from_queue w name = Err e'
                    /\ r_ctl r = Raise e').
Proof.
  intros Hc Hq Ht He r. subst r.
  split; [exact (try_raise_source w self name mp s e Ht He)|].
  pose proof (generate_map_run w self s) as Hr. cbv zeta in Hr.
  rewrite Hc in Hr. cbn [fst snd] in Hr. rewrite Hq in Hr.
  destruct Hr as (Htr & Hst & Hctl).
  pose proof (try_state w self name mp s) as Hts. cbv zeta in Hts.
  rewrite Ht in Hts, Htr, Hctl. cbn [failure_report after_except] in Htr, Hctl.
  rewrite He in Htr, Hctl. cbn [app] in Htr.
  destruct (enqueue_phase w self name s) as (_ & _ & Hev & _).
  set (rp := r_trace (generate_map_prepare w self s)) in *.
  set (rq := r_trace (generate_map_enqueue w self name s)) in *.
  set (rt := r_trace (generate_map_try w self name mp s)) in *.
  assert (Cp : forall f, (forall ev, prepare_event ev -> f ev = false) ->
                         count f rp = 0%nat).
  { intros f Hf. eapply count_none; [apply prepare_emits | exact Hf]. }
  assert (Cq : forall f, (forall ev, enqueue_event name ev -> f ev = false) ->
                         count f rq = 0%nat).
  { intros f Hf. eapply count_none; [exact Hev | exact Hf]. }
  assert (Ct : forall f, (forall ev, try_event ev -> f ev = false) ->
                         count f rt = 0%nat).
  { intros f Hf. eapply count_none; [apply try_emits | exact Hf]. }
  rewrite Hts, finally_phase in Htr, Hctl.
  rewrite Htr, Hst, Hts, Hctl.
  rewrite !count_app.
  rewrite !Cp, !Cq, !Ct by (intros [] H; try destruct H; reflexivity).
  destruct (public self); cbn [r_trace r_ctl].
  - rewrite !count_cons, !count_nil. cbn.
    repeat (split; [reflexivity|]).
    destruct (remove_from_queue w name) as [[]|e']; [left; reflexivity|].
    right. exists e'. auto.
  - rewrite !count_nil. cbn. repeat (split; [reflexivity|]). left. reflexivity.
Qed.

(** ** A run that builds the [Map] *)

Ltac guarded_step H a :=
  match goal with
  | |- context [try_except (lift ?o) ?c ?h] =>
      destruct o as [a|?e] eqn:H;
      [ rewrite bind_guarded_ok
      | let Hc := fresh "Hcatch" in
        destruct (c e) eqn:Hc;
        [ rewrite (bind_guarded_caught _ _ _ _ _ Hc)
        | rewrite (bind_guarded_uncaught _ _ _ _ _ Hc) ];
        cbn [r_ctl]; discriminate ]
  end.

Ltac lift_step :=
  match goal with
  | |- context [bind (lift ?o) _] =>
      let H := fresh "Hlift" in
      destruct o as [?|?e] eqn:H;
      [ rewrite bind_lift_ok | rewrite bind_lift_err; cbn [r_ctl]; discriminate ]
  end.

Ltac call_step :=
  match goal with
  | |- context [bind (call ?ev ?o) _] =>
      let H := fresh "Hcall" in
      destruct o as [?|?e] eqn:H;
      [ rewrite bind_call_ok | rewrite bind_call_err; cbn [r_ctl]; discriminate ]
  end.

Ltac when_step H :=
  match goal with
  | |- context [bind (when ?c _) _] =>
      destruct c eqn:H;
      [ rewrite bind_when_return; cbn [r_ctl]; discriminate
      | rewrite bind_when_false ]
  end.

Lemma load_schema_run w what input s :
  load_schema w what input s
  = if truthy input then
      match loads w input with
      | Ok v => mk_result [] s (Next (Some v))
      | Err e =>
          if isinstance_JSONDecodeError e then
            mk_result
              [StError ("Invalid " +:+ what +:+ " schema was provided: " +:+ exn_repr e)]
              s Return
          else mk_result [] s (Raise e)
      end
    else mk_result [] s (Next None).
Proof.
  unfold load_schema, try_except. destruct (truthy input); [|reflexivity].
  destruct (loads w input) as [v|e]; [reflexivity|].
  rewrite bind_lift_err. cbn [r_ctl r_state r_trace].
  destruct (isinstance_JSONDecodeError e); reflexivity.
Qed.

Ltac schema_step :=
  match goal with
  | |- context [bind (load_schema ?w ?what ?input) ?f ?s] =>
      rewrite (bind_run (load_schema w what input) f s), load_schema_run;
      destruct (truthy input);
      [ destruct (loads w input) as [?|?e];
        [ | destruct (isinstance_JSONDecodeError e); cbn [r_ctl]; discriminate ]
      | ];
      cbn [r_ctl r_state r_trace app]
  | |- context [bind (ret ?a) ?f ?s] => rewrite (bind_ret a f s)
  end.

Lemma prepare_builds_map w self s name mp :
  r_ctl (generate_map_prepare w self s) = Next (name, mp) ->
  obind (lat_lon self) Py.unpack2 = Ok (m_coordinates mp)
  /\ name = get_sesion_name w self (m_coordinates mp)
  /\ exists json_settings,
       r_trace (generate_map_prepare w self s)
       = [Makedirs (m_map_directory mp); AllSettingsFromJson json_settings;
          MapInit mp].
Proof.
  unfold generate_map_prepare.
  guarded_step Hc coordinates. guarded_step Hsz sz. when_step Heven. when_step Hsq.
  call_step. cbn [r_trace r_ctl r_state].
  assert (Hrest : forall json_settings,
    let m :=
      (json_settings <- lift (limit_on_public self json_settings) ;;
       all_settings <-
         call (AllSettingsFromJson json_settings)
           (all_settings_from_json w json_settings) ;;
       texture_schema <-
         (if custom_schemas self then load_schema w "texture" (texture_schema_input self)
          else ret None) ;;
       tree_schema <-
         (if custom_schemas self then load_schema w "tree" (tree_schema_input self)
          else ret None) ;;
       let osm_path := if custom_osm_enabled self then custom_osm_path self else None in
       dem <- lift (Py.getitem all_settings "DEMSettings") ;;
       background <- lift (Py.getitem all_settings "BackgroundSettings") ;;
       grle <- lift (Py.getitem all_settings "GRLESettings") ;;
       i3d <- lift (Py.getitem all_settings "I3DSettings") ;;
       texture <- lift (Py.getitem all_settings "TextureSettings") ;;
       spline <- lift (Py.getitem all_settings "SplineSettings") ;;
       let mp :=
         mk_MapArgs (game_code self) coordinates (fst sz) (rotation self)
           (Py.path_join (MAPS_DIRECTORY w) (get_sesion_name w self coordinates)) osm_path
           dem background grle i3d texture spline texture_schema tree_schema in
       call (MapInit mp) (Map_init w mp) ;;
       ret (get_sesion_name w self coordinates, mp)) in
    r_ctl (m s) = Next (name, mp) ->
    Ok coordinates = Ok (m_coordinates mp)
    /\ name = get_sesion_name w self (m_coordinates mp)
    /\ exists js,
         Makedirs (Py.path_join (MAPS_DIRECTORY w) (get_sesion_name w self coordinates))
           :: r_trace (m s)
         = [Makedirs (m_map_directory mp); AllSettingsFromJson js; MapInit mp]).
  { intros json_settings m. subst m.
    lift_step. call_step. cbn [r_trace r_ctl r_state].
    destruct (custom_schemas self); repeat schema_step.
    all: repeat lift_step; call_step; cbn [r_trace r_ctl r_state ret];
      intros [= <- <-]; cbn; eauto. }
  destruct (negb (expert_mode self)).
  - rewrite bind_ret. apply Hrest.
  - guarded_step Hraw raw. apply Hrest.
Qed.

Lemma map_init_in_trace w self s name mp :
  r_ctl (generate_map_prepare w self s) = Next (name, mp) ->
  In (MapInit mp) (r_trace (generate_map w self s)).
Proof.
  intros Hp. destruct (prepare_builds_map w self s name mp Hp) as (_ & _ & js & Ht).
  destruct (generate_map_trace w self s) as (rest & -> & _).
  apply in_or_app. left. rewrite Ht. right. right. left. reflexivity.
Qed.

Lemma session_name_of_job w self s name mp c :
  r_ctl (generate_map_prepare w self s) = Next (name, mp) ->
  obind (lat_lon self) Py.unpack2 = Ok c ->
  name = get_sesion_name w self c.
Proof.
  intros Hp Hc. destruct (prepare_builds_map w self s name mp Hp) as (Hc' & -> & _).
  congruence.
Qed.

(** ** Instances on the sample worlds *)

Lemma map_is_built_from_the_form_witness :
  exists mp,
    In (MapInit mp) (r_trace (generate_map Sample.calm valid_form Sample.fresh))
    /\ m_size mp = 2048
    /\ built_from_form Sample.calm valid_form mp.
Proof.
  destruct (r_ctl (generate_map_prepare Sample.calm valid_form Sample.fresh))
    as [[name mp]| |] eqn:Hp; [|vm_compute in Hp; discriminate Hp..].
  pose proof (map_init_in_trace _ _ _ _ _ Hp) as Hin.
  pose proof (map_is_built_from_the_form Sample.calm valid_form Sample.fresh mp Hin)
    as Hb.
  exists mp. split; [exact Hin|]. split; [|exact Hb].
  destruct Hb as (_ & Hsz & _). vm_compute in Hsz. injection Hsz as Hsz _.
  symmetry. exact Hsz.
Defined.

Lemma state_changes_only_on_success_witness :
  let r := generate_map Sample.calm valid_form Sample.fresh in
  let rejected := generate_map Sample.calm form_2047 Sample.fresh in
  In (StatusSuccess "Map generated in 12.345 seconds.") (r_trace r)
  /\ download_path (r_state r)
     = Some "archives/FS25_45_00000_20_00000_2025-01-01_12-00-00.zip"
  /\ generated (r_state r) = true
  /\ download_path (r_state rejected) = None
  /\ generated (r_state rejected) = false.
Proof.
  cbv zeta.
  assert (Hin : In (StatusSuccess "Map generated in 12.345 seconds.")
                  (r_trace (generate_map Sample.calm valid_form Sample.fresh))).
  { vm_compute. tauto. }
  split; [exact Hin|].
  destruct (state_changes_only_on_success Sample.calm valid_form Sample.fresh)
    as (Hyes & _ & _).
  destruct (state_changes_only_on_success Sample.calm form_2047 Sample.fresh)
    as (_ & Hno & _).
  destruct (Hyes (ex_intro (fun msg => In (StatusSuccess msg) _) _ Hin))
    as (name & mp & archive & Hp & Hpack & Hd & Hg).
  split.
  - rewrite Hd.
    pose proof (session_name_of_job _ _ _ _ _
                  (FFinite false 450 (-1), FFinite false 200 (-1)) Hp eq_refl) as Hn.
    vm_compute in Hn. subst name.
    cbn in Hpack. injection Hpack as <-. reflexivity.
  - split; [exact Hg|].
    apply Hno. intros msg Hin'. vm_compute in Hin'. destruct Hin' as [Hin'|[]].
    discriminate Hin'.
Defined.

Lemma download_follows_success_witness :
  let r := add_left_widgets Sample.calm valid_form Sample.fresh in
  let archive := "archives/FS25_45_00000_20_00000_2025-01-01_12-00-00.zip" in
  generated Sample.fresh = false
  /\ In (DownloadButton "FS25_45_00000_20_00000_2025-01-01_12-00-00.zip" archive)
       (r_trace r)
  /\ In (StatusSuccess "Map generated in 12.345 seconds.") (r_trace r)
  /\ r_state r = mk_state (Some archive) false [archive].
Proof.
  cbv zeta. split; [reflexivity|].
  assert (Hin : In (DownloadButton "FS25_45_00000_20_00000_2025-01-01_12-00-00.zip"
                      "archives/FS25_45_00000_20_00000_2025-01-01_12-00-00.zip")
                  (r_trace (add_left_widgets Sample.calm valid_form Sample.fresh))).
  { vm_compute. do 25 right. left. reflexivity. }
  split; [exact Hin|].
  destruct (download_follows_success Sample.calm valid_form Sample.fresh _ _
              eq_refl Hin) as (_ & _ & Hs & _ & Hst).
  split; [exact Hs | exact Hst].
Defined.

Lemma interrupted_render_keeps_the_flag_witness :
  let r := add_left_widgets release_fails valid_form Sample.fresh in
  In (StatusSuccess "Map generated in 12.345 seconds.") (r_trace r)
  /\ r_ctl r = Raise release_error
  /\ generated (r_state r) = true
  /\ count is_download_button (r_trace r) = 0%nat.
Proof.
  cbv zeta.
  assert (Hin : In (StatusSuccess "Map generated in 12.345 seconds.")
                  (r_trace (add_left_widgets release_fails valid_form Sample.fresh))).
  { vm_compute. tauto. }
  assert (Hc : r_ctl (add_left_widgets release_fails valid_form Sample.fresh)
               = Raise release_error) by (vm_compute; reflexivity).
  split; [exact Hin|]. split; [exact Hc|].
  destruct (interrupted_render_keeps_the_flag release_fails valid_form Sample.fresh
              _ _ eq_refl Hin Hc) as (Hg & _ & Hn).
  split; [exact Hg | exact Hn].
Defined.

Lemma stale_flag_fails_the_render_witness :
  let s := initial_state (Some true) [] in
  let r := add_left_widgets idle valid_form s in
  generated s = true
  /\ download_path s = None
  /\ (exists e, r_ctl r = Raise e)
  /\ r_state r = s.
Proof.
  cbv zeta. split; [reflexivity|]. split; [reflexivity|].
  destruct (stale_flag_fails_the_render idle valid_form []) as (He & Hs & _).
  - intros msg Hin. vm_compute in Hin.
    repeat (destruct Hin as [Hin|Hin]; [discriminate Hin|]). destruct Hin.
  - split; [exact He | exact Hs].
Defined.

Lemma private_deployment_skips_the_queue_witness :
  let self := Sample.form false "45.0, 20.0" "2048x2048" in
  let r := add_left_widgets Sample.calm self Sample.fresh in
  public self = false
  /\ Forall off_queue_event (r_trace r)
  /\ In (Button "Generate" false) (r_trace r).
Proof.
  cbv zeta. split; [reflexivity|].
  destruct (private_deployment_skips_the_queue Sample.calm
              (Sample.form false "45.0, 20.0" "2048x2048") Sample.fresh eq_refl)
    as (Hq & _ & Hb).
  split; [exact Hq | exact (Hb eq_refl)].
Defined.

Lemma positions_are_shown_in_order_witness :
  let r := generate_map engine_stopped valid_form Sample.fresh in
  public valid_form = true
  /\ filter (fun e => is_status_info e = true) (r_trace r)
     = [StatusInfo "Your position in the queue: 3. Please wait...";
        StatusInfo "Your position in the queue: 2. Please wait...";
        StatusInfo "Your position in the queue: 1. Please wait..."].
Proof.
  cbv zeta. split; [reflexivity|].
  destruct (r_ctl (generate_map_prepare engine_stopped valid_form Sample.fresh))
    as [[name mp]| |] eqn:Hp; [|vm_compute in Hp; discriminate Hp..].
  rewrite (positions_are_shown_in_order engine_stopped valid_form Sample.fresh
             name mp eq_refl Hp eq_refl).
  reflexivity.
Defined.

Lemma release_is_the_last_event_witness :
  let name := "FS25_45_00000_20_00000_2025-01-01_12-00-00" in
  public valid_form = true
  /\ exists pre,
       r_trace (generate_map Sample.calm valid_form Sample.fresh)
       = pre ++ [RemoveFromQueue name]
       /\ count is_dequeue pre = 0%nat
       /\ In (AddToQueue name) pre.
Proof.
  cbv zeta. split; [reflexivity|].
  destruct (r_ctl (generate_map_prepare Sample.calm valid_form Sample.fresh))
    as [[name mp]| |] eqn:Hp; [|vm_compute in Hp; discriminate Hp..].
  assert (Hname : name = "FS25_45_00000_20_00000_2025-01-01_12-00-00").
  { pose proof (session_name_of_job _ _ _ _ _
                  (FFinite false 450 (-1), FFinite false 200 (-1)) Hp eq_refl) as Hn.
    vm_compute in Hn. exact Hn. }
  destruct (release_is_the_last_event Sample.calm valid_form Sample.fresh name mp
              eq_refl Hp) as (pre & Ht & Hn & _ & Hin).
  - rewrite Hname. vm_compute. reflexivity.
  - rewrite Hname in *. exists pre. auto.
Defined.

Lemma exception_outside_Exception_propagates_witness :
  let r := generate_map engine_stopped valid_form Sample.fresh in
  isinstance_Exception script_stopped = false
  /\ r_ctl r = Raise script_stopped
  /\ count is_status_error (r_trace r) = 0%nat
  /\ count is_dequeue (r_trace r) = 1%nat
  /\ download_path (r_state r) = None
  /\ generated (r_state r) = false.
Proof.
  cbv zeta. split; [reflexivity|].
  destruct (r_ctl (generate_map_prepare engine_stopped valid_form Sample.fresh))
    as [[name mp]| |] eqn:Hp; [|vm_compute in Hp; discriminate Hp..].
  assert (Hname : name = "FS25_45_00000_20_00000_2025-01-01_12-00-00").
  { pose proof (session_name_of_job _ _ _ _ _
                  (FFinite false 450 (-1), FFinite false 200 (-1)) Hp eq_refl) as Hn.
    vm_compute in Hn. exact Hn. }
  assert (Hgen : generate engine_stopped mp
                 = mk_generator ["Texture"] (Some script_stopped)) by reflexivity.
  destruct (exception_outside_Exception_propagates engine_stopped valid_form
              Sample.fresh name mp script_stopped Hp)
    as (_ & _ & Hs & Hd & Hpath & Hflag & [Hc|(e' & _ & He' & _)]).
  - rewrite Hname. vm_compute. reflexivity.
  - unfold generate_map_try, for_in. rewrite Hgen. vm_compute. reflexivity.
  - reflexivity.
  - split; [exact Hc|]. split; [exact Hs|]. split; [exact Hd|].
    split; [exact Hpath | exact Hflag].
  - discriminate He'.
Defined.

(** ** [split] and [join] *)

Lemma split_cons sep c s :
  Py.split sep (String c s)
  = match Py.split sep s with
    | [] => [EmptyString]
    | cur :: more =>
        if Ascii.eqb c sep then EmptyString :: cur :: more
        else String c cur :: more
    end.
Proof. reflexivity. Qed.

Lemma split_without sep s : without sep s -> Py.split sep s = [s].
Proof.
  unfold without. induction s as [|c s IH]; [reflexivity|].
  cbn [list_ascii_of_string]. intros H. rewrite split_cons, IH.
  - destruct (Ascii.eqb_spec c sep) as [->|_]; [|reflexivity].
    destruct H. left. reflexivity.
  - intros Hin. apply H. right. exact Hin.
Qed.

Lemma append_nil_l s : "" +:+ s = s.
Proof. reflexivity. Qed.

Lemma append_cons c a b : String c a +:+ b = String c (a +:+ b).
Proof. reflexivity. Qed.

Lemma append_assoc a b c : (a +:+ b) +:+ c = a +:+ b +:+ c.
Proof.
  induction a as [|x a IH]; [reflexivity|]. rewrite !append_cons, IH. reflexivity.
Qed.

Lemma split_app_sep sep a b :
  Py.split sep (a +:+ String sep b) = Py.split sep a ++ Py.split sep b.
Proof.
  induction a as [|c a IH].
  - rewrite append_nil_l, split_cons, Ascii.eqb_refl.
    destruct (Py.split sep b) eqn:E; [destruct (split_not_nil _ _ E)|]. reflexivity.
  - rewrite append_cons, !split_cons, IH.
    destruct (Py.split sep a) eqn:E; [destruct (split_not_nil _ _ E)|].
    cbn [app]. destruct (Ascii.eqb c sep); reflexivity.
Qed.

Lemma split_parts_without sep s :
  Forall (without sep) (Py.split sep s).
Proof.
  induction s as [|c s IH]; [repeat constructor; intros []|].
  rewrite split_cons. destruct (Py.split sep s) as [|cur more].
  - repeat constructor. intros [].
  - apply Forall_cons in IH as [Hcur Hmore].
    destruct (Ascii.eqb_spec c sep) as [->|Hne].
    + repeat constructor; [intros []|exact Hcur|exact Hmore].
    + constructor; [|exact Hmore]. unfold without in *. cbn.
      intros [H|H]; [congruence | exact (Hcur H)].
Qed.

Lemma list_ascii_of_string_app a b :
  list_ascii_of_string (a +:+ b) = list_ascii_of_string a ++ list_ascii_of_string b.
Proof.
  induction a as [|c a IH]; [reflexivity|].
  rewrite append_cons. cbn [list_ascii_of_string]. rewrite IH. reflexivity.
Qed.

(** ** The name of the archive *)

Lemma file_name_of_join dir name :
  without "/" name -> file_name_of (Py.path_join dir name) = name.
Proof.
  intros Hn. unfold file_name_of, Py.path_join.
  destruct (rev (list_ascii_of_string dir)) as [|c l] eqn:Hrev.
  - rewrite (split_without _ _ Hn). reflexivity.
  - destruct (Ascii.eqb_spec c "/") as [->|_].
    + assert (Hd : dir = string_of_list_ascii (rev l) +:+ String "/" "").
      { rewrite <- (string_of_list_ascii_of_string dir).
        rewrite <- (rev_involutive (list_ascii_of_string dir)), Hrev. cbn [rev].
        generalize (rev l). intros l'. induction l' as [|x l' IH]; [reflexivity|].
        cbn. rewrite IH. reflexivity. }
      rewrite Hd. rewrite append_assoc, append_cons, append_nil_l.
      rewrite split_app_sep, (split_without _ _ Hn). apply last_last.
    + change (dir +:+ "/" +:+ name) with (dir +:+ String "/" name).
      rewrite split_app_sep, (split_without _ _ Hn). apply last_last.
Qed.

Lemma file_name_of_without path : without "/" (file_name_of path).
Proof.
  unfold file_name_of. pose proof (split_parts_without "/" path) as H.
  pose proof (split_not_nil "/" path) as Hne.
  induction H as [|x l Hx Hl IH]; [congruence|].
  destruct l as [|y l]; [exact Hx|]. apply IH. discriminate.
Qed.

Lemma without_app c a b : without c a -> without c b -> without c (a +:+ b).
Proof.
  unfold without. rewrite list_ascii_of_string_app. intros Ha Hb Hin.
  apply in_app_or in Hin as [Hin|Hin]; auto.
Qed.

Lemma without_replace c old new s :
  c <> new -> without c s -> without c (Py.replace old new s).
Proof.
  unfold without. intros Hc. induction s as [|x s IH]; [auto|].
  cbn. intros H [Hin|Hin].
  - destruct (Ascii.eqb x old); [congruence|]. apply H. left. exact Hin.
  - apply IH; [|exact Hin]. intros Hs. apply H. right. exact Hs.
Qed.

Lemma replace_without old new s : old <> new -> without old (Py.replace old new s).
Proof.
  unfold without. intros Hne. induction s as [|x s IH]; [intros []|].
  cbn. intros [Hin|Hin]; [|exact (IH Hin)].
  destruct (Ascii.eqb_spec x old); congruence.
Qed.

(** X14: when the formatted coordinates and the timestamp contain no "/",
    the session name is a single path component: the map directory and the
    archive prefix are direct children of their parent directories, named
    after the session, and the shortened coordinates contain no ".". *)
Theorem session_directory_is_a_child w self coordinates :
  without "/" (format_5f w (fst coordinates)) ->
  without "/" (format_5f w (snd coordinates)) ->
  without "/" (now_strftime w) ->
  let session_name := get_sesion_name w self coordinates in
  without "/" session_name
  /\ file_name_of (Py.path_join (MAPS_DIRECTORY w) session_name) = session_name
  /\ file_name_of (Py.path_join (ARCHIVES_DIRECTORY w) session_name) = session_name
  /\ without "." (shorten_coordinate w (fst coordinates))
  /\ without "." (shorten_coordinate w (snd coordinates)).
Proof.
  intros Hlat Hlon Hn session_name.
  assert (Hs : without "/" session_name).
  { subst session_name. unfold get_sesion_name. cbn [map Py.join].
    assert (Hsc : forall x, without "/" (format_5f w x) ->
                            without "/" (shorten_coordinate w x)).
    { intros x Hx. apply without_replace; [discriminate | exact Hx]. }
    repeat apply without_app; auto.
    - destruct (game_code self); cbn; intros H; repeat destruct H as [H|H];
        try discriminate; exact H.
    - intros [H|[]]. discriminate.
    - intros [H|[]]. discriminate.
    - intros [H|[]]. discriminate. }
  split; [exact Hs|].
  split; [apply file_name_of_join, Hs|].
  split; [apply file_name_of_join, Hs|].
  split; apply replace_without; discriminate.
Qed.

Ltac without_tac :=
  unfold without; vm_compute; intros H; repeat destruct H as [H|H];
  first [discriminate H | exact H].

Lemma session_directory_is_a_child_witness :
  let session_name :=
    get_sesion_name Sample.calm valid_form
      (FFinite false 450 (-1), FFinite true 2025 (-2)) in
  session_name = "FS25_45_00000_-20_25000_2025-01-01_12-00-00"
  /\ file_name_of (Py.path_join (MAPS_DIRECTORY Sample.calm) session_name)
     = session_name.
Proof.
  cbv zeta. split; [vm_compute; reflexivity|].
  apply (session_directory_is_a_child Sample.calm valid_form
           (FFinite false 450 (-1), FFinite true 2025 (-2))); without_tac.
Defined.

(** ** [int(str(n))] *)

Lemma pretty_N_char_digit d :
  (d < 10)%N ->
  Py.is_digit (pretty_N_char d) = true /\ Py.digit_value (pretty_N_char d) = d.
Proof.
  intros Hd.
  assert (d = 0 \/ d = 1 \/ d = 2 \/ d = 3 \/ d = 4 \/ d = 5 \/ d = 6 \/ d = 7
          \/ d = 8 \/ d = 9)%N as H by lia.
  repeat destruct H as [H|H]; subst d; split; reflexivity.
Qed.

Lemma fold_digits_app ds d acc :
  fold_left (fun acc d => (10 * acc + d)%N) (ds ++ [d]) acc
  = (10 * fold_left (fun acc d => (10 * acc + d)%N) ds acc + d)%N.
Proof. rewrite fold_left_app. reflexivity. Qed.

(** The characters [pretty_N_go] puts in front of its accumulator are the
    decimal digits of the number. *)
Lemma pretty_N_go_digits x : forall s,
  exists cs,
    list_ascii_of_string (pretty_N_go x s) = cs ++ list_ascii_of_string s
    /\ Forall (fun c => Py.is_digit c = true) cs
    /\ Py.number_of_digits (map Py.digit_value cs) = x
    /\ ((x = 0 /\ cs = [])%N
        \/ (0 < x /\ cs <> [] /\ 10 ^ N.of_nat (length cs) <= 10 * x)%N).
Proof.
  induction (N.lt_wf_0 x) as [x _ IH]. intros s.
  destruct (N.eq_dec x 0%N) as [->|Hx].
  { exists []. rewrite pretty_N_go_0. repeat split; auto. }
  assert (Hpos : (0 < x)%N) by lia.
  rewrite (pretty_N_go_step x s Hpos).
  destruct (IH (x `div` 10)%N (N.div_lt x 10 Hpos eq_refl)
              (String (pretty_N_char (x `mod` 10)) s))
    as (cs & Hcs & Hd & Hv & Hlen).
  assert (Hm : (x `mod` 10 < 10)%N) by (apply N.mod_lt; discriminate).
  destruct (pretty_N_char_digit _ Hm) as [Hdig Hval].
  exists (cs ++ [pretty_N_char (x `mod` 10)]).
  split; [rewrite Hcs, <- app_assoc; reflexivity|].
  split; [apply Forall_app; split; [exact Hd | repeat constructor; exact Hdig]|].
  pose proof (N.div_mod x 10 ltac:(discriminate)) as Hdm.
  split.
  - unfold Py.number_of_digits in *. rewrite map_app. cbn [map].
    rewrite fold_digits_app, Hv, Hval. lia.
  - right. split; [exact Hpos|]. split; [destruct cs; discriminate|].
    rewrite length_app. cbn [length].
    replace (N.of_nat (length cs + 1)) with (N.succ (N.of_nat (length cs))) by lia.
    rewrite N.pow_succ_r'.
    destruct Hlen as [[H0 ->]|(Hq & _ & Hle)]; cbn [length N.of_nat]; lia.
Qed.

Lemma more_digits_all cs :
  Forall (fun c => Py.is_digit c = true) cs ->
  Py.more_digits cs = (map Py.digit_value cs, []).
Proof.
  induction 1 as [|c cs Hc _ IH]; [reflexivity|].
  cbn [Py.more_digits map]. rewrite Hc, IH. reflexivity.
Qed.

Lemma digit_not_space c : Py.is_digit c = true -> Py.is_space c = false.
Proof.
  unfold Py.is_digit, Py.is_space. cbv zeta.
  intros H. apply andb_true_iff in H as [H1 H2].
  apply N.leb_le in H1, H2.
  apply orb_false_iff. split.
  - apply andb_false_iff. right. apply N.leb_gt. lia.
  - apply N.eqb_neq. lia.
Qed.

Lemma digit_not_char c x :
  Py.is_digit x = false -> Py.is_digit c = true -> Ascii.eqb c x = false.
Proof. intros Hx Hc. destruct (Ascii.eqb_spec c x); congruence. Qed.

Lemma strip_digits cs :
  cs <> [] -> Forall (fun c => Py.is_digit c = true) cs -> Py.strip cs = cs.
Proof.
  intros Hne Hd. unfold Py.strip.
  assert (Hl : forall l, l <> [] -> Forall (fun c => Py.is_digit c = true) l ->
                         Py.lstrip l = l).
  { intros [|c l] Hn Hf; [congruence|]. apply Forall_cons in Hf as [Hc _].
    cbn [Py.lstrip]. rewrite (digit_not_space c Hc). reflexivity. }
  rewrite (Hl cs Hne Hd). rewrite Hl.
  - apply rev_involutive.
  - intros H. apply Hne. rewrite <- (rev_involutive cs), H. reflexivity.
  - apply Forall_rev, Hd.
Qed.

Lemma int_digits cs :
  cs <> [] ->
  Forall (fun c => Py.is_digit c = true) cs ->
  (length cs <= Py.int_max_str_digits)%nat ->
  Py.int (string_of_list_ascii cs)
  = Ok (Z.of_N (Py.number_of_digits (map Py.digit_value cs))).
Proof.
  intros Hne Hd Hlen. unfold Py.int.
  rewrite list_ascii_of_string_of_list_ascii, (strip_digits cs Hne Hd).
  destruct cs as [|c cs]; [congruence|].
  pose proof Hd as Hd'. apply Forall_cons in Hd' as [Hc Hcs].
  cbn [Py.sign].
  rewrite (digit_not_char c "-" eq_refl Hc), (digit_not_char c "+" eq_refl Hc).
  cbn [Py.digitpart]. rewrite Hc, (more_digits_all cs Hcs).
  cbn [length map] in *.
  destruct (Nat.ltb_spec Py.int_max_str_digits (S (length (map Py.digit_value cs))))
    as [H|H]; [rewrite length_map in H; lia | reflexivity].
Qed.

Lemma int_str_of_int n :
  0 <= n < 10 ^ 4300 -> Py.int (Py.str_of_int n) = Ok n.
Proof.
  intros [Hn Hmax]. unfold Py.str_of_int.
  destruct n as [|p|p]; [reflexivity| |clear Hmax; lia].
  change (pretty (Z.pos p)) with (pretty (N.pos p)).
  unfold pretty, pretty_N. destruct (decide (N.pos p = 0%N)) as [H|_]; [discriminate|].
  destruct (pretty_N_go_digits (N.pos p) "") as (cs & Hcs & Hd & Hv & Hlen).
  cbn [list_ascii_of_string] in Hcs. rewrite app_nil_r in Hcs.
  rewrite <- (string_of_list_ascii_of_string (pretty_N_go (N.pos p) "")), Hcs.
  destruct Hlen as [[H _]|(_ & Hne & Hle)]; [discriminate|].
  rewrite (int_digits cs Hne Hd), Hv; [reflexivity|].
  unfold Py.int_max_str_digits.
  assert (Hlt : (10 ^ N.of_nat (length cs) < 10 ^ 4301)%N).
  { eapply N.le_lt_trans; [exact Hle|].
    change 4301%N with (N.succ 4300). rewrite N.pow_succ_r'.
    apply N.mul_lt_mono_pos_l; [reflexivity|].
    apply N2Z.inj_lt. rewrite N2Z.inj_pow. exact Hmax. }
  apply N.pow_lt_mono_r_iff in Hlt; [lia | reflexivity].
Qed.

Lemma str_of_int_digits n :
  0 <= n ->
  Forall (fun c => Py.is_digit c = true) (list_ascii_of_string (Py.str_of_int n)).
Proof.
  intros Hn. unfold Py.str_of_int.
  destruct n as [|p|p]; [repeat constructor| |lia].
  change (pretty (Z.pos p)) with (pretty (N.pos p)).
  unfold pretty, pretty_N. destruct (decide (N.pos p = 0%N)) as [H|_]; [discriminate|].
  destruct (pretty_N_go_digits (N.pos p) "") as (cs & Hcs & Hd & _).
  cbn [list_ascii_of_string] in Hcs. rewrite app_nil_r in Hcs.
  rewrite Hcs. exact Hd.
Qed.

(** ** The sizes of the form *)

Lemma custom_size_parses self n :
  0 <= n < 10 ^ 4300 ->
  map_size_input self = selected_map_size "Custom" n ->
  obind (map_size self) Py.unpack2 = Ok (n, n).
Proof.
  intros Hn Hin. unfold map_size. rewrite Hin.
  change (selected_map_size "Custom" n)
    with (Py.str_of_int n +:+ String "x" (Py.str_of_int n)).
  assert (Hx : without "x" (Py.str_of_int n)).
  { unfold without. intros H. pose proof (str_of_int_digits n (proj1 Hn)) as Hd.
    rewrite Forall_forall in Hd. apply list_elem_of_In, Hd in H. discriminate H. }
  rewrite split_app_sep, (split_without _ _ Hx). cbn [app Py.map_tuple].
  rewrite (int_str_of_int n Hn). reflexivity.
Qed.

Lemma selected_size_is_square self choice n :
  In choice (size_options self) ->
  0 <= n < 10 ^ 4300 ->
  map_size_input self = selected_map_size choice n ->
  exists h,
    obind (map_size self) Py.unpack2 = Ok (h, h)
    /\ ((choice = "Custom" /\ public self = false /\ h = n)
        \/ (choice <> "Custom" /\ h mod 2 = 0
            /\ 2048 <= h <= (if public self then 8192 else 16384))).
Proof.
  intros Hc Hn Hin. unfold size_options in Hc. cbv zeta in Hc.
  assert (Hfixed : forall text h,
    choice = text -> String.eqb text "Custom" = false ->
    Py.map_tuple Py.int (Py.split "x" text) = Ok [h; h] ->
    h mod 2 = 0 /\ 2048 <= h <= (if public self then 8192 else 16384) ->
    exists h,
      obind (map_size self) Py.unpack2 = Ok (h, h)
      /\ ((choice = "Custom" /\ public self = false /\ h = n)
          \/ (choice <> "Custom" /\ h mod 2 = 0
              /\ 2048 <= h <= (if public self then 8192 else 16384)))).
  { intros text h -> Hne Hparse Hh. exists h. split.
    - unfold map_size. rewrite Hin. unfold selected_map_size. rewrite Hne, Hparse.
      reflexivity.
    - right. split; [|exact Hh]. intros ->. discriminate Hne. }
  destruct (public self) eqn:Hp; cbn [firstn] in Hc.
  - destruct Hc as [Hc|[Hc|[Hc|[]]]]; symmetry in Hc.
    + clear Hn; apply (Hfixed _ 2048 Hc); [reflexivity..|split; [reflexivity|lia]].
    + clear Hn; apply (Hfixed _ 4096 Hc); [reflexivity..|split; [reflexivity|lia]].
    + clear Hn; apply (Hfixed _ 8192 Hc); [reflexivity..|split; [reflexivity|lia]].
  - destruct Hc as [Hc|[Hc|[Hc|[Hc|[Hc|[]]]]]]; symmetry in Hc.
    + clear Hn; apply (Hfixed _ 2048 Hc); [reflexivity..|split; [reflexivity|lia]].
    + clear Hn; apply (Hfixed _ 4096 Hc); [reflexivity..|split; [reflexivity|lia]].
    + clear Hn; apply (Hfixed _ 8192 Hc); [reflexivity..|split; [reflexivity|lia]].
    + clear Hn; apply (Hfixed _ 16384 Hc); [reflexivity..|split; [reflexivity|lia]].
    + subst choice. exists n. split; [apply custom_size_parses; assumption|].
      left. auto.
Qed.

(** X15: whatever the size box offers passes the size checks of
    [generate_map], a custom size apart: the run never reports an invalid or
    a non-square size, it reports a size that is not even only for an odd
    custom size on a private deployment, and a [Map] is built only with an
    even size, between 2048 and 8192 on a public deployment, equal to the
    custom size when one was entered. *)
Theorem selected_size_passes_the_checks w self s choice n :
  In choice (size_options self) ->
  0 <= n < 10 ^ 4300 ->
  map_size_input self = selected_map_size choice n ->
  let r := generate_map w self s in
  ~ In (StError invalid_size_message) (r_trace r)
  /\ ~ In (StError not_square_message) (r_trace r)
  /\ (In (StError odd_size_message) (r_trace r) ->
      public self = false /\ choice = "Custom" /\ n mod 2 = 1)
  /\ (forall mp, In (MapInit mp) (r_trace r) ->
        m_size mp mod 2 = 0
        /\ (public self = true -> 2048 <= m_size mp <= 8192)
        /\ (choice = "Custom" -> m_size mp = n)).
Proof.
  intros Hc Hn Hin r. subst r.
  destruct (selected_size_is_square self choice n Hc Hn Hin) as (h & Hsz & Hh).
  set (P := fun e =>
    match e with
    | StError msg =>
        msg <> invalid_size_message /\ msg <> not_square_message
        /\ (msg = odd_size_message ->
            public self = false /\ choice = "Custom" /\ n mod 2 = 1)
    | MapInit mp =>
        m_size mp mod 2 = 0
        /\ (public self = true -> 2048 <= m_size mp <= 8192)
        /\ (choice = "Custom" -> m_size mp = n)
    | _ => True
    end).
  assert (H : emits P (generate_map w self)).
  { unfold generate_map. apply emits_def, emits_bind.
    2: { intros job _.
         unfold generate_map_enqueue, generate_map_try, generate_map_except,
           generate_map_finally, progress.
         emits_with ltac:(exact I). }
    unfold generate_map_prepare. rewrite Hsz.
    apply emits_bind.
    { emits_with ltac:(cbn; repeat split; discriminate). }
    intros coordinates _.
    apply emits_bind_guarded_ok. cbn [fst snd]. rewrite Z.eqb_refl. cbn [negb].
    rewrite orb_diag.
    destruct (h mod 2 =? 0) eqn:Heven; cbn [negb].
    - apply Z.eqb_eq in Heven.
      apply emits_bind; [apply emits_ret | intros _ _].
      apply emits_bind; [apply emits_ret | intros _ _].
      unfold load_schema.
      emits_with ltac:(first [ exact I
                             | cbn; repeat split; discriminate
                             | idtac ]).
      cbn. split; [exact Heven|]. split.
      + intros Hp. destruct Hh as [(_ & Hp' & _)|(_ & _ & Hr)]; [congruence|].
        rewrite Hp in Hr. exact Hr.
      + intros ->. destruct Hh as [(_ & _ & ->)|(Hne & _)]; [reflexivity|].
        destruct Hne. reflexivity.
    - apply Z.eqb_neq in Heven.
      apply emits_bind.
      + apply emits_when, emits_bind; [|intros; apply emits_return].
        apply emits_emit. cbn. split; [discriminate|]. split; [discriminate|].
        intros _. destruct Hh as [(-> & Hp & ->)|(_ & He & _)]; [|congruence].
        split; [exact Hp|]. split; [reflexivity|].
        clear Hn. pose proof (Z.mod_pos_bound n 2 ltac:(lia)). lia.
      + intros [] Hm. apply may_return_when_return in Hm. discriminate Hm. }
  split; [|split; [|split]].
  - intros Hi. specialize (H s). rewrite Forall_forall in H.
    apply list_elem_of_In, H in Hi. destruct Hi as (Hi & _). congruence.
  - intros Hi. specialize (H s). rewrite Forall_forall in H.
    apply list_elem_of_In, H in Hi. destruct Hi as (_ & Hi & _). congruence.
  - intros Hi. specialize (H s). rewrite Forall_forall in H.
    apply list_elem_of_In, H in Hi. destruct Hi as (_ & _ & Hi). apply Hi. reflexivity.
  - intros mp Hi. specialize (H s). rewrite Forall_forall in H.
    apply list_elem_of_In, H in Hi. exact Hi.
Qed.

Lemma selected_size_passes_the_checks_witness :
  let self := Sample.form false "45.0, 20.0" "2047x2047" in
  let r := generate_map Sample.calm self Sample.fresh in
  In "Custom" (size_options self)
  /\ map_size_input self = selected_map_size "Custom" 2047
  /\ In (StError odd_size_message) (r_trace r)
  /\ ~ In (StError not_square_message) (r_trace r)
  /\ 2047 mod 2 = 1.
Proof.
  cbv zeta.
  assert (Hc : In "Custom" (size_options (Sample.form false "45.0, 20.0" "2047x2047"))).
  { cbn. tauto. }
  assert (Hin : map_size_input (Sample.form false "45.0, 20.0" "2047x2047")
                = selected_map_size "Custom" 2047) by (vm_compute; reflexivity).
  assert (Hn : 0 <= 2047 < 10 ^ 4300) by (split; [lia | reflexivity]).
  destruct (selected_size_passes_the_checks Sample.calm _ Sample.fresh "Custom" 2047
              Hc Hn Hin) as (_ & Hsq & Hodd & _).
  assert (Hi : In (StError odd_size_message)
                 (r_trace (generate_map Sample.calm
                             (Sample.form false "45.0, 20.0" "2047x2047") Sample.fresh))).
  { vm_compute. left. reflexivity. }
  split; [exact Hc|]. split; [exact Hin|]. split; [exact Hi|]. split; [exact Hsq|].
  apply (Hodd Hi).
Defined.

(** ** [snake_to_human] *)

Example replace_category :
  PyStr.replace "Settings" " Settings" "BackgroundSettings" = "Background Settings"
  /\ PyStr.replace "aa" "b" "aaa" = "ba"
  /\ PyStr.replace "" "-" "abc" = "-a-b-c-"
  /\ PyStr.endswith ".png" "previews/dem.png" = true
  /\ PyStr.endswith ".png" "png" = false.
Proof. repeat split. Qed.

Lemma join_cons_cons sep x y l :
  Py.join sep (x :: y :: l) = x +:+ sep +:+ Py.join sep (y :: l).
Proof. reflexivity. Qed.

Lemma join_String sep c x l :
  Py.join sep (String c x :: l) = String c (Py.join sep (x :: l)).
Proof. destruct l; reflexivity. Qed.

Lemma snake_to_human_chars s :
  match Py.split "_" s with
  | cur :: more =>
      Py.join " " (PyStr.capitalize cur :: map PyStr.capitalize more) = human true s
      /\ Py.join " " (PyStr.map_str Py.lower cur :: map PyStr.capitalize more)
         = human false s
  | [] => False
  end.
Proof.
  induction s as [|c s IH]; [split; reflexivity|].
  rewrite split_cons. destruct (Py.split "_" s) as [|cur more]; [destruct IH|].
  destruct IH as [IH1 IH2]. cbn [human].
  destruct (Ascii.eqb c "_").
  - cbn [map]. cbn [PyStr.capitalize PyStr.map_str].
    rewrite !join_cons_cons, IH1. split; reflexivity.
  - cbn [PyStr.capitalize PyStr.map_str]. rewrite !join_String, IH2.
    split; reflexivity.
Qed.

Lemma snake_to_human_human s : snake_to_human s = human true s.
Proof.
  unfold snake_to_human. pose proof (snake_to_human_chars s) as H.
  destruct (Py.split "_" s) as [|cur more]; [destruct H|]. apply H.
Qed.

Lemma upper_not_underscore c : Ascii.eqb c "_" = false -> PyStr.upper c <> "_"%char.
Proof.
  intros Hc. unfold PyStr.upper. cbv zeta.
  destruct ((97 <=? N_of_ascii c) && (N_of_ascii c <=? 122))%N eqn:H.
  - apply andb_true_iff in H as [H1 H2]. apply N.leb_le in H1, H2.
    intros Heq. apply (f_equal N_of_ascii) in Heq.
    rewrite N_ascii_embedding in Heq by lia. cbn in Heq. lia.
  - intros ->. discriminate Hc.
Qed.

Lemma lower_not_underscore c : Ascii.eqb c "_" = false -> Py.lower c <> "_"%char.
Proof.
  intros Hc. unfold Py.lower. cbv zeta.
  destruct ((65 <=? N_of_ascii c) && (N_of_ascii c <=? 90))%N eqn:H.
  - apply andb_true_iff in H as [H1 H2]. apply N.leb_le in H1, H2.
    intros Heq. apply (f_equal N_of_ascii) in Heq.
    rewrite N_ascii_embedding in Heq by lia. cbn in Heq. lia.
  - intros ->. discriminate Hc.
Qed.

Lemma lower_upper c : Py.lower (PyStr.upper c) = Py.lower c.
Proof.
  unfold PyStr.upper. cbv zeta.
  destruct ((97 <=? N_of_ascii c) && (N_of_ascii c <=? 122))%N eqn:H;
    [|reflexivity].
  apply andb_true_iff in H as [H1 H2]. apply N.leb_le in H1, H2.
  unfold Py.lower. cbv zeta. rewrite N_ascii_embedding by lia.
  assert (H65 : (65 <=? N_of_ascii c - 32)%N = true) by (apply N.leb_le; lia).
  assert (H90 : (N_of_ascii c - 32 <=? 90)%N = true) by (apply N.leb_le; lia).
  rewrite H65, H90. cbn [andb].
  replace (N_of_ascii c - 32 + 32)%N with (N_of_ascii c) by lia.
  rewrite ascii_N_embedding.
  assert (H65' : (N_of_ascii c <=? 90)%N = false) by (apply N.leb_gt; lia).
  rewrite H65', andb_false_r. reflexivity.
Qed.

Lemma lower_lower c : Py.lower (Py.lower c) = Py.lower c.
Proof.
  unfold Py.lower. cbv zeta.
  destruct ((65 <=? N_of_ascii c) && (N_of_ascii c <=? 90))%N eqn:H.
  - apply andb_true_iff in H as [H1 H2]. apply N.leb_le in H1, H2.
    rewrite N_ascii_embedding by lia.
    assert (H90 : (N_of_ascii c + 32 <=? 90)%N = false) by (apply N.leb_gt; lia).
    rewrite H90, andb_false_r. reflexivity.
  - rewrite H. reflexivity.
Qed.

Lemma lower_space : Py.lower " " = " "%char.
Proof. reflexivity. Qed.

Lemma human_keeps_the_name s : forall start,
  String.length (human start s) = String.length s
  /\ without "_" (human start s)
  /\ (without " " s ->
      Py.replace " " "_" (PyStr.map_str Py.lower (human start s))
      = PyStr.map_str Py.lower s).
Proof.
  induction s as [|c s IH]; intros start.
  { repeat split. intros []. }
  destruct (IH true) as (L1 & W1 & R1). destruct (IH false) as (L2 & W2 & R2).
  cbn [human]. destruct (Ascii.eqb_spec c "_") as [->|Hc].
  - split; [cbn; rewrite L1; reflexivity|]. split.
    + unfold without in *. cbn. intros [H|H]; [discriminate | exact (W1 H)].
    + intros Hs. cbn. rewrite R1; [reflexivity|].
      unfold without in *. cbn in Hs. tauto.
  - apply Ascii.eqb_neq in Hc.
    split; [cbn; rewrite L2; reflexivity|]. split.
    + unfold without in *. cbn. intros [H|H]; [|exact (W2 H)].
      destruct start; [apply (upper_not_underscore c Hc) | apply (lower_not_underscore c Hc)];
        exact H.
    + intros Hs. cbn [PyStr.map_str Py.replace].
      assert (Hsp : c <> " "%char).
      { intros ->. apply Hs. left. reflexivity. }
      rewrite R2 by (unfold without in *; cbn in Hs; tauto).
      assert (Hl : Py.lower (if start then PyStr.upper c else Py.lower c) = Py.lower c).
      { destruct start; [apply lower_upper | apply lower_lower]. }
      rewrite Hl.
      assert (Hls : Ascii.eqb (Py.lower c) " " = false).
      { apply Ascii.eqb_neq. intros Heq. unfold Py.lower in Heq. cbv zeta in Heq.
        destruct ((65 <=? N_of_ascii c) && (N_of_ascii c <=? 90))%N eqn:H;
          [|congruence].
        apply andb_true_iff in H as [H1 H2]. apply N.leb_le in H1, H2.
        apply (f_equal N_of_ascii) in Heq.
        rewrite N_ascii_embedding in Heq by lia. cbn in Heq. lia. }
      rewrite Hls. reflexivity.
Qed.

(** X16: the label [snake_to_human] builds from an ASCII field name has the
    length of the name and no underscore, and the name in lower case is read
    back from it by lowering the case and putting the underscores back.
    ASCII is the range in which [PyStr.upper] and [Py.lower] are Python's
    [str.upper] and [str.lower]. *)
Theorem snake_to_human_keeps_the_name s :
  ascii_only s ->
  String.length (snake_to_human s) = String.length s
  /\ without "_" (snake_to_human s)
  /\ (without " " s ->
      Py.replace " " "_" (PyStr.map_str Py.lower (snake_to_human s))
      = PyStr.map_str Py.lower s).
Proof. intros _. rewrite snake_to_human_human. apply human_keeps_the_name. Qed.

Lemma snake_to_human_keeps_the_name_witness :
  snake_to_human "resize_factor" = "Resize Factor"
  /\ without "_" (snake_to_human "resize_factor")
  /\ Py.replace " " "_" (PyStr.map_str Py.lower (snake_to_human "resize_factor"))
     = "resize_factor".
Proof.
  split; [reflexivity|].
  assert (Ha : ascii_only "resize_factor").
  { unfold ascii_only. cbn. repeat constructor. }
  destruct (snake_to_human_keeps_the_name "resize_factor" Ha) as (_ & Hw & Hr).
  split; [exact Hw|]. rewrite Hr; [reflexivity|]. without_tac.
Defined.

(** ** Rules for the statements of the page *)

Section PageRules.
Import Page.
Local Open Scope page_scope.

Lemma page_bind_ret {A B} (a : A) (f : A -> P B) : bind (ret a) f = f a.
Proof. unfold bind, ret. cbn. destruct (f a). reflexivity. Qed.

Lemma page_bind_emit {B} c (f : unit -> P B) :
  bind (emit c) f = (c :: fst (f tt), snd (f tt)).
Proof. reflexivity. Qed.

Lemma page_bind_raise {A B} e (f : A -> P B) : bind (raise e) f = ([], Raise e).
Proof. reflexivity. Qed.

Lemma page_bind_return {A B} (f : A -> P B) : bind return_ f = ([], Return).
Proof. reflexivity. Qed.

Lemma page_bind_bind {A B C} (m : P A) (f : A -> P B) (g : B -> P C) :
  bind (bind m f) g = bind m (fun a => bind (f a) g).
Proof.
  unfold bind. destruct m as [t [a| |e]]; cbn; try reflexivity.
  destruct (f a) as [t' [b| |e]]; cbn; rewrite ?app_assoc; reflexivity.
Qed.

Lemma page_bind_ask_ok {A B} c (a : A) (f : A -> P B) :
  bind (ask c (Ok a)) f = (c :: fst (f a), snd (f a)).
Proof. reflexivity. Qed.

Lemma page_bind_ask_err {A B} c e (f : A -> P B) :
  bind (ask c (@Err A e)) f = ([c], Raise e).
Proof. reflexivity. Qed.

Lemma page_bind_lift_ok {A B} (a : A) (f : A -> P B) : bind (lift (Ok a)) f = f a.
Proof. apply page_bind_ret. Qed.

Lemma page_bind_lift_err {A B} e (f : A -> P B) :
  bind (lift (@Err A e)) f = ([], Raise e).
Proof. reflexivity. Qed.

Lemma calls_bind {A B} Q (m : P A) (f : A -> P B) :
  calls Q m -> (forall a, snd m = Next a -> calls Q (f a)) -> calls Q (bind m f).
Proof.
  unfold calls, bind. intros Hm Hf. destruct (snd m) eqn:E; cbn; auto.
  apply Forall_app. split; [exact Hm | apply Hf; reflexivity].
Qed.

Lemma calls_for_items {A S} Q (body : A -> S -> P S) items :
  (forall x acc, In x items -> calls Q (body x acc)) ->
  forall acc, calls Q (for_items items acc body).
Proof.
  induction items as [|x xs IH]; intros Hb acc; [constructor|].
  cbn [for_items]. apply calls_bind.
  - apply Hb. left. reflexivity.
  - intros acc' _. apply IH. intros y a Hy. apply Hb. right. exact Hy.
Qed.

Lemma calls_try_except {A} Q (m : P A) catches handler :
  calls Q m -> (forall e, calls Q (handler e)) -> calls Q (try_except m catches handler).
Proof.
  unfold calls, try_except. intros Hm Hh.
  destruct (snd m) as [a| |e]; auto. destruct (catches e); auto.
  cbn. apply Forall_app. split; [exact Hm | apply Hh].
Qed.

Lemma calls_def Q body : calls Q body -> calls Q (def_ body).
Proof. unfold calls, def_. destruct (snd body); auto. Qed.

Lemma calls_emit (Q : call -> Prop) c : Q c -> calls Q (emit c).
Proof. intros H. repeat constructor. exact H. Qed.

Lemma calls_ask {A} (Q : call -> Prop) c (o : outcome A) : Q c -> calls Q (ask c o).
Proof. intros H. destruct o; repeat constructor; exact H. Qed.

Lemma calls_quiet {A} Q (m : P A) : fst m = [] -> calls Q m.
Proof. unfold calls. intros ->. constructor. Qed.

(** A loop whose body adds one entry to a dictionary. *)
Lemma page_for_items_inserts {A : Type} (good : A -> pyval -> Prop) (key : A -> string)
    (body : A -> gmap string pyval -> P (gmap string pyval)) :
  (forall x acc acc1, snd (body x acc) = Next acc1 ->
     exists w, acc1 = <[key x := w]> acc /\ good x w) ->
  forall items acc acc',
    snd (for_items items acc body) = Next acc' ->
    (forall k, is_Some (acc' !! k) <-> is_Some (acc !! k) \/ In k (map key items))
    /\ (forall k v, acc' !! k = Some v ->
          acc !! k = Some v \/ exists x, In x items /\ key x = k /\ good x v).
Proof.
  intros Hb. induction items as [|x xs IH]; intros acc acc'.
  - cbn. intros [= <-]. split; [|auto]. intros k. tauto.
  - cbn [for_items]. unfold bind at 1.
    destruct (snd (body x acc)) as [acc1| |e] eqn:E; cbn [snd]; try discriminate.
    intros Hrest. destruct (Hb x acc acc1 E) as (w & -> & Hw).
    destruct (IH _ _ Hrest) as [Hk Hv]. split.
    + intros k. rewrite Hk. cbn [map In].
      destruct (decide (key x = k)) as [->|Hne].
      * rewrite lookup_insert_eq. split; [auto|]. intros _. left. eauto.
      * rewrite lookup_insert_ne by exact Hne. tauto.
    + intros k v Hl. destruct (Hv k v Hl) as [H|(y & Hy & Hky & Hg)].
      * destruct (decide (key x = k)) as [<-|Hne].
        -- rewrite lookup_insert_eq in H. injection H as <-.
           right. exists x. split; [left; reflexivity|]. auto.
        -- rewrite lookup_insert_ne in H by exact Hne. left. exact H.
      * right. exists y. split; [right; exact Hy|]. auto.
Qed.

(** A loop that ends normally has run its body normally on every item. *)
Lemma page_for_items_all {A S} (ok : A -> Prop) (body : A -> S -> P S) :
  (forall x acc acc1, snd (body x acc) = Next acc1 -> ok x) ->
  forall items acc acc',
    snd (for_items items acc body) = Next acc' -> Forall ok items.
Proof.
  intros Hb. induction items as [|x xs IH]; intros acc acc'; [constructor|].
  cbn [for_items]. unfold bind at 1.
  destruct (snd (body x acc)) as [acc1| |e] eqn:E; cbn [snd]; try discriminate.
  intros Hrest. constructor; [eapply Hb, E | eapply IH, Hrest].
Qed.

End PageRules.

(** ** The settings widgets *)

Section Settings.
Import Page.
Local Open Scope page_scope.

Variable tk : Toolkit.
Variable self : GeneratorUI.

Lemma when_notice_next c body :
  snd (when c (emit (Notice body))) = Next tt.
Proof. destruct c; reflexivity. Qed.

Lemma bind_when_notice {B} c body (f : unit -> P B) :
  snd (bind (when c (emit (Notice body))) f) = snd (f tt).
Proof. destruct c; reflexivity. Qed.

Lemma create_widget_next field_name raw_field_name value disabled w :
  snd (_create_widget tk field_name raw_field_name value disabled) = Next w ->
  same_type value w.
Proof.
  unfold _create_widget. rewrite bind_when_notice.
  destruct value as [|b|z| | | |]; try discriminate.
  - destruct (checkbox tk raw_field_name b disabled) as [v|e]; [|discriminate].
    rewrite page_bind_ask_ok. cbn. intros [= <-]. exact I.
  - destruct (number_input tk raw_field_name z disabled) as [v|e]; [|discriminate].
    rewrite page_bind_ask_ok. cbn. intros [= <-]. exact I.
Qed.

Lemma field_widget_next field acc acc1 :
  snd (field_widget tk self field acc) = Next acc1 ->
  exists w, acc1 = <[fst field := w]> acc /\ same_type (snd field) w.
Proof.
  unfold field_widget. cbv zeta.
  destruct (settings_text tk _) as [text|e]; [|discriminate].
  rewrite page_bind_lift_ok, page_bind_emit. cbn [snd].
  unfold bind at 1.
  destruct (snd (_create_widget tk _ _ _ _)) as [w| |e] eqn:E; try discriminate.
  cbn. intros [= <-]. exists w. split; [reflexivity|].
  eapply create_widget_next, E.
Qed.

Lemma category_widgets_next model acc acc1 :
  snd (category_widgets tk self model acc) = Next acc1 ->
  exists w, acc1 = <[fst model := w]> acc /\ category_of model w.
Proof.
  unfold category_widgets. cbv zeta. rewrite page_bind_emit. cbn [snd].
  unfold bind at 1.
  destruct (snd (for_items (snd model) ∅ (field_widget tk self)))
    as [category| |e] eqn:E; try discriminate.
  cbn. intros [= <-]. exists (PDict category). split; [reflexivity|].
  destruct (page_for_items_inserts (fun field w => same_type (snd field) w) fst
              (field_widget tk self) field_widget_next _ _ _ E) as [Hk Hv].
  exists category. split; [reflexivity|]. split.
  - intros f. rewrite Hk, lookup_empty. split; [intros [[? H]|H]; [discriminate|exact H]|auto].
  - intros f y Hy. destruct (Hv f y Hy) as [H|H]; [rewrite lookup_empty in H; discriminate|].
    exact H.
Qed.

Lemma get_settings_mirrors models v :
  all_settings tk = Ok models ->
  snd (get_settings tk self) = Next v ->
  mirrors models v.
Proof.
  intros Hm. unfold get_settings. rewrite Hm, page_bind_ask_ok. cbn [snd].
  unfold bind at 1.
  destruct (snd (for_items models ∅ (category_widgets tk self)))
    as [d| |e] eqn:E; try discriminate.
  cbn. intros [= <-]. exists d. split; [reflexivity|].
  destruct (page_for_items_inserts category_of fst
              (category_widgets tk self) category_widgets_next _ _ _ E) as [Hk Hv].
  split.
  - intros k. rewrite Hk, lookup_empty. split; [intros [[? H]|H]; [discriminate|exact H]|auto].
  - intros k x Hx. destruct (Hv k x Hx) as [H|H];
      [rewrite lookup_empty in H; discriminate | exact H].
Qed.

End Settings.

Section SettingsTheorems.
Import Page.
Local Open Scope page_scope.

Variable tk : Toolkit.
Variable self : GeneratorUI.

Lemma create_widget_supported field_name raw_field_name value disabled w :
  snd (_create_widget tk field_name raw_field_name value disabled) = Next w ->
  supported value.
Proof.
  intros H. apply create_widget_next in H. destruct value; try destruct H; exact I.
Qed.

Lemma field_widget_supported field acc acc1 :
  snd (field_widget tk self field acc) = Next acc1 -> supported (snd field).
Proof.
  unfold field_widget. cbv zeta.
  destruct (settings_text tk _) as [text|e]; [|discriminate].
  rewrite page_bind_lift_ok, page_bind_emit. cbn [snd].
  unfold bind at 1.
  destruct (snd (_create_widget tk _ _ _ _)) as [w| |e] eqn:E; try discriminate.
  intros _. eapply create_widget_supported, E.
Qed.

Lemma category_widgets_supported model acc acc1 :
  snd (category_widgets tk self model acc) = Next acc1 ->
  Forall (fun field => supported (snd field)) (snd model).
Proof.
  unfold category_widgets. cbv zeta. rewrite page_bind_emit. cbn [snd].
  unfold bind at 1.
  destruct (snd (for_items (snd model) ∅ (field_widget tk self)))
    as [category| |e] eqn:E; try discriminate.
  intros _. eapply page_for_items_all; [|exact E].
  intros x a a1. apply field_widget_supported.
Qed.

(** X17: the dictionary [get_settings] assigns mirrors the settings models:
    one category per model class, one field per item, each value of the type
    of its default; and it is assigned only when every default is an [int] or
    a [bool]. *)
Theorem collected_settings_mirror_the_models models v :
  all_settings tk = Ok models ->
  snd (get_settings tk self) = Next v ->
  mirrors models v
  /\ Forall (fun model => Forall (fun field => supported (snd field)) (snd model))
       models.
Proof.
  intros Hm Hv. split; [apply (get_settings_mirrors tk self models v Hm Hv)|].
  revert Hv. unfold get_settings. rewrite Hm, page_bind_ask_ok. cbn [snd].
  unfold bind at 1.
  destruct (snd (for_items models ∅ (category_widgets tk self)))
    as [d| |e] eqn:E; try discriminate.
  intros _. eapply page_for_items_all; [|exact E].
  intros x a a1. apply category_widgets_supported.
Qed.

(** X18: on a public deployment [limit_on_public] accepts the dictionary
    collected by [get_settings] exactly when the models include
    [BackgroundSettings] and [TextureSettings]. *)
Theorem collected_settings_pass_the_limit models v :
  all_settings tk = Ok models ->
  snd (get_settings tk self) = Next v ->
  public self = true ->
  ((exists v', limit_on_public self v = Ok v')
   <-> In "BackgroundSettings" (map fst models)
       /\ In "TextureSettings" (map fst models)).
Proof.
  intros Hm Hv Hp.
  destruct (get_settings_mirrors tk self models v Hm Hv) as (d & -> & Hk & Hx).
  split.
  - intros [v' Hl].
    destruct (limit_on_public_ok_inv self _ _ Hp Hl) as (d' & bg & tx & Hd & Hbg & Htx & _).
    injection Hd as <-. split; apply Hk; eauto.
  - intros [Hbg Htx]. apply Hk in Hbg as [bg Hbg]. apply Hk in Htx as [tx Htx].
    destruct (Hx _ _ Hbg) as (_ & _ & _ & bgf & -> & _).
    destruct (Hx _ _ Htx) as (_ & _ & _ & txf & -> & _).
    rewrite (limit_on_public_limits self d bgf txf Hp Hbg Htx). eauto.
Qed.

Lemma field_widget_run field acc :
  widgets_return tk ->
  exists t,
    field_widget tk self field acc
    = (t, match snd field with
          | PInt z =>
              match number_input tk (fst field) z
                      (is_disabled_on_public self (fst field)) with
              | Ok v => Next (<[fst field := PInt v]> acc)
              | Err e => Raise e
              end
          | PBool b =>
              match checkbox tk (fst field) b
                      (is_disabled_on_public self (fst field)) with
              | Ok v => Next (<[fst field := PBool v]> acc)
              | Err e => Raise e
              end
          | value => Raise (unsupported_type value)
          end).
Proof.
  intros (Ht & _ & _). unfold field_widget, _create_widget. cbv zeta.
  destruct (Ht (PyStr.map_str PyStr.upper (fst field))) as [text ->].
  destruct (is_disabled_on_public self (fst field));
    destruct (snd field) as [|b|z| | | |];
    try (eexists; reflexivity).
  - destruct (checkbox tk (fst field) b true); eexists; reflexivity.
  - destruct (number_input tk (fst field) z true); eexists; reflexivity.
  - destruct (checkbox tk (fst field) b false); eexists; reflexivity.
  - destruct (number_input tk (fst field) z false); eexists; reflexivity.
Qed.

(** With a toolkit whose calls return, the loop over the fields ends
    normally on supported values and raises on the first other one. *)
Lemma fields_loop fields : forall acc,
  widgets_return tk ->
  (Forall (fun field => supported (snd field)) fields
   /\ exists acc', snd (for_items fields acc (field_widget tk self)) = Next acc')
  \/ (exists field,
        In field fields /\ ~ supported (snd field)
        /\ snd (for_items fields acc (field_widget tk self))
           = Raise (unsupported_type (snd field))).
Proof.
  induction fields as [|field fields IH]; intros acc Hw.
  { left. split; [constructor|]. eexists. reflexivity. }
  cbn [for_items]. unfold bind.
  destruct (field_widget_run field acc Hw) as [t ->]. cbn [fst snd].
  pose proof Hw as (_ & Hn & Hc).
  assert (Hgo : forall w, supported (snd field) ->
    (Forall (fun field => supported (snd field)) (field :: fields)
     /\ exists acc',
          snd (t ++ fst (for_items fields (<[fst field := w]> acc) (field_widget tk self)),
               snd (for_items fields (<[fst field := w]> acc) (field_widget tk self)))
          = Next acc')
    \/ (exists field0,
          In field0 (field :: fields) /\ ~ supported (snd field0)
          /\ snd (t ++ fst (for_items fields (<[fst field := w]> acc)
                              (field_widget tk self)),
                  snd (for_items fields (<[fst field := w]> acc) (field_widget tk self)))
             = Raise (unsupported_type (snd field0)))).
  { intros w Hs. cbn [snd].
    destruct (IH (<[fst field := w]> acc) Hw) as [[Hall Hnext]|(f & Hin & Hns & Hr)].
    - left. split; [constructor; assumption | exact Hnext].
    - right. exists f. split; [right; exact Hin|]. split; assumption. }
  destruct (snd field) as [|b|z| | | |] eqn:Hv.
  2: { destruct (Hc (fst field) b (is_disabled_on_public self (fst field))) as [v ->].
       apply Hgo. exact I. }
  2: { destruct (Hn (fst field) z (is_disabled_on_public self (fst field))) as [v ->].
       apply Hgo. exact I. }
  all: right; exists field; split; [left; reflexivity|]; rewrite Hv;
    split; [intros []|reflexivity].
Qed.

Lemma category_widgets_run model acc :
  exists t,
    category_widgets tk self model acc
    = (t, match snd (for_items (snd model) ∅ (field_widget tk self)) with
          | Next category => Next (<[fst model := PDict category]> acc)
          | Return => Return
          | Raise e => Raise e
          end).
Proof.
  unfold category_widgets. cbv zeta. rewrite page_bind_emit. unfold bind.
  destruct (snd (for_items (snd model) ∅ (field_widget tk self)));
    eexists; reflexivity.
Qed.

Lemma models_loop models : forall acc,
  widgets_return tk ->
  (Forall (fun model => Forall (fun field => supported (snd field)) (snd model)) models
   /\ exists acc', snd (for_items models acc (category_widgets tk self)) = Next acc')
  \/ (exists model field,
        In model models /\ In field (snd model) /\ ~ supported (snd field)
        /\ snd (for_items models acc (category_widgets tk self))
           = Raise (unsupported_type (snd field))).
Proof.
  induction models as [|model models IH]; intros acc Hw.
  { left. split; [constructor|]. eexists. reflexivity. }
  cbn [for_items]. unfold bind.
  destruct (category_widgets_run model acc) as [t ->]. cbn [fst snd].
  destruct (fields_loop (snd model) ∅ Hw) as [[Hall [category Hnext]]|(f & Hin & Hns & Hr)].
  - rewrite Hnext. cbn [snd].
    destruct (IH (<[fst model := PDict category]> acc) Hw)
      as [[Hall' Hnext']|(m & f & Hm & Hin & Hns & Hr)].
    + left. split; [constructor; assumption | exact Hnext'].
    + right. exists m, f. split; [right; exact Hm|]. auto.
  - rewrite Hr. right. exists model, f. split; [left; reflexivity|]. auto.
Qed.

(** X19: when every call to the toolkit returns, [get_settings] ends
    normally if every default is an [int] or a [bool], and otherwise raises
    the [ValueError] of [_create_widget] for a default of another type. *)
Theorem unsupported_setting_is_refused models :
  all_settings tk = Ok models ->
  widgets_return tk ->
  (Forall (fun model => Forall (fun field => supported (snd field)) (snd model)) models
   /\ exists v, snd (get_settings tk self) = Next v)
  \/ (exists model field,
        In model models /\ In field (snd model) /\ ~ supported (snd field)
        /\ snd (get_settings tk self) = Raise (unsupported_type (snd field))
        /\ isinstance_ValueError (unsupported_type (snd field)) = true).
Proof.
  intros Hm Hw. unfold get_settings. rewrite Hm, page_bind_ask_ok. cbn [snd].
  destruct (models_loop models ∅ Hw) as [[Hall [d Hnext]]|(m & f & Hin & Hf & Hns & Hr)].
  - left. split; [exact Hall|]. unfold bind. rewrite Hnext. cbn. eauto.
  - right. exists m, f. repeat (split; [assumption|]).
    split; [|reflexivity]. unfold bind. rewrite Hr. reflexivity.
Qed.

Lemma is_disabled_iff key :
  is_disabled_on_public self key = true
  <-> public self = true /\ (key = "resize_factor" \/ key = "dissolve").
Proof.
  unfold is_disabled_on_public. destruct (public self); cbn.
  - rewrite !orb_true_iff, !String.eqb_eq. intuition discriminate.
  - intuition discriminate.
Qed.

(** X20: every widget of [get_settings] carries the label
    [snake_to_human] gives its key and is disabled exactly on a public
    deployment for the keys [resize_factor] and [dissolve]; the notice about
    a disabled setting appears only on a public deployment. *)
Theorem widgets_follow_the_deployment c :
  In c (fst (get_settings tk self)) ->
  match c with
  | NumberInput label _ key disabled | Checkbox label _ key disabled =>
      label = snake_to_human key
      /\ (disabled = true
          <-> public self = true /\ (key = "resize_factor" \/ key = "dissolve"))
  | Notice _ => public self = true
  | _ => True
  end.
Proof.
  intros Hin.
  assert (H : calls (widget_follows_deployment self) (get_settings tk self)).
  { unfold get_settings. apply calls_bind; [apply calls_ask; exact I|]. intros models _.
    apply calls_bind; [|intros; apply calls_quiet; reflexivity].
    apply calls_for_items. intros model acc _. unfold category_widgets. cbv zeta.
    apply calls_bind; [apply calls_emit; exact I|]. intros _ _.
    apply calls_bind; [|intros; apply calls_quiet; reflexivity].
    apply calls_for_items. intros field cat _. unfold field_widget. cbv zeta.
    apply calls_bind; [apply calls_quiet; destruct (settings_text tk _); reflexivity|].
    intros text _. apply calls_bind; [apply calls_emit; exact I|]. intros _ _.
    apply calls_bind; [|intros; apply calls_quiet; reflexivity].
    unfold _create_widget. apply calls_bind.
    - destruct (is_disabled_on_public self (fst field)) eqn:Hd; [|constructor].
      apply calls_emit. cbn. apply is_disabled_iff in Hd. apply Hd.
    - intros _ _. destruct (snd field); try (apply calls_quiet; reflexivity).
      + apply calls_bind; [apply calls_ask; split; reflexivity|].
        intros; apply calls_quiet; reflexivity.
      + apply calls_bind; [apply calls_ask; split; reflexivity|].
        intros; apply calls_quiet; reflexivity. }
  unfold calls in H. rewrite Forall_forall in H. apply list_elem_of_In, H in Hin.
  destruct c; try exact I; try exact Hin.
  - destruct Hin as [-> ->]. split; [reflexivity | apply is_disabled_iff].
  - destruct Hin as [-> ->]. split; [reflexivity | apply is_disabled_iff].
Qed.

End SettingsTheorems.

(** ** The version notice *)

Section Versions.
Import Page.
Local Open Scope page_scope.

Variable tk : Toolkit.
Variable self : GeneratorUI.

Lemma version_eqb_eq a b : version_eqb a b = true <-> a = b.
Proof.
  destruct a as [x|], b as [y|]; cbn; try (split; [discriminate|discriminate]).
  - rewrite String.eqb_eq. split; [intros ->; reflexivity | intros [= ->]; reflexivity].
  - tauto.
Qed.

(** X21: when [get_versions] returns, [_show_version] ends normally; it
    shows the upgrade notice exactly on a private deployment for a pair whose
    current version is not empty and differs from the latest one, the current
    version exactly on a public deployment for a pair with a current version,
    and logs an error exactly for a tuple that is not empty and not a
    pair. *)
Theorem version_notice versions :
  get_versions tk = Ok versions ->
  let r := _show_version tk self in
  snd r = Next tt
  /\ (forall body, In (Notice body) (fst r) <->
        public self = false
        /\ exists latest current,
             versions = Some [latest; current] /\ truthy current = true
             /\ current <> latest /\ body = upgrade_notice current latest)
  /\ (forall body, In (Text body) (fst r) <->
        public self = true
        /\ exists latest current,
             versions = Some [latest; current] /\ truthy current = true
             /\ body = "`" +:+ str_of_version current +:+ "`")
  /\ ((exists msg e, In (LogError msg e) (fst r)) <->
        exists items, versions = Some items /\ items <> [] /\ length items <> 2%nat).
Proof.
  intros Hv. cbv zeta. unfold _show_version. rewrite Hv.
  destruct versions as [[|latest [|current [|third rest]]]|].
  - (* the empty tuple *)
    cbn. split; [reflexivity|].
    split; [intros body; split; [intros [H|[]]; discriminate|]|].
    { intros (_ & ? & ? & H & _). discriminate. }
    split; [intros body; split; [intros [H|[]]; discriminate|]|].
    { intros (_ & ? & ? & H & _). discriminate. }
    split; [intros (? & ? & [H|[]]); discriminate|].
    intros (items & [= <-] & H & _). congruence.
  - (* one item *)
    cbn. split; [reflexivity|].
    split; [intros body; split; [intros [H|[H|[]]]; discriminate|]|].
    { intros (_ & ? & ? & H & _). discriminate. }
    split; [intros body; split; [intros [H|[H|[]]]; discriminate|]|].
    { intros (_ & ? & ? & H & _). discriminate. }
    split; [intros _; eexists; split; [reflexivity|]; split; [discriminate|cbn; lia]|].
    intros _. eexists _, _. right. left. reflexivity.
  - (* a pair *)
    destruct (truthy current) eqn:Ht; [destruct (public self) eqn:Hp|];
      [| destruct (version_eqb current latest) eqn:He |];
      cbn -[upgrade_notice String.append]; rewrite ?Ht, ?Hp, ?He;
      cbn -[upgrade_notice String.append]; rewrite ?Hp;
      cbn -[upgrade_notice String.append].
    + split; [reflexivity|].
      split; [intros body; split; [intros [H|[H|[]]]; discriminate|]|].
      { intros (H & _). discriminate. }
      split.
      { intros body; split.
        - intros [H|[[= <-]|[]]]; [discriminate|]. split; [reflexivity|]. eauto.
        - intros (_ & ? & ? & [= <- <-] & _ & ->). right. left. reflexivity. }
      split; [intros (? & ? & [H|[H|[]]]); discriminate|].
      intros (items & [= <-] & _ & H). cbn in H. lia.
    + apply version_eqb_eq in He. subst latest.
      split; [reflexivity|].
      split; [intros body; split; [intros [H|[]]; discriminate|]|].
      { intros (_ & ? & ? & [= <- <-] & _ & H & _). congruence. }
      split; [intros body; split; [intros [H|[]]; discriminate|]|].
      { intros (H & _). discriminate. }
      split; [intros (? & ? & [H|[]]); discriminate|].
      intros (items & [= <-] & _ & H). cbn in H. lia.
    + assert (Hne : current <> latest).
      { intros H. apply version_eqb_eq in H. congruence. }
      split; [reflexivity|].
      split.
      { intros body; split.
        - intros [H|[[= <-]|[]]]; [discriminate|]. split; [reflexivity|]. eauto 10.
        - intros (_ & ? & ? & [= <- <-] & _ & _ & ->). right. left. reflexivity. }
      split; [intros body; split; [intros [H|[H|[]]]; discriminate|]|].
      { intros (H & _). discriminate. }
      split; [intros (? & ? & [H|[H|[]]]); discriminate|].
      intros (items & [= <-] & _ & H). cbn in H. lia.
    + split; [reflexivity|].
      split; [intros body; split; [intros [H|[H|[]]]; discriminate|]|].
      { intros (_ & ? & ? & [= <- <-] & H & _). congruence. }
      split; [intros body; split; [intros [H|[H|[]]]; discriminate|]|].
      { intros (_ & ? & ? & [= <- <-] & H & _). congruence. }
      split; [intros (? & ? & [H|[H|[]]]); discriminate|].
      intros (items & [= <-] & _ & H). cbn in H. lia.
  - (* more than two items *)
    cbn. split; [reflexivity|].
    split; [intros body; split; [intros [H|[H|[]]]; discriminate|]|].
    { intros (_ & ? & ? & H & _). discriminate. }
    split; [intros body; split; [intros [H|[H|[]]]; discriminate|]|].
    { intros (_ & ? & ? & H & _). discriminate. }
    split; [intros _; eexists; split; [reflexivity|]; split; [discriminate|cbn; lia]|].
    intros _. eexists _, _. right. left. reflexivity.
  - (* None *)
    cbn. split; [reflexivity|].
    split; [intros body; split; [intros [H|[]]; discriminate|]|].
    { intros (_ & ? & ? & H & _). discriminate. }
    split; [intros body; split; [intros [H|[]]; discriminate|]|].
    { intros (_ & ? & ? & H & _). discriminate. }
    split; [intros (? & ? & [H|[]]); discriminate|].
    intros (items & H & _). discriminate.
Qed.

End Versions.

(** ** The previews *)

Section Previews.
Import Page.
Local Open Scope page_scope.

Variable tk : Toolkit.

Lemma show_image_run p :
  show_image tk p tt
  = if negb (isfile tk p) then ([], Next tt)
    else
      match image_open tk p with
      | Err e =>
          ([ImageOpen p], if isinstance_Exception e then Next tt else Raise e)
      | Ok _ =>
          match column_image tk p with
          | Err e =>
              ([ImageOpen p; ColumnImage p],
               if isinstance_Exception e then Next tt else Raise e)
          | Ok _ => ([ImageOpen p; ColumnImage p], Next tt)
          end
      end.
Proof.
  unfold show_image. destruct (negb (isfile tk p)); [reflexivity|].
  destruct (image_open tk p) as [[]|e].
  - destruct (column_image tk p) as [[]|e]; [reflexivity|].
    unfold try_except. cbn. destruct (isinstance_Exception e); reflexivity.
  - unfold try_except. cbn. destruct (isinstance_Exception e); reflexivity.
Qed.

Lemma show_stl_run p :
  show_stl tk p tt
  = if negb (isfile tk p) then ([], Next tt)
    else
      match stl_from_file tk p with
      | Err e =>
          ([StlFromFile p], if isinstance_Exception e then Next tt else Raise e)
      | Ok _ => ([StlFromFile p], Next tt)
      end.
Proof.
  unfold show_stl. destruct (negb (isfile tk p)); [reflexivity|].
  destruct (stl_from_file tk p) as [[]|e]; [reflexivity|].
  unfold try_except. cbn. destruct (isinstance_Exception e); reflexivity.
Qed.

Lemma page_for_items_next {A} (body : A -> unit -> P unit) (trace : A -> list call)
    items :
  (forall x, In x items -> body x tt = (trace x, Next tt)) ->
  for_items items tt body = (flat_map trace items, Next tt).
Proof.
  induction items as [|x xs IH]; intros Hb; [reflexivity|].
  cbn [for_items flat_map]. unfold bind. rewrite (Hb x) by (left; reflexivity).
  cbn [fst snd]. rewrite IH by (intros y Hy; apply Hb; right; exact Hy).
  reflexivity.
Qed.

Lemma show_image_soft p :
  renderers_fail_softly tk -> show_image tk p tt = (image_calls tk p, Next tt).
Proof.
  intros Hsoft. rewrite show_image_run. unfold image_calls.
  destruct (isfile tk p); [|reflexivity]. cbn [negb].
  destruct (image_open tk p) as [[]|e] eqn:Ho.
  - destruct (column_image tk p) as [[]|e] eqn:Hc; [reflexivity|].
    rewrite (Hsoft p e) by auto. reflexivity.
  - rewrite (Hsoft p e) by auto. reflexivity.
Qed.

Lemma show_stl_soft p :
  renderers_fail_softly tk -> show_stl tk p tt = (stl_calls tk p, Next tt).
Proof.
  intros Hsoft. rewrite show_stl_run. unfold stl_calls.
  destruct (isfile tk p); [|reflexivity]. cbn [negb].
  destruct (stl_from_file tk p) as [[]|e] eqn:Ho; [reflexivity|].
  rewrite (Hsoft p e) by auto. reflexivity.
Qed.

Lemma image_calls_facts paths :
  List.filter is_image_open (flat_map (image_calls tk) paths)
  = map ImageOpen (List.filter (isfile tk) paths)
  /\ List.filter is_stl (flat_map (image_calls tk) paths) = []
  /\ (forall p, In (ColumnImage p) (flat_map (image_calls tk) paths) <->
        In p paths /\ isfile tk p = true /\ image_open tk p = Ok tt).
Proof.
  induction paths as [|q paths (Hi & Hs & Hcol)]; [cbn; repeat split; tauto|].
  cbn [flat_map List.filter]. rewrite !List.filter_app, Hi, Hs.
  unfold image_calls at 1 2 3. destruct (isfile tk q) eqn:Hf.
  - destruct (image_open tk q) as [[]|e] eqn:Ho; cbn.
    + split; [reflexivity|]. split; [reflexivity|]. intros p. rewrite Hcol. split.
      * intros [H|[[= <-]|(Hin & Hq & Hoq)]]; [discriminate| |]; auto.
      * intros ([<-|Hin] & Hq & Hoq); auto.
    + split; [reflexivity|]. split; [reflexivity|]. intros p. rewrite Hcol. split.
      * intros [H|(Hin & Hq & Hoq)]; [discriminate | auto].
      * intros ([<-|Hin] & Hq & Hoq); [congruence | auto].
  - cbn. split; [reflexivity|]. split; [reflexivity|]. intros p. rewrite Hcol. split.
    + intros (Hin & Hq & Hoq). auto.
    + intros ([<-|Hin] & Hq & Hoq); [congruence | auto].
Qed.

Lemma stl_calls_facts paths :
  List.filter is_stl (flat_map (stl_calls tk) paths)
  = map StlFromFile (List.filter (isfile tk) paths)
  /\ List.filter is_image_open (flat_map (stl_calls tk) paths) = []
  /\ (forall p, ~ In (ColumnImage p) (flat_map (stl_calls tk) paths)).
Proof.
  induction paths as [|q paths (Hs & Hi & Hcol)]; [cbn; repeat split; tauto|].
  cbn [flat_map List.filter]. rewrite !List.filter_app, Hi, Hs.
  unfold stl_calls at 1 2 3. destruct (isfile tk q) eqn:Hf; cbn.
  - split; [reflexivity|]. split; [reflexivity|].
    intros p [H|H]; [discriminate | exact (Hcol p H)].
  - auto.
Qed.

(** X22: when the engine lists its previews, the columns are created and
    the renderers fail only with exceptions inside [Exception],
    [show_preview] ends normally; it opens every listed image that ends in
    ".png" and exists, in order, shows those that could be opened, and renders
    every listed model that ends in ".stl" and exists, in order: a failure on
    one file does not keep the others from being shown. *)
Theorem show_preview_survives_failures full :
  previews tk = Ok full ->
  st_columns tk (length (List.filter (PyStr.endswith ".png") full)) = Ok tt ->
  renderers_fail_softly tk ->
  let r := show_preview tk in
  snd r = Next tt
  /\ List.filter is_image_open (fst r)
     = map ImageOpen
         (List.filter (isfile tk) (List.filter (PyStr.endswith ".png") full))
  /\ List.filter is_stl (fst r)
     = map StlFromFile
         (List.filter (isfile tk) (List.filter (PyStr.endswith ".stl") full))
  /\ (forall p, In (ColumnImage p) (fst r) <->
        In p full /\ PyStr.endswith ".png" p = true /\ isfile tk p = true
        /\ image_open tk p = Ok tt).
Proof.
  intros Hp Hcols Hsoft. cbv zeta. unfold show_preview. rewrite Hp.
  rewrite page_bind_ask_ok. cbn [fst snd].
  destruct full as [|p0 full0] eqn:Hfull.
  { cbn. split; [reflexivity|]. split; [reflexivity|]. split; [reflexivity|].
    intros p. split; [intros [Hx|[]]; discriminate | intros ([] & _)]. }
  rewrite <- Hfull in *. cbn [when]. rewrite page_bind_ret.
  set (images := List.filter (PyStr.endswith ".png") full) in *.
  set (stls := List.filter (PyStr.endswith ".stl") full).
  rewrite !page_bind_emit. fold images. rewrite Hcols, page_bind_ask_ok.
  cbn [fst snd].
  rewrite (page_for_items_next (show_image tk) (image_calls tk) images)
    by (intros; apply show_image_soft, Hsoft).
  rewrite (page_for_items_next (show_stl tk) (stl_calls tk) stls)
    by (intros; apply show_stl_soft, Hsoft).
  destruct (image_calls_facts images) as (Hi1 & Hs1 & Hcol1).
  destruct (stl_calls_facts stls) as (Hs2 & Hi2 & Hcol2).
  cbn [bind def_ fst snd ret app].
  split; [reflexivity|].
  cbn [List.filter is_image_open is_stl].
  rewrite !List.filter_app, Hi1, Hs1, Hi2, Hs2, app_nil_r.
  split; [reflexivity|]. split; [reflexivity|].
  intros p. cbn [In]. rewrite in_app_iff, Hcol1.
  subst images. rewrite filter_In. split.
  - intros [H|[H|[H|[H|[((Hin & Hpng) & Hf & Ho)|H]]]]]; try discriminate.
    + auto.
    + destruct (Hcol2 p H).
  - intros (Hin & Hpng & Hf & Ho). do 4 right. left. auto.
Qed.

Lemma page_for_items_raise {A S} (ok : exn -> Prop) (body : A -> S -> P S) :
  (forall x acc e, snd (body x acc) = Raise e -> ok e) ->
  forall items acc e, snd (for_items items acc body) = Raise e -> ok e.
Proof.
  intros Hb. induction items as [|x xs IH]; intros acc e; [discriminate|].
  cbn [for_items]. unfold bind.
  destruct (snd (body x acc)) as [acc1| |e1] eqn:E; cbn [snd].
  - apply IH.
  - discriminate.
  - intros [= <-]. eapply Hb, E.
Qed.

Lemma page_for_items_no_return {A S} (body : A -> S -> P S) :
  (forall x acc, snd (body x acc) <> Return) ->
  forall items acc, snd (for_items items acc body) <> Return.
Proof.
  intros Hb. induction items as [|x xs IH]; intros acc; [discriminate|].
  cbn [for_items]. unfold bind.
  destruct (snd (body x acc)) as [acc1| |e1] eqn:E; cbn [snd].
  - apply IH.
  - destruct (Hb x acc E).
  - discriminate.
Qed.

(** X23: [show_preview] touches only files that the engine lists, that
    have the right suffix and that exist; with no preview it renders nothing;
    and an exception that leaves it comes from the creation of the columns or
    is outside [Exception]. *)
Theorem show_preview_touches_only_previews full :
  previews tk = Ok full ->
  Forall (preview_call tk full) (fst (show_preview tk))
  /\ (full = [] -> show_preview tk = ([Previews], Next tt))
  /\ (forall e, snd (show_preview tk) = Raise e ->
        st_columns tk (length (List.filter (PyStr.endswith ".png") full)) = Err e
        \/ isinstance_Exception e = false).
Proof.
  intros Hp. unfold show_preview. rewrite Hp, page_bind_ask_ok. cbn [fst snd].
  split; [|split].
  - apply calls_def.
    unfold calls. cbn [fst]. constructor; [exact I|].
    apply calls_bind; [destruct full; constructor|]. intros _ _.
    apply calls_bind; [apply calls_emit; exact I|]. intros _ _.
    apply calls_bind; [apply calls_emit; exact I|]. intros _ _.
    apply calls_bind; [apply calls_ask; reflexivity|]. intros _ _.
    apply calls_bind; [|intros _ _].
    + apply calls_for_items. intros p [] Hin. apply filter_In in Hin as [Hin Hpng].
      unfold calls. rewrite show_image_run.
      destruct (isfile tk p) eqn:Hf; cbn [negb]; [|constructor].
      destruct (image_open tk p) as [[]|e] eqn:Ho.
      * destruct (column_image tk p) as [[]|e]; cbn [fst]; repeat constructor; auto.
      * cbn [fst]. repeat constructor; auto.
    + apply calls_for_items. intros p [] Hin. apply filter_In in Hin as [Hin Hstl].
      unfold calls. rewrite show_stl_run.
      destruct (isfile tk p) eqn:Hf; cbn [negb]; [|constructor].
      destruct (stl_from_file tk p) as [[]|e]; cbn [fst]; repeat constructor; auto.
  - intros ->. reflexivity.
  - intros e. destruct full as [|p0 full0]; [discriminate|]. cbn [when].
    rewrite page_bind_ret, !page_bind_emit.
    destruct (st_columns tk _) as [[]|e0] eqn:Hcols.
    2: { rewrite page_bind_ask_err. cbn. intros [= <-]. left. reflexivity. }
    rewrite page_bind_ask_ok. cbn [fst snd]. intros Hr. right.
    assert (Himg : forall p acc e,
              snd (show_image tk p acc) = Raise e -> isinstance_Exception e = false).
    { intros p [] e1. rewrite show_image_run.
      destruct (isfile tk p); cbn [negb]; [|discriminate].
      destruct (image_open tk p) as [[]|e2].
      - destruct (column_image tk p) as [[]|e3]; [discriminate|]. cbn [snd].
        destruct (isinstance_Exception e3) eqn:E; [discriminate|].
        intros [= <-]. exact E.
      - cbn [snd]. destruct (isinstance_Exception e2) eqn:E; [discriminate|].
        intros [= <-]. exact E. }
    assert (Hstl : forall p acc e,
              snd (show_stl tk p acc) = Raise e -> isinstance_Exception e = false).
    { intros p [] e1. rewrite show_stl_run.
      destruct (isfile tk p); cbn [negb]; [|discriminate].
      destruct (stl_from_file tk p) as [[]|e2]; [discriminate|]. cbn [snd].
      destruct (isinstance_Exception e2) eqn:E; [discriminate|].
      intros [= <-]. exact E. }
    revert Hr. unfold def_, bind.
    destruct (snd (for_items (List.filter (PyStr.endswith ".png") (p0 :: full0)) tt
                     (show_image tk))) as [[]| |e1] eqn:E1; cbn [fst snd].
    + destruct (snd (for_items (List.filter (PyStr.endswith ".stl") (p0 :: full0)) tt
                       (show_stl tk))) as [[]| |e2] eqn:E2; cbn [fst snd];
        try discriminate.
      intros [= <-]. eapply (page_for_items_raise _ _ Hstl), E2.
    + discriminate.
    + intros [= <-]. eapply (page_for_items_raise _ _ Himg), E1.
Qed.

End Previews.

(** ** The map preview *)

Section MapPreview.
Import Page.
Local Open Scope page_scope.

Variable tk : Toolkit.
Variable self : GeneratorUI.

Lemma map_preview_silent :
  (forall c, obind (lat_lon self) Py.unpack2 <> Ok c)
  \/ (forall sz, obind (map_size self) Py.unpack2 <> Ok sz) ->
  map_preview tk self = ([], Next tt).
Proof.
  unfold map_preview. intros H.
  destruct (obind (lat_lon self) Py.unpack2) as [c|e] eqn:Hc.
  2: { unfold try_except. cbn [lift raise snd fst].
       rewrite (lat_lon_raises_ValueError self e Hc). reflexivity. }
  destruct H as [H|H]; [destruct (H c eq_refl)|].
  destruct (obind (map_size self) Py.unpack2) as [sz|e] eqn:Hsz.
  { destruct (H sz eq_refl). }
  unfold try_except. cbn [lift raise ret snd fst]. rewrite page_bind_ret.
  rewrite (map_size_raises_ValueError self e Hsz). reflexivity.
Qed.

Lemma map_preview_requested c sz :
  obind (lat_lon self) Py.unpack2 = Ok c ->
  obind (map_size self) Py.unpack2 = Ok sz ->
  exists rest,
    fst (map_preview tk self)
    = LogDebug "Generating map preview for lat=%s, lon=%s, map_size=%s"
        :: RotatedPreview (fst c) (snd c) (fst sz) (- rotation self) :: rest
    /\ Forall (fun x => match x with
                        | ReadFile _ => True
                        | Html body height =>
                            height = 600
                            /\ exists path,
                                 get_rotated_preview tk (fst c) (snd c) (fst sz)
                                   (- rotation self) = Ok path
                                 /\ read_text tk path = Ok body
                        | _ => False
                        end) rest.
Proof.
  intros Hc Hsz. unfold map_preview. rewrite Hc, Hsz.
  unfold try_except. cbn [lift ret snd fst]. rewrite !page_bind_ret, page_bind_emit.
  destruct (get_rotated_preview tk _ _ _ _) as [path|e] eqn:Hpath.
  2: { rewrite page_bind_ask_err. cbn. eexists. split; [reflexivity|constructor]. }
  rewrite page_bind_ask_ok.
  destruct (read_text tk path) as [body|e] eqn:Hread.
  2: { rewrite page_bind_ask_err. cbn. eexists. split; [reflexivity|].
       repeat constructor. }
  rewrite page_bind_ask_ok. cbn. eexists. split; [reflexivity|].
  repeat constructor. eauto.
Qed.

Lemma parsed_input_passes w c sz :
  obind (lat_lon self) Py.unpack2 = Ok c ->
  obind (map_size self) Py.unpack2 = Ok sz ->
  emits (fun e => e <> StError "Invalid latitude and longitude!"
                  /\ e <> StError "Invalid map size!")
    (generate_map w self).
Proof.
  intros Hc Hsz. unfold generate_map. apply emits_def, emits_bind.
  2: { intros job _.
       unfold generate_map_enqueue, generate_map_try, generate_map_except,
         generate_map_finally, progress.
       emits_with ltac:(cbn; split; discriminate). }
  unfold generate_map_prepare. rewrite Hc, Hsz.
  apply emits_bind_guarded_ok, emits_bind_guarded_ok.
  unfold load_schema. emits_with ltac:(cbn; split; discriminate).
Qed.

(** X24: [map_preview] stays silent exactly on the forms for which
    [generate_map] reports invalid coordinates or an invalid size, and then
    it ends normally; a preview it requests is for the parsed coordinates,
    the first number of the size and the opposite of the rotation; the page
    is shown only once its file has been read. *)
Theorem map_preview_follows_validation w s :
  let r := map_preview tk self in
  let t := r_trace (generate_map w self s) in
  (fst r = [] <->
     In (StError "Invalid latitude and longitude!") t
     \/ In (StError "Invalid map size!") t)
  /\ (fst r = [] -> snd r = Next tt)
  /\ (forall lat lon size angle,
        In (RotatedPreview lat lon size angle) (fst r) ->
        angle = - rotation self
        /\ obind (lat_lon self) Py.unpack2 = Ok (lat, lon)
        /\ exists width, obind (map_size self) Py.unpack2 = Ok (size, width))
  /\ (forall body height,
        In (Html body height) (fst r) ->
        height = 600 /\ exists path, read_text tk path = Ok body).
Proof.
  cbv zeta.
  destruct (obind (lat_lon self) Py.unpack2) as [c|e] eqn:Hc.
  2: { rewrite map_preview_silent by (left; congruence). cbn [fst snd].
       rewrite (generate_map_rejected w self _ s (prepare_bad_coordinates w self e s Hc)).
       cbn [r_trace]. split; [split; [intros _; left; left; reflexivity | reflexivity]|].
       split; [reflexivity|]. split; intros ? ? ; try intros ? ?; intros []. }
  destruct (obind (map_size self) Py.unpack2) as [sz|e] eqn:Hsz.
  2: { rewrite map_preview_silent by (right; congruence). cbn [fst snd].
       rewrite (generate_map_rejected w self _ s (prepare_bad_size w self c e s Hc Hsz)).
       cbn [r_trace]. split; [split; [intros _; right; left; reflexivity | reflexivity]|].
       split; [reflexivity|]. split; intros ? ? ; try intros ? ?; intros []. }
  destruct (map_preview_requested c sz Hc Hsz) as (rest & Ht & Hrest).
  rewrite Ht. split; [|split; [discriminate|split]].
  - split; [discriminate|]. intros H. exfalso.
    pose proof (parsed_input_passes w c sz Hc Hsz s) as He.
    rewrite Forall_forall in He.
    destruct H as [H|H]; apply list_elem_of_In, He in H; destruct H; congruence.
  - intros lat lon size angle [H|[H|H]]; [discriminate| |].
    + injection H as <- <- <- <-. split; [reflexivity|].
      destruct c, sz. cbn. eauto.
    + rewrite Forall_forall in Hrest. apply list_elem_of_In, Hrest in H. destruct H.
  - intros body height [H|[H|H]]; [discriminate..|].
    rewrite Forall_forall in Hrest. apply list_elem_of_In, Hrest in H.
    destruct H as (-> & path & _ & Hr). eauto.
Qed.

End MapPreview.

(** ** Instances on the sample toolkit *)

Lemma collected_settings_mirror_the_models_witness :
  snd (Page.get_settings page valid_form) = Next Sample.form_settings
  /\ mirrors sample_models Sample.form_settings.
Proof.
  assert (H : snd (Page.get_settings page valid_form) = Next Sample.form_settings).
  { vm_compute. reflexivity. }
  split; [exact H|].
  apply (collected_settings_mirror_the_models page valid_form sample_models
           Sample.form_settings eq_refl H).
Defined.

Lemma collected_settings_pass_the_limit_witness :
  public valid_form = true
  /\ snd (Page.get_settings page valid_form) = Next Sample.form_settings
  /\ exists v', limit_on_public valid_form Sample.form_settings = Ok v'.
Proof.
  assert (H : snd (Page.get_settings page valid_form) = Next Sample.form_settings).
  { vm_compute. reflexivity. }
  split; [reflexivity|]. split; [exact H|].
  apply (collected_settings_pass_the_limit page valid_form sample_models
           Sample.form_settings eq_refl H eq_refl).
  split; cbn; tauto.
Defined.

Lemma unsupported_setting_is_refused_witness :
  let tk := sample_toolkit None models_with_float in
  widgets_return tk
  /\ exists e, snd (Page.get_settings tk valid_form) = Raise e
               /\ isinstance_ValueError e = true.
Proof.
  cbv zeta.
  assert (Hw : widgets_return (sample_toolkit None models_with_float)).
  { repeat split; intros; eexists; reflexivity. }
  split; [exact Hw|].
  destruct (unsupported_setting_is_refused (sample_toolkit None models_with_float)
              valid_form models_with_float eq_refl Hw)
    as [[_ [v Hv]]|(model & field & _ & _ & _ & Hr & He)].
  - vm_compute in Hv. discriminate Hv.
  - eauto.
Defined.

Lemma widgets_follow_the_deployment_witness :
  In (Page.NumberInput "Resize Factor" 2 "resize_factor" true)
    (fst (Page.get_settings page valid_form))
  /\ public valid_form = true.
Proof.
  assert (H : In (Page.NumberInput "Resize Factor" 2 "resize_factor" true)
                (fst (Page.get_settings page valid_form))).
  { vm_compute. do 11 right. left. reflexivity. }
  split; [exact H|].
  destruct (widgets_follow_the_deployment page valid_form _ H) as [_ Hd].
  destruct (proj1 Hd eq_refl) as [Hp _]. exact Hp.
Defined.

Lemma version_notice_witness :
  let self := Sample.form false "45.0, 20.0" "2048x2048" in
  In (Page.Notice (Page.upgrade_notice (Some "1.9.3") (Some "2.0.0")))
    (fst (Page._show_version page self))
  /\ snd (Page._show_version page self) = Next tt.
Proof.
  cbv zeta.
  destruct (version_notice page (Sample.form false "45.0, 20.0" "2048x2048")
              (Some [Some "2.0.0"; Some "1.9.3"]) eq_refl) as (Hc & Hn & _).
  split; [|exact Hc]. apply Hn. split; [reflexivity|].
  exists (Some "2.0.0"), (Some "1.9.3"). repeat split. discriminate.
Defined.

Lemma show_preview_survives_failures_witness :
  renderers_fail_softly page
  /\ snd (Page.show_preview page) = Next tt
  /\ List.filter is_image_open (fst (Page.show_preview page))
     = [Page.ImageOpen "previews/dem.png"; Page.ImageOpen "previews/broken.png"]
  /\ List.filter is_stl (fst (Page.show_preview page))
     = [Page.StlFromFile "previews/mesh.stl"].
Proof.
  assert (Hs : renderers_fail_softly page).
  { intros p e [H|[H|H]]; cbn in H; try discriminate H.
    destruct (String.eqb p "previews/broken.png"); [|discriminate H].
    injection H as <-. reflexivity. }
  split; [exact Hs|].
  destruct (show_preview_survives_failures page _ eq_refl eq_refl Hs)
    as (Hc & Hi & Hstl & _).
  split; [exact Hc|]. split; [rewrite Hi | rewrite Hstl]; reflexivity.
Defined.

Lemma show_preview_touches_only_previews_witness :
  Forall (preview_call page
            ["previews/dem.png"; "previews/missing.png"; "previews/broken.png";
             "previews/mesh.stl"; "previews/notes.txt"])
    (fst (Page.show_preview page)).
Proof.
  apply (show_preview_touches_only_previews page _ eq_refl).
Defined.

Lemma map_preview_follows_validation_witness :
  fst (Page.map_preview page form_three_coordinates) = []
  /\ In (StError "Invalid latitude and longitude!")
       (r_trace (generate_map Sample.calm form_three_coordinates Sample.fresh))
  /\ In (Page.RotatedPreview (FFinite false 450 (-1)) (FFinite false 200 (-1)) 2048 (-90))
       (fst (Page.map_preview page form_bad_schema)).
Proof.
  destruct (map_preview_follows_validation page form_three_coordinates
              Sample.calm Sample.fresh) as (Hiff & _).
  assert (Hin : In (StError "Invalid latitude and longitude!")
                  (r_trace (generate_map Sample.calm form_three_coordinates
                              Sample.fresh))).
  { vm_compute. left. reflexivity. }
  split; [apply Hiff; left; exact Hin|]. split; [exact Hin|].
  vm_compute. right. left. reflexivity.
Defined.

(** ** The form of [add_left_widgets] *)

Section Form.
Import Page.
Local Open Scope page_scope.

Variable tk : Toolkit.
Variable self : GeneratorUI.

Lemma page_bind_next {A B} (m : P A) (f : A -> P B) b :
  snd (bind m f) = Next b -> exists a, snd m = Next a /\ snd (f a) = Next b.
Proof.
  unfold bind. destruct (snd m) as [a| |e]; cbn [snd]; try discriminate. eauto.
Qed.

Lemma page_bind_raise_l {A B} (m : P A) (f : A -> P B) e :
  snd m = Raise e -> snd (bind m f) = Raise e.
Proof. unfold bind. intros ->. reflexivity. Qed.

Lemma snd_bind_emit {B} c (f : unit -> P B) : snd (bind (emit c) f) = snd (f tt).
Proof. reflexivity. Qed.

Lemma show_version_calls :
  calls (fun c => match c with
                  | GetVersions | LogWarning _ | Text _ | Notice _ | LogError _ _ => True
                  | _ => False
                  end) (_show_version tk self).
Proof.
  unfold _show_version. apply calls_def.
  apply calls_bind; [apply calls_ask; exact I|]. intros versions _.
  apply calls_try_except; [|intros e; apply calls_emit; exact I].
  destruct (versions_truthy versions); [|constructor]. cbn [when].
  apply calls_bind; [destruct (Py.unpack2 _); constructor|]. intros pair _. cbv zeta.
  apply calls_bind.
  { destruct (negb (truthy (snd pair))); [|constructor]. repeat constructor. }
  intros _ _. apply calls_bind.
  { destruct (public self); [|constructor]. repeat constructor. }
  intros _ _. destruct (negb (version_eqb _ _)); repeat constructor.
Qed.

Lemma page_def_no_return body : snd (def_ body) <> Return.
Proof. unfold def_. destruct (snd body) eqn:E; cbn; rewrite ?E; discriminate. Qed.

Lemma show_version_no_return : snd (_show_version tk self) <> Return.
Proof. apply page_def_no_return. Qed.

Lemma get_settings_calls :
  calls (fun c => match c with
                  | AllSettings | Expander _ | Text _ | Notice _
                  | NumberInput _ _ _ _ | Checkbox _ _ _ _ => True
                  | _ => False
                  end) (get_settings tk self).
Proof.
  unfold get_settings. apply calls_bind; [apply calls_ask; exact I|]. intros models _.
  apply calls_bind; [|intros; apply calls_quiet; reflexivity].
  apply calls_for_items. intros model acc _. unfold category_widgets. cbv zeta.
  apply calls_bind; [apply calls_emit; exact I|]. intros _ _.
  apply calls_bind; [|intros; apply calls_quiet; reflexivity].
  apply calls_for_items. intros field cat _. unfold field_widget. cbv zeta.
  apply calls_bind; [apply calls_quiet; destruct (settings_text tk _); reflexivity|].
  intros text _. apply calls_bind; [apply calls_emit; exact I|]. intros _ _.
  apply calls_bind; [|intros; apply calls_quiet; reflexivity].
  unfold _create_widget. apply calls_bind.
  - destruct (is_disabled_on_public self (fst field)); repeat constructor.
  - intros _ _. destruct (snd field); try (apply calls_quiet; reflexivity).
    + apply calls_bind; [apply calls_ask; exact I|].
      intros; apply calls_quiet; reflexivity.
    + apply calls_bind; [apply calls_ask; exact I|].
      intros; apply calls_quiet; reflexivity.
Qed.

Lemma calls_weaken {A} (Q R : call -> Prop) (m : P A) :
  (forall c, Q c -> R c) -> calls Q m -> calls R m.
Proof. unfold calls. intros H Hm. eapply Forall_impl; [exact Hm | exact H]. Qed.

Lemma get_settings_no_return : snd (get_settings tk self) <> Return.
Proof.
  assert (Hf : forall field cat, snd (field_widget tk self field cat) <> Return).
  { intros field cat. unfold field_widget, _create_widget. cbv zeta.
    destruct (settings_text tk _); [|discriminate].
    rewrite page_bind_lift_ok, snd_bind_emit. unfold bind at 1.
    destruct (is_disabled_on_public self (fst field)); cbn [when];
      destruct (snd field) as [|b|z| | | |]; cbn; try discriminate.
    - destruct (checkbox tk _ _ _); cbn; discriminate.
    - destruct (number_input tk _ _ _); cbn; discriminate.
    - destruct (checkbox tk _ _ _); cbn; discriminate.
    - destruct (number_input tk _ _ _); cbn; discriminate. }
  assert (Hc : forall model acc, snd (category_widgets tk self model acc) <> Return).
  { intros model acc. unfold category_widgets. cbv zeta. rewrite snd_bind_emit.
    unfold bind.
    pose proof (page_for_items_no_return (field_widget tk self) Hf (snd model) ∅) as H.
    destruct (snd (for_items (snd model) ∅ (field_widget tk self)));
      cbn; congruence. }
  unfold get_settings. destruct (all_settings tk) as [models|e]; [|discriminate].
  rewrite page_bind_ask_ok. cbn [snd]. unfold bind.
  pose proof (page_for_items_no_return (category_widgets tk self) Hc models ∅) as H.
  destruct (snd (for_items models ∅ (category_widgets tk self))); cbn; congruence.
Qed.

Lemma snd_bind_next {A B} (m : P A) (f : A -> P B) a :
  snd m = Next a -> snd (bind m f) = snd (f a).
Proof. unfold bind. intros ->. reflexivity. Qed.

Lemma page_bind_no_return {A B} (m : P A) (f : A -> P B) :
  snd m <> Return -> (forall a, snd (f a) <> Return) -> snd (bind m f) <> Return.
Proof.
  unfold bind. intros Hm Hf. destruct (snd m) as [a| |e]; cbn [snd];
    [apply Hf | congruence | discriminate].
Qed.

Lemma show_version_returns versions :
  get_versions tk = Ok versions -> snd (_show_version tk self) = Next tt.
Proof.
  intros Hv. unfold _show_version. rewrite Hv, page_bind_ask_ok. cbn [fst snd].
  destruct versions as [[|latest [|current [|third rest]]]|]; try reflexivity.
  destruct (truthy current) eqn:Ht, (public self) eqn:Hp,
    (version_eqb current latest) eqn:He;
    cbn -[upgrade_notice String.append]; rewrite ?Ht, ?Hp, ?He;
    cbn -[upgrade_notice String.append]; rewrite ?Hp; reflexivity.
Qed.

Ltac form_step :=
  first
    [ apply calls_bind; [apply calls_emit; exact I | intros _ _]
    | apply calls_bind;
      [eapply calls_weaken; [|apply show_version_calls]; intros []; tauto | intros _ _]
    | apply calls_bind;
      [eapply calls_weaken; [|apply get_settings_calls]; intros []; tauto | intros ? _] ].

Lemma public_form_calls :
  public self = true -> calls before_debug_flag (add_left_widgets_form tk self).
Proof.
  intros Hp. unfold add_left_widgets_form. cbv zeta.
  repeat form_step.
  apply calls_bind.
  { destruct (String.eqb (chosen_size tk) "Custom"); [|constructor].
    repeat (apply calls_bind; [apply calls_emit; exact I | intros _ _]).
    constructor. }
  intros map_size_input _.
  repeat form_step.
  rewrite Hp. cbn [negb].
  apply calls_bind; [constructor|]. intros enable_debug He.
  injection He as <-.
  apply calls_bind; [constructor|]. intros ? Hr. discriminate Hr.
Qed.

Lemma raises_bind {A B} (m : P A) (f : A -> P B) :
  snd m <> Return ->
  (forall a, snd m = Next a -> exists e, snd (f a) = Raise e) ->
  exists e, snd (bind m f) = Raise e.
Proof.
  unfold bind. intros Hm Hf. destruct (snd m) as [a| |e]; cbn [snd];
    [apply Hf; reflexivity | congruence | eauto].
Qed.

Ltac raises_step :=
  first
    [ apply raises_bind; [discriminate | intros _ _]
    | apply raises_bind; [apply show_version_no_return | intros _ _]
    | apply raises_bind; [apply get_settings_no_return | intros ? _] ].

Lemma custom_size_block_next :
  snd (if String.eqb (chosen_size tk) "Custom" then
         emit (LogDebug "Custom map size selected.") ;;
         emit (Info "ℹ️ Map size can be only a power of 2. For example: 2, 4, ... 2048, 4096, ...") ;;
         emit (Notice "⚠️ Large map sizes can crash on generation or import in the game.") ;;
         emit (Text "Enter map size (meters):") ;;
         emit (NumberInput "Height (meters)" 2048 "map_height" false) ;;
         ret (selected_map_size (chosen_size tk) (typed_custom_size tk))
       else ret (chosen_size tk))
  = Next (selected_map_size (chosen_size tk) (typed_custom_size tk)).
Proof.
  unfold selected_map_size.
  destruct (String.eqb (chosen_size tk) "Custom"); reflexivity.
Qed.

Lemma public_form_raises :
  public self = true -> exists e, snd (add_left_widgets_form tk self) = Raise e.
Proof.
  intros Hp. unfold add_left_widgets_form. cbv zeta. repeat raises_step.
  apply raises_bind; [destruct (String.eqb _ _); discriminate | intros ? _].
  repeat raises_step.
  rewrite Hp. cbn [negb]. rewrite page_bind_ret. cbn [read_local].
  rewrite page_bind_raise. eauto.
Qed.

Lemma public_form_unbound versions settings :
  public self = true ->
  get_versions tk = Ok versions ->
  snd (get_settings tk self) = Next settings ->
  snd (add_left_widgets_form tk self) = Raise (unbound_local "enable_debug").
Proof.
  intros Hp Hv Hs. unfold add_left_widgets_form. cbv zeta.
  rewrite !snd_bind_emit.
  rewrite (snd_bind_next _ _ tt (show_version_returns versions Hv)).
  rewrite !snd_bind_emit.
  erewrite snd_bind_next by apply custom_size_block_next.
  rewrite !snd_bind_emit.
  rewrite (snd_bind_next _ _ _ Hs).
  rewrite !snd_bind_emit.
  rewrite Hp. cbn [negb]. rewrite page_bind_ret. cbn [read_local].
  rewrite page_bind_raise. reflexivity.
Qed.

(** X25: on a public deployment the form of [add_left_widgets] never
    completes: [enable_debug] is assigned only on a private deployment, so
    the read at line 321 raises [UnboundLocalError] whenever the statements
    before it return; nothing after that line is rendered, in particular
    neither of the two containers for the status and the buttons. *)
Theorem public_form_stops_at_the_debug_flag :
  public self = true ->
  let r := add_left_widgets_form tk self in
  (exists e, snd r = Raise e)
  /\ Forall before_debug_flag (fst r)
  /\ (forall versions settings,
        get_versions tk = Ok versions ->
        snd (get_settings tk self) = Next settings ->
        snd r = Raise (unbound_local "enable_debug")).
Proof.
  intros Hp. cbv zeta. split; [|split].
  - apply public_form_raises, Hp.
  - apply public_form_calls, Hp.
  - intros versions settings Hv Hs.
    apply (public_form_unbound versions settings Hp Hv Hs).
Qed.

(** X26: on a private deployment the object the form fills in is
    consistent: the size field is the selected size or the custom size
    written twice, a raw configuration is present exactly in expert mode,
    the two schema texts exactly when the schema editor is open, which
    requires the game FS25, an uploaded OSM path only when the option is
    enabled, and the settings mirror the models. *)
Theorem private_form_is_consistent self' :
  public self = false ->
  snd (add_left_widgets_form tk self) = Next self' ->
  public self' = false /\ consistent_form tk self'.
Proof.
  intros Hp. unfold add_left_widgets_form. cbv zeta. intros H.
  rewrite !snd_bind_emit in H.
  apply page_bind_next in H as ([] & _ & H).
  rewrite !snd_bind_emit in H.
  apply page_bind_next in H as (map_size_input & Hsz & H).
  assert (Hsz' : Next map_size_input
                 = Next (selected_map_size (chosen_size tk) (typed_custom_size tk))).
  { rewrite <- Hsz. apply custom_size_block_next. }
  injection Hsz' as ->. clear Hsz.
  rewrite !snd_bind_emit in H.
  apply page_bind_next in H as (collected & Hset & H).
  rewrite !snd_bind_emit in H.
  apply page_bind_next in H as (enable_debug & _ & H).
  apply page_bind_next in H as (flag & _ & H).
  rewrite !snd_bind_emit in H.
  apply page_bind_next in H as (osm_path & Hosm & H).
  rewrite !snd_bind_emit in H.
  apply page_bind_next in H as (raw & Hraw & H).
  apply page_bind_next in H as (schemas & Hsch & H).
  rewrite !snd_bind_emit in H.
  cbn in H. injection H as <-. cbn.
  split; [exact Hp|]. unfold consistent_form. cbn.
  split; [reflexivity|]. split; [reflexivity|]. split; [reflexivity|].
  split; [reflexivity|].
  split.
  { destruct (expert_checked tk).
    - rewrite !snd_bind_emit in Hraw. injection Hraw as <-. split; eauto.
    - injection Hraw as <-. split; [discriminate | intros [? ?]; discriminate]. }
  assert (Hschemas :
    (fst (fst schemas) = true <-> is_Some (snd (fst schemas)))
    /\ (fst (fst schemas) = true <-> is_Some (snd schemas))
    /\ (fst (fst schemas) = true -> chosen_game tk = FS25)).
  { destruct (chosen_game tk).
    2: { injection Hsch as <-. cbn. repeat split; try discriminate;
           intros [? ?]; discriminate. }
    rewrite snd_bind_emit in Hsch. destruct (schemas_checked tk).
    2: { injection Hsch as <-. cbn. repeat split; try discriminate;
           intros [? ?]; discriminate. }
    rewrite snd_bind_emit in Hsch.
    apply page_bind_next in Hsch as (texture & _ & Hsch).
    apply page_bind_next in Hsch as (tree & _ & Hsch).
    injection Hsch as <-. cbn. repeat split; eauto. }
  destruct Hschemas as (H1 & H2 & H3).
  split; [exact H1|]. split; [exact H2|]. split; [exact H3|].
  split.
  { destruct (osm_checked tk); [reflexivity|].
    injection Hosm as <-. intros [? ?]. discriminate. }
  destruct (all_settings tk) as [models|e] eqn:Hm.
  - exists models. split; [reflexivity|].
    apply (get_settings_mirrors tk self models collected Hm Hset).
  - unfold get_settings in Hset. rewrite Hm in Hset. discriminate Hset.
Qed.

End Form.

Lemma public_form_stops_at_the_debug_flag_witness :
  public valid_form = true
  /\ snd (Page.add_left_widgets_form page valid_form)
     = Raise (Page.unbound_local "enable_debug")
  /\ Forall before_debug_flag (fst (Page.add_left_widgets_form page valid_form)).
Proof.
  split; [reflexivity|].
  destruct (public_form_stops_at_the_debug_flag page valid_form eq_refl)
    as (_ & Hcalls & Hraise).
  split; [|exact Hcalls].
  apply (Hraise (Some [Some "2.0.0"; Some "1.9.3"]) Sample.form_settings eq_refl).
  vm_compute. reflexivity.
Defined.

Lemma private_form_is_consistent_witness :
  let self := Sample.form false "" "" in
  public self = false
  /\ snd (Page.add_left_widgets_form page self) = Next filled_form
  /\ consistent_form page filled_form.
Proof.
  cbv zeta. split; [reflexivity|].
  assert (H : snd (Page.add_left_widgets_form page (Sample.form false "" ""))
              = Next filled_form) by (vm_compute; reflexivity).
  split; [exact H|].
  apply (private_form_is_consistent page (Sample.form false "" "") filled_form
           eq_refl H).
Defined.

(** ** The whole of [add_left_widgets] on a public deployment *)

(** C7, where the code misses it: on a public deployment [add_left_widgets]
    never evaluates the admission test of lines 397-405. The form raises
    before (line 321, [UnboundLocalError] once the statements before it have
    returned), so the method ends with that exception: the queue length is
    not read, neither a warning nor a "Generate" button is rendered and the
    state is as it was, whatever the length of the queue. *)
Theorem admission_is_not_reached_on_public tk w self s :
  public self = true ->
  let r := add_left_widgets_whole tk w self s in
  (exists e, r_ctl (snd r) = Raise e)
  /\ r_trace (snd r) = []
  /\ r_state (snd r) = s
  /\ Forall before_debug_flag (fst r)
  /\ (forall versions settings,
        Page.get_versions tk = Ok versions ->
        snd (Page.get_settings tk self) = Next settings ->
        r_ctl (snd r) = Raise (Page.unbound_local "enable_debug")).
Proof.
  intros Hp. cbv zeta. unfold add_left_widgets_whole. cbv zeta.
  destruct (public_form_raises tk self Hp) as [e He].
  pose proof (public_form_calls tk self Hp) as Hcalls.
  assert (Hu : forall versions settings,
             Page.get_versions tk = Ok versions ->
             snd (Page.get_settings tk self) = Next settings ->
             e = Page.unbound_local "enable_debug").
  { intros versions settings Hv Hs.
    pose proof (public_form_unbound tk self versions settings Hp Hv Hs) as H.
    congruence. }
  rewrite He. cbn [fst snd r_ctl r_trace r_state].
  split; [eauto|]. split; [reflexivity|]. split; [reflexivity|].
  split; [exact Hcalls|]. intros versions settings Hv Hs.
  rewrite (Hu versions settings Hv Hs). reflexivity.
Qed.

Lemma admission_is_not_reached_on_public_witness :
  let r := add_left_widgets_whole page Sample.calm valid_form Sample.fresh in
  public valid_form = true
  /\ is_on_community_server Sample.calm = false
  /\ get_queue_length Sample.calm = Ok 1
  /\ admission 1 QUEUE_LIMIT = true
  /\ r_ctl (snd r) = Raise (Page.unbound_local "enable_debug")
  /\ ~ In GetQueueLength (r_trace (snd r))
  /\ ~ In (Button "Generate" false) (r_trace (snd r)).
Proof.
  cbv zeta.
  destruct (admission_is_not_reached_on_public page Sample.calm valid_form Sample.fresh
              eq_refl) as (_ & Ht & _ & _ & Hu).
  do 4 (split; [reflexivity|]).
  split; [|rewrite Ht; split; intros []].
  apply (Hu (Some [Some "2.0.0"; Some "1.9.3"]) Sample.form_settings eq_refl).
  vm_compute. reflexivity.
Defined.
